(** * LM PayTrack: the pay-period earnings engine

    A shallow embedding of the pay-period helpers (lib/pay-periods.js and
    their copies in server.js), of the summary reduction of
    GET /api/pay-period/:employeeId, of POST /api/submit-invoice and of
    DELETE /api/time-entry/:id, with the properties of the design
    document proved about them.

    Conventions.
    - A JavaScript [Date] is its time value: milliseconds since the epoch,
      or no value for an Invalid Date.
    - The local time zone of the runtime is a fixed offset [tza]
      (milliseconds, positive east of Greenwich), a parameter of every
      function that reads or builds local time.
    - The clock ([new Date()]) is an explicit argument [now].
    - A JavaScript number is an IEEE 754 binary64 value, with the
      arithmetic of the standard library's specification of floating-point
      numbers (round to nearest, ties to even). *)

From Stdlib Require Import ZArith Lia List Bool Ascii String.
From Stdlib Require Import SpecFloat QArith Qpower Lqa.
Import ListNotations.

(** ** The Date arithmetic of the runtime (ECMAScript, section Date) *)

Module JSDate.
Local Open Scope Z_scope.

Definition msPerDay : Z := 86400000.

Definition Day (t : Z) : Z := t / msPerDay.
Definition TimeWithinDay (t : Z) : Z := t mod msPerDay.

Definition DaysInYear (y : Z) : Z :=
  if negb (y mod 4 =? 0) then 365
  else if negb (y mod 100 =? 0) then 366
  else if negb (y mod 400 =? 0) then 365
  else 366.

Definition DayFromYear (y : Z) : Z :=
  365 * (y - 1970) + (y - 1969) / 4 - (y - 1901) / 100 + (y - 1601) / 400.

Definition TimeFromYear (y : Z) : Z := msPerDay * DayFromYear y.

(** The largest [y] with [DayFromYear y <= d]: an estimate from the mean
    length of a year, corrected by at most one. *)
Definition YearFromDay (d : Z) : Z :=
  let y0 := 1970 + (400 * d) / 146097 in
  if d <? DayFromYear y0 then y0 - 1
  else if DayFromYear (y0 + 1) <=? d then y0 + 1
  else y0.

Definition YearFromTime (t : Z) : Z := YearFromDay (Day t).

Definition LeapOf (y : Z) : Z := if DaysInYear y =? 366 then 1 else 0.
Definition InLeapYear (t : Z) : Z := LeapOf (YearFromTime t).

Definition DayWithinYear (t : Z) : Z := Day t - DayFromYear (YearFromTime t).

(** Number of the first day of month [m] (0 = January) within its year. *)
Definition MonthStart (m leap : Z) : Z :=
  match m with
  | 0 => 0
  | 1 => 31
  | 2 => 59 + leap
  | 3 => 90 + leap
  | 4 => 120 + leap
  | 5 => 151 + leap
  | 6 => 181 + leap
  | 7 => 212 + leap
  | 8 => 243 + leap
  | 9 => 273 + leap
  | 10 => 304 + leap
  | _ => 334 + leap
  end.

Definition MonthFromTime (t : Z) : Z :=
  let d := DayWithinYear t in
  let l := InLeapYear t in
  if d <? 31 then 0
  else if d <? 59 + l then 1
  else if d <? 90 + l then 2
  else if d <? 120 + l then 3
  else if d <? 151 + l then 4
  else if d <? 181 + l then 5
  else if d <? 212 + l then 6
  else if d <? 243 + l then 7
  else if d <? 273 + l then 8
  else if d <? 304 + l then 9
  else if d <? 334 + l then 10
  else 11.

Definition DateFromTime (t : Z) : Z :=
  DayWithinYear t - MonthStart (MonthFromTime t) (InLeapYear t) + 1.

Definition MakeTime (h m s ms : Z) : Z :=
  h * 3600000 + m * 60000 + s * 1000 + ms.

Definition MakeDay (year month date : Z) : Z :=
  let ym := year + month / 12 in
  let mn := month mod 12 in
  DayFromYear ym + MonthStart mn (LeapOf ym) + date - 1.

Definition MakeDate (day time : Z) : Z := day * msPerDay + time.

Definition maxTime : Z := 8640000000000000.

(** A Date object: [None] is the Invalid Date (time value NaN). *)
Definition Date : Type := option Z.

Definition TimeClip (t : Z) : Date :=
  if Z.abs t <=? maxTime then Some t else None.

(** Local time at a fixed offset. *)
Definition LocalTime (tza t : Z) : Z := t + tza.
Definition UTC (tza t : Z) : Z := t - tza.

(** [new Date(year, month, date)]: years 0..99 mean 1900..1999. *)
Definition newDate3 (tza year month date : Z) : Date :=
  let yr := if (0 <=? year) && (year <=? 99) then 1900 + year else year in
  TimeClip (UTC tza (MakeDate (MakeDay yr month date) (MakeTime 0 0 0 0))).

(** Numbers read from a Date: [None] is NaN. *)
Definition getTime (d : Date) : option Z := d.
Definition getFullYear (tza : Z) (d : Date) : option Z :=
  option_map (fun t => YearFromTime (LocalTime tza t)) d.
Definition getMonth (tza : Z) (d : Date) : option Z :=
  option_map (fun t => MonthFromTime (LocalTime tza t)) d.
Definition getDate (tza : Z) (d : Date) : option Z :=
  option_map (fun t => DateFromTime (LocalTime tza t)) d.

(** [d.setDate(dt)] returns the updated Date. *)
Definition setDate (tza : Z) (d : Date) (dt : Z) : Date :=
  match d with
  | None => None
  | Some t0 =>
      let t := LocalTime tza t0 in
      let newDate :=
        MakeDate (MakeDay (YearFromTime t) (MonthFromTime t) dt)
                 (TimeWithinDay t) in
      TimeClip (UTC tza newDate)
  end.

(** Length of month [m] (0 = January) of year [y]. *)
Definition DaysInMonth (y m : Z) : Z :=
  match m with
  | 1 => 28 + LeapOf y
  | 3 | 5 | 8 | 10 => 30
  | _ => 31
  end.

End JSDate.

(** ** Strings of the runtime: digits, [String(n)], [padStart], [split] *)

Module JSString.
Local Open Scope Z_scope.

Definition is_digit (c : ascii) : bool :=
  let n := Z.of_N (N_of_ascii c) in (48 <=? n) && (n <=? 57).

Definition digit_value (c : ascii) : Z := Z.of_N (N_of_ascii c) - 48.

Definition digit_char (n : Z) : ascii := ascii_of_N (Z.to_N (n + 48)).

(** Decimal digits of a non-negative integer, most significant first. *)
Fixpoint digits (fuel : nat) (n : Z) (acc : string) : string :=
  let acc' := String (digit_char (n mod 10)) acc in
  match fuel with
  | O => acc'
  | S fuel' => if n <? 10 then acc' else digits fuel' (n / 10) acc'
  end.

(** [String(n)] and [`${n}`] for an integer [n]. *)
Definition toStr (n : Z) : string :=
  if n <? 0
  then String "-" (digits (Z.to_nat (Z.log2 (- n))) (- n) EmptyString)
  else digits (Z.to_nat (Z.log2 n)) n EmptyString.

Fixpoint repeat_char (c : ascii) (n : nat) : string :=
  match n with
  | O => EmptyString
  | S k => String c (repeat_char c k)
  end.

(** [s.padStart(targetLength, c)] for a one-character filler. *)
Definition padStart (s : string) (targetLength : nat) (c : ascii) : string :=
  (repeat_char c (targetLength - String.length s) ++ s)%string.

(** The value of a run of digits. *)
Fixpoint number_of (s : string) (acc : Z) : Z :=
  match s with
  | EmptyString => acc
  | String c s' => number_of s' (10 * acc + digit_value c)
  end.

(** [s.split(sep)[0]]: the part of [s] before the first [sep]. *)
Fixpoint split_head (sep : ascii) (s : string) : string :=
  match s with
  | EmptyString => EmptyString
  | String c s' =>
      if Ascii.eqb c sep then EmptyString else String c (split_head sep s')
  end.

(** [/^\d{4}-\d{2}-\d{2}$/.test(s)] *)
Definition is_date_only (s : string) : bool :=
  match s with
  | String y1 (String y2 (String y3 (String y4 (String h1
    (String m1 (String m2 (String h2 (String d1 (String d2
     EmptyString))))))))) =>
      is_digit y1 && is_digit y2 && is_digit y3 && is_digit y4 &&
      Ascii.eqb h1 "-" &&
      is_digit m1 && is_digit m2 &&
      Ascii.eqb h2 "-" &&
      is_digit d1 && is_digit d2
  | _ => false
  end.

(** The three numbers of a string accepted by [is_date_only]. *)
Definition date_fields (s : string) : Z * Z * Z :=
  (number_of (substring 0 4 s) 0,
   number_of (substring 5 2 s) 0,
   number_of (substring 8 2 s) 0).

End JSString.

(** ** Results of calls that may throw *)

Inductive JSError : Type :=
| InvalidDateError   (* [new Error(`Invalid date: ${date}`)] *)
| RangeError         (* thrown by [toISOString] on an Invalid Date *)
| TypeError.

Inductive outcome (A : Type) : Type :=
| Returns (a : A)
| Throws (e : JSError).
Arguments Returns {A} a.
Arguments Throws {A} e.

Definition bind {A B : Type} (c : outcome A) (k : A -> outcome B) : outcome B :=
  match c with
  | Returns a => k a
  | Throws e => Throws e
  end.

Notation "x <- c ;; k" := (bind c (fun x => k))
  (at level 61, c at next level, right associativity).

(** A pay period: [{ start, end }]. *)
Record Period : Type := { start : JSDate.Date; end_ : JSDate.Date }.

(** ** lib/pay-periods.js *)

Module PayPeriods.
Import JSDate JSString.
Local Open Scope Z_scope.

(** What a caller may pass as a date: [Date|string|number]. *)
Inductive DateArg : Type :=
| ADate (d : Date)
| AString (s : string)
| ANumber (n : option Z).

Section Runtime.

(** Offset of local time, and the parser of the runtime for the strings
    that are not of the date-only form (implementation-defined). *)
Variable tza : Z.
Variable Date_parse : string -> Date.

(** [new Date(`${date}T00:00:00`)] for [date] of the date-only form: a
    date-time without offset is local time.  Node accepts months 01..12
    and days 01..31, and [MakeDay] carries a day past the end of the month
    into the next one. *)
Definition newDate_local_midnight (date : string) : Date :=
  let '(y, m, d) := date_fields date in
  if (1 <=? m) && (m <=? 12) && (1 <=? d) && (d <=? 31)
  then TimeClip (UTC tza (MakeDate (MakeDay y (m - 1) d) (MakeTime 0 0 0 0)))
  else None.

(** [new Date(value)] *)
Definition newDate1 (date : DateArg) : Date :=
  match date with
  | ADate d => d
  | AString s => Date_parse s
  | ANumber (Some v) => TimeClip v
  | ANumber None => None
  end.

Definition toLocalDate (date : DateArg) : Date :=
  match date with
  | AString s =>
      if is_date_only s then newDate_local_midnight s else newDate1 date
  | _ => newDate1 date
  end.

Definition getPayPeriod (date : DateArg) : outcome Period :=
  match toLocalDate date with
  | None => Throws InvalidDateError
  | Some t =>
      let year := YearFromTime (LocalTime tza t) in
      let month := MonthFromTime (LocalTime tza t) in
      let day := DateFromTime (LocalTime tza t) in
      if day <=? 15 then
        Returns {| start := newDate3 tza year month 1;
                   end_ := newDate3 tza year month 15 |}
      else
        let lastDay := getDate tza (newDate3 tza year (month + 1) 0) in
        Returns {| start := newDate3 tza year month 16;
                   end_ := match lastDay with
                           | Some l => newDate3 tza year month l
                           | None => None
                           end |}
  end.

Definition formatDateForDB (date : DateArg) : outcome string :=
  match toLocalDate date with
  | None => Throws InvalidDateError
  | Some t =>
      let year := YearFromTime (LocalTime tza t) in
      let month := padStart (toStr (MonthFromTime (LocalTime tza t) + 1)) 2 "0" in
      let day := padStart (toStr (DateFromTime (LocalTime tza t))) 2 "0" in
      Returns (toStr year ++ "-" ++ month ++ "-" ++ day)%string
  end.

(** [targetDate.setDate(targetDate.getDate() + delta)] *)
Definition shiftDate (targetDate : Date) (delta : Z) : Date :=
  match getDate tza targetDate with
  | Some g => setDate tza targetDate (g + delta)
  | None => None
  end.

(** The body of the loop of [getPayPeriodByOffset], run [n] times. *)
Fixpoint offset_loop (offset : Z) (n : nat) (targetDate : Date)
  : outcome Date :=
  match n with
  | O => Returns targetDate
  | S n' =>
      if offset <? 0 then
        currentPeriod <- getPayPeriod (ADate targetDate) ;;
        offset_loop offset n' (shiftDate (start currentPeriod) (-1))
      else
        currentPeriod <- getPayPeriod (ADate targetDate) ;;
        offset_loop offset n' (shiftDate (end_ currentPeriod) 1)
  end.

(** [today] is the reading of the clock, [new Date()]. *)
Definition getPayPeriodByOffset (today : Date) (offset : Z) : outcome Period :=
  targetDate <- offset_loop offset (Z.to_nat (Z.abs offset)) today ;;
  getPayPeriod (ADate targetDate).

(** [new Date(date)] for [date] of the date-only form, as the runtime
    reads it when it is not given a time: midnight of universal time. *)
Definition newDate_date_only (date : string) : Date :=
  let '(y, m, d) := date_fields date in
  if (1 <=? m) && (m <=? 12) && (1 <=? d) && (d <=? 31)
  then TimeClip (MakeDate (MakeDay y (m - 1) d) (MakeTime 0 0 0 0))
  else None.

Definition months : list string :=
  ["Jan"; "Feb"; "Mar"; "Apr"; "May"; "Jun";
   "Jul"; "Aug"; "Sep"; "Oct"; "Nov"; "Dec"]%string.

(** [`${x}`] for a number or an array element that may be missing. *)
Definition show_number (n : option Z) : string :=
  match n with
  | Some v => toStr v
  | None => "NaN"
  end.

Definition show_month (m : option Z) : string :=
  match m with
  | Some v =>
      if v <? 0 then "undefined"
      else nth (Z.to_nat v) months "undefined"%string
  | None => "undefined"
  end.

(** The dash of the label is U+2013, written here in UTF-8. *)
Definition en_dash : string :=
  String (ascii_of_nat 226)
         (String (ascii_of_nat 128) (String (ascii_of_nat 147) EmptyString)).

Definition getPayPeriodLabel (period : Period) : string :=
  let start := start period in
  let end_ := end_ period in
  let month := show_month (getMonth tza start) in
  let startDay := show_number (getDate tza start) in
  let endDay := show_number (getDate tza end_) in
  let year := show_number (getFullYear tza start) in
  (month ++ " " ++ startDay ++ en_dash ++ endDay ++ ", " ++ year)%string.

End Runtime.

End PayPeriods.

(** ** The helpers of server.js (the same text in both versions of the
    server).  They are called on Date objects only: the clock and the
    bounds of a period. *)

Module Server.
Import JSDate JSString.
Local Open Scope Z_scope.

(** [new Date(year, month, date)] on numbers that may be NaN. *)
Definition newDate3n (tza : Z) (year month date : option Z) : Date :=
  match year, month, date with
  | Some y, Some m, Some d => newDate3 tza y m d
  | _, _, _ => None
  end.

(** [day <= 15], false on NaN. *)
Definition le15 (day : option Z) : bool :=
  match day with
  | Some v => v <=? 15
  | None => false
  end.

Definition getPayPeriod (tza : Z) (date : Date) : Period :=
  let d := date in
  let year := getFullYear tza d in
  let month := getMonth tza d in
  let day := getDate tza d in
  if le15 day then
    {| start := newDate3n tza year month (Some 1);
       end_ := newDate3n tza year month (Some 15) |}
  else
    let lastDay :=
      getDate tza (newDate3n tza year (option_map (fun m => m + 1) month)
                             (Some 0)) in
    {| start := newDate3n tza year month (Some 16);
       end_ := newDate3n tza year month lastDay |}.

Definition HourFromTime (t : Z) : Z := (t / 3600000) mod 24.
Definition MinFromTime (t : Z) : Z := (t / 60000) mod 60.
Definition SecFromTime (t : Z) : Z := (t / 1000) mod 60.
Definition msFromTime (t : Z) : Z := t mod 1000.

(** [d.toISOString()]: the fields of universal time. *)
Definition toISOString (d : Date) : outcome string :=
  match d with
  | None => Throws RangeError
  | Some t =>
      let y := YearFromTime t in
      let year :=
        if (0 <=? y) && (y <=? 9999) then padStart (toStr y) 4 "0"
        else String (if y <? 0 then "-"%char else "+"%char)
                    (padStart (toStr (Z.abs y)) 6 "0") in
      Returns (year ++ "-" ++ padStart (toStr (MonthFromTime t + 1)) 2 "0"
                    ++ "-" ++ padStart (toStr (DateFromTime t)) 2 "0"
                    ++ "T" ++ padStart (toStr (HourFromTime t)) 2 "0"
                    ++ ":" ++ padStart (toStr (MinFromTime t)) 2 "0"
                    ++ ":" ++ padStart (toStr (SecFromTime t)) 2 "0"
                    ++ "." ++ padStart (toStr (msFromTime t)) 3 "0"
                    ++ "Z")%string
  end.

(** [date.toISOString().split('T')[0]] *)
Definition formatDateForDB (date : Date) : outcome string :=
  iso <- toISOString date ;;
  Returns (split_head "T" iso).

Definition shiftDate (tza : Z) (targetDate : Date) (delta : Z) : Date :=
  match getDate tza targetDate with
  | Some g => setDate tza targetDate (g + delta)
  | None => None
  end.

Fixpoint offset_loop (tza offset : Z) (n : nat) (targetDate : Date) : Date :=
  match n with
  | O => targetDate
  | S n' =>
      if offset <? 0 then
        let currentPeriod := getPayPeriod tza targetDate in
        offset_loop tza offset n' (shiftDate tza (start currentPeriod) (-1))
      else
        let currentPeriod := getPayPeriod tza targetDate in
        offset_loop tza offset n' (shiftDate tza (end_ currentPeriod) 1)
  end.

Definition getPayPeriodByOffset (tza : Z) (today : Date) (offset : Z)
  : Period :=
  getPayPeriod tza (offset_loop tza offset (Z.to_nat (Z.abs offset)) today).

(** The bounds of the date range of GET /api/pay-period/:employeeId:
    [startDate] and [endDate]. *)
Definition period_keys (tza : Z) (today : Date) (periodOffset : Z)
  : outcome string * outcome string :=
  let period := getPayPeriodByOffset tza today periodOffset in
  (formatDateForDB (start period), formatDateForDB (end_ period)).

End Server.

(** ** Period navigation as the design document words it *)

Module Navigation.
Import JSDate.
Local Open Scope Z_scope.

Section Steps.
Variable tza : Z.
Variable Date_parse : string -> Date.

(** "move to the day immediately before the current period's start, then
    recompute the containing period" *)
Definition stepBack (p : Period) : outcome Period :=
  PayPeriods.getPayPeriod tza Date_parse
    (PayPeriods.ADate (PayPeriods.shiftDate tza (start p) (-1))).

(** "move to the day immediately after the current period's end, then
    recompute" *)
Definition stepForward (p : Period) : outcome Period :=
  PayPeriods.getPayPeriod tza Date_parse
    (PayPeriods.ADate (PayPeriods.shiftDate tza (end_ p) 1)).

Fixpoint repeat_step (step : Period -> outcome Period) (n : nat) (p : Period)
  : outcome Period :=
  match n with
  | O => Returns p
  | S n' => p' <- step p ;; repeat_step step n' p'
  end.

Definition periodByOffset (offset : Z) (referenceDate : Date)
  : outcome Period :=
  p0 <- PayPeriods.getPayPeriod tza Date_parse (PayPeriods.ADate referenceDate) ;;
  if offset <? 0 then repeat_step stepBack (Z.to_nat (- offset)) p0
  else repeat_step stepForward (Z.to_nat offset) p0.

End Steps.
End Navigation.

(** ** Values read from rows, and the arithmetic of the summary

    A JavaScript number is a double: [spec_float] at precision 53 and
    maximal exponent 1024, with the operations of IEEE 754. *)

Module JSValue.

Definition prec : Z := 53.
Definition emax : Z := 1024.

Definition num : Type := spec_float.

Definition NaN : num := S754_nan.

(** The number [+0]. *)
Definition zero : num := S754_zero false.

Inductive jsval : Type :=
| JUndefined
| JNull
| JBool (b : bool)
| JNum (n : num).

(** [a + b], [a - b], [a * b] and [a / b] on numbers. *)
Definition nadd (a b : num) : num := SFadd prec emax a b.
Definition nsub (a b : num) : num := SFsub prec emax a b.
Definition nmul (a b : num) : num := SFmul prec emax a b.
Definition ndiv (a b : num) : num := SFdiv prec emax a b.

(** The number of an integer literal. *)
Definition int (z : Z) : num := binary_normalize prec emax z 0 false.

(** The number of a decimal literal [n / 10^k] with [k] decimals, such as
    [dec 7 1] for [0.7]: the double nearest to the quotient. *)
Definition dec (n : Z) (k : Z) : num := ndiv (int n) (int (10 ^ k)).

(** A double that is neither NaN nor an infinity. *)
Definition is_finite (x : num) : bool :=
  match x with
  | S754_zero _ | S754_finite _ _ _ => true
  | S754_infinity _ | S754_nan => false
  end.

(** Conversion of the operand of an arithmetic operator. *)
Definition ToNumber (v : jsval) : num :=
  match v with
  | JUndefined => NaN
  | JNull => zero
  | JBool true => int 1
  | JBool false => zero
  | JNum n => n
  end.

(** The test of [if (v)] and of [v || w]: [+0], [-0] and [NaN] are the
    numbers that count as false. *)
Definition truthy (v : jsval) : bool :=
  match v with
  | JUndefined | JNull => false
  | JBool b => b
  | JNum (S754_zero _) | JNum S754_nan => false
  | JNum _ => true
  end.

(** [v || 0] *)
Definition or0 (v : jsval) : jsval :=
  if truthy v then v else JNum zero.

(** [acc += v] for a number [acc]. *)
Definition add_to (acc : num) (v : jsval) : num := nadd acc (ToNumber v).

End JSValue.

(** ** The tables, and the routes of server.js that read and write them *)

Module Store.
Import JSValue.
Local Open Scope Z_scope.

Record employee : Type := {
  employee_row_id : Z;
  hourly_wage : jsval
}.

Record time_entry : Type := {
  entry_id : Z;
  entry_employee_id : Z;
  entry_date : string;
  hours : jsval
}.

Record client_entry : Type := {
  client_time_entry_id : Z;
  amount_earned : jsval;
  tip_amount : jsval;
  tip_received_cash : jsval
}.

Record product_sale : Type := {
  sale_time_entry_id : Z;
  commission_amount : jsval
}.

Record invoice : Type := {
  invoice_id : Z;
  invoice_employee_id : Z;
  pay_period_start : string;
  pay_period_end : string;
  total_hours : jsval;
  total_wages : jsval;
  total_commissions : jsval;
  total_tips : jsval;
  total_product_commissions : jsval;
  cash_tips_received : jsval;
  total_payable : jsval;
  email_sent : bool
}.

Record db : Type := {
  employees : list employee;
  time_entries : list time_entry;
  client_entries : list client_entry;
  product_sales : list product_sale;
  invoices : list invoice
}.

(** The two versions of the server read one row in two ways. *)
Inductive backend : Type :=
| SqlJs      (* server.js:          getOne, [results[0] || null] *)
| Supabase.  (* the Supabase server: [.single()], the row when exactly one
                row matches and no data otherwise *)

Definition getOne {A : Type} (rows : list A) : option A :=
  match rows with
  | r :: _ => Some r
  | [] => None
  end.

Definition single {A : Type} (rows : list A) : option A :=
  match rows with
  | [r] => Some r
  | _ => None
  end.

Definition fetch_one {A : Type} (b : backend) (rows : list A) : option A :=
  match b with
  | SqlJs => getOne rows
  | Supabase => single rows
  end.

(** *** GET /api/pay-period/:employeeId: the reduction *)

Record totals : Type := {
  totalHours : num;
  totalCommissions : num;
  totalTips : num;
  totalCashTips : num;
  totalProductCommissions : num
}.

Definition zero_totals : totals :=
  {| totalHours := zero; totalCommissions := zero; totalTips := zero;
     totalCashTips := zero; totalProductCommissions := zero |}.

Definition clients_of (d : db) (id : Z) : list client_entry :=
  filter (fun c => client_time_entry_id c =? id) (client_entries d).

Definition sales_of (d : db) (id : Z) : list product_sale :=
  filter (fun s => sale_time_entry_id s =? id) (product_sales d).

(** Body of [for (const c of clients)]. *)
Definition add_client (acc : totals) (c : client_entry) : totals :=
  {| totalHours := totalHours acc;
     totalCommissions := add_to (totalCommissions acc) (or0 (amount_earned c));
     totalTips := add_to (totalTips acc) (or0 (tip_amount c));
     totalCashTips :=
       if truthy (tip_received_cash c)
       then add_to (totalCashTips acc) (or0 (tip_amount c))
       else totalCashTips acc;
     totalProductCommissions := totalProductCommissions acc |}.

(** Body of [for (const s of sales)]. *)
Definition add_sale (acc : totals) (s : product_sale) : totals :=
  {| totalHours := totalHours acc;
     totalCommissions := totalCommissions acc;
     totalTips := totalTips acc;
     totalCashTips := totalCashTips acc;
     totalProductCommissions :=
       add_to (totalProductCommissions acc) (or0 (commission_amount s)) |}.

(** Body of [for (const entry of entries)]. *)
Definition add_entry (d : db) (acc : totals) (entry : time_entry) : totals :=
  let acc1 :=
    {| totalHours := add_to (totalHours acc) (hours entry);
       totalCommissions := totalCommissions acc;
       totalTips := totalTips acc;
       totalCashTips := totalCashTips acc;
       totalProductCommissions := totalProductCommissions acc |} in
  let acc2 := fold_left add_client (clients_of d (entry_id entry)) acc1 in
  fold_left add_sale (sales_of d (entry_id entry)) acc2.

Record summary : Type := {
  sum_totals : totals;
  hourlyWage : jsval;
  totalWages : num;
  totalPayable : num
}.

(** The totals of the response, from the employee row (if found) and the
    entries of the period. *)
Definition summarize (d : db) (emp : option employee)
           (entries : list time_entry) : summary :=
  let t := fold_left (add_entry d) entries zero_totals in
  let hourlyWage :=
    or0 (match emp with
         | Some e => hourly_wage e
         | None => JUndefined
         end) in
  let totalWages := nmul (totalHours t) (ToNumber hourlyWage) in
  {| sum_totals := t;
     hourlyWage := hourlyWage;
     totalWages := totalWages;
     totalPayable :=
       nsub (nadd (nadd (nadd totalWages (totalCommissions t)) (totalTips t))
                  (totalProductCommissions t))
            (totalCashTips t) |}.

(** *** POST /api/submit-invoice *)

Definition invoice_matches (employeeId : Z) (periodStart periodEnd : string)
           (i : invoice) : bool :=
  (invoice_employee_id i =? employeeId)
  && String.eqb (pay_period_start i) periodStart
  && String.eqb (pay_period_end i) periodEnd.

(** The row found by "Check if already submitted". *)
Definition existing_invoice (b : backend) (d : db) (employeeId : Z)
           (periodStart periodEnd : string) : option invoice :=
  fetch_one b (filter (invoice_matches employeeId periodStart periodEnd)
                      (invoices d)).

Record invoice_request : Type := {
  req_employeeId : Z;
  req_periodStart : string;
  req_periodEnd : string;
  req_totalHours : jsval;
  req_totalWages : jsval;
  req_totalCommissions : jsval;
  req_totalTips : jsval;
  req_totalCashTips : jsval;
  req_totalProductCommissions : jsval;
  req_totalPayable : jsval
}.

Inductive submit_response : Type :=
| AlreadySubmitted   (* success: false, 'Invoice already submitted ...' *)
| FailedToCreate     (* success: false, 'Failed to create invoice' *)
| Submitted (invoiceId : Z) (emailSent : bool)
| Unanswered (e : JSError).  (* the handler throws: no answer is sent *)

(** [v.toFixed(2)] is a method of numbers: the call throws a TypeError
    when [v] is undefined, null or a boolean. *)
Definition has_toFixed (v : jsval) : bool :=
  match v with
  | JNum _ => true
  | _ => false
  end.

(** The totals that the body of the mail and the log line print with
    [toFixed]. *)
Definition totals_printable (r : invoice_request) : bool :=
  has_toFixed (req_totalHours r) && has_toFixed (req_totalWages r)
  && has_toFixed (req_totalCommissions r)
  && has_toFixed (req_totalProductCommissions r)
  && has_toFixed (req_totalTips r) && has_toFixed (req_totalCashTips r)
  && has_toFixed (req_totalPayable r).

(** The id the table gives the next row. *)
Definition next_invoice_id (d : db) : Z :=
  1 + fold_right Z.max 0 (map invoice_id (invoices d)).

Definition with_invoices (d : db) (l : list invoice) : db :=
  {| employees := employees d; time_entries := time_entries d;
     client_entries := client_entries d; product_sales := product_sales d;
     invoices := l |}.

Definition mark_emailed (id : Z) (i : invoice) : invoice :=
  if invoice_id i =? id then
    {| invoice_id := invoice_id i;
       invoice_employee_id := invoice_employee_id i;
       pay_period_start := pay_period_start i;
       pay_period_end := pay_period_end i;
       total_hours := total_hours i;
       total_wages := total_wages i;
       total_commissions := total_commissions i;
       total_tips := total_tips i;
       total_product_commissions := total_product_commissions i;
       cash_tips_received := cash_tips_received i;
       total_payable := total_payable i;
       email_sent := true |}
  else i.

(** [insert_ok] tells whether the store accepts the INSERT, [email_ok]
    whether the mail service reports the message sent.  After the INSERT
    the totals are printed, in the body of the mail (when a key of the
    mail service is configured) and in the log line: when one of them has
    no [toFixed] the handler throws there, before any mail is sent, before
    the row is marked and before the answer. *)
Definition submit_invoice (b : backend) (insert_ok email_ok : bool)
           (d : db) (r : invoice_request) : db * submit_response :=
  match existing_invoice b d (req_employeeId r) (req_periodStart r)
                         (req_periodEnd r) with
  | Some _ => (d, AlreadySubmitted)
  | None =>
      if insert_ok then
        let id := next_invoice_id d in
        let row :=
          {| invoice_id := id;
             invoice_employee_id := req_employeeId r;
             pay_period_start := req_periodStart r;
             pay_period_end := req_periodEnd r;
             total_hours := req_totalHours r;
             total_wages := req_totalWages r;
             total_commissions := req_totalCommissions r;
             total_tips := req_totalTips r;
             total_product_commissions := req_totalProductCommissions r;
             cash_tips_received := req_totalCashTips r;
             total_payable := req_totalPayable r;
             email_sent := false |} in
        let d1 := with_invoices d (invoices d ++ [row]) in
        if totals_printable r then
          if email_ok
          then (with_invoices d1 (map (mark_emailed id) (invoices d1)),
                Submitted id true)
          else (d1, Submitted id false)
        else (d1, Unanswered TypeError)
      else (d, FailedToCreate)
  end.

(** *** DELETE /api/time-entry/:id *)

Inductive statement : Type :=
| DeleteProductSales (id : Z)   (* DELETE FROM product_sales WHERE time_entry_id = ? *)
| DeleteClientEntries (id : Z)  (* DELETE FROM client_entries WHERE time_entry_id = ? *)
| DeleteTimeEntry (id : Z).     (* DELETE FROM time_entries WHERE id = ? *)

Definition run_statement (d : db) (s : statement) : db :=
  match s with
  | DeleteProductSales id =>
      {| employees := employees d; time_entries := time_entries d;
         client_entries := client_entries d;
         product_sales :=
           filter (fun s => negb (sale_time_entry_id s =? id)) (product_sales d);
         invoices := invoices d |}
  | DeleteClientEntries id =>
      {| employees := employees d; time_entries := time_entries d;
         client_entries :=
           filter (fun c => negb (client_time_entry_id c =? id))
                  (client_entries d);
         product_sales := product_sales d;
         invoices := invoices d |}
  | DeleteTimeEntry id =>
      {| employees := employees d;
         time_entries :=
           filter (fun e => negb (entry_id e =? id)) (time_entries d);
         client_entries := client_entries d;
         product_sales := product_sales d;
         invoices := invoices d |}
  end.

Inductive delete_response : Type :=
| NotAuthorized   (* 403 *)
| Deleted.        (* success: true *)

(** [id] is [parseInt(req.params.id)].  The route returns the statements it
    ran, in order, the store after them, and its answer. *)
Definition delete_time_entry (b : backend) (d : db) (id employeeId : Z)
  : list statement * db * delete_response :=
  match fetch_one b (filter (fun e => (entry_id e =? id)
                                      && (entry_employee_id e =? employeeId))
                            (time_entries d)) with
  | None => ([], d, NotAuthorized)
  | Some _ =>
      let stmts := [DeleteProductSales id; DeleteClientEntries id;
                    DeleteTimeEntry id] in
      (stmts, fold_left run_statement stmts d, Deleted)
  end.

End Store.

(** ** Notions used to state the properties of the arithmetic of doubles *)

Module Doubles.
Import JSValue.
Local Open Scope Z_scope.

(** A number that is zero, positive or [+Infinity]. *)
Definition nonneg (x : num) : bool :=
  match x with
  | S754_zero _ => true
  | S754_finite s _ _ | S754_infinity s => negb s
  | S754_nan => false
  end.

(** A double that is not negative, in its canonical representation (every
    value read from a row or from a request has one). *)
Definition good (x : num) : Prop :=
  nonneg x = true /\ valid_binary prec emax x = true.

(** [a <= b] and [a < b], false when [a] or [b] is NaN. *)
Definition nle (a b : num) : bool := SFleb a b.
Definition nlt (a b : num) : bool := SFltb a b.

(** The rational number that a finite double denotes. *)
Definition value (x : num) : Q :=
  match x with
  | S754_finite s m e =>
      ((if s then -1 else 1) * (inject_Z (Z.pos m) * Qpower 2 e))%Q
  | _ => 0%Q
  end.

(** The result [r] of an operation is finite and denotes [q]: no rounding
    took place. *)
Definition exact (r : num) (q : Q) : Prop :=
  is_finite r = true /\ (value r == q)%Q.

(** A double that is not negative, counted in units of the smallest
    positive double, [2^-1074]; [top] stands for [+Infinity]. *)
Definition top : Z := 2 ^ 2098.

Definition ord (x : num) : Z :=
  match x with
  | S754_finite _ m e => Z.pos m * 2 ^ (e + 1074)
  | S754_infinity _ => top
  | _ => 0
  end.

(** [X / 2^n] rounded to the nearest integer, ties to even. *)
Definition round_shift (X n : Z) : Z :=
  if n <=? 0 then X
  else
    let q := X / 2 ^ n in
    let r := X mod 2 ^ n in
    let h := 2 ^ (n - 1) in
    if r <? h then q
    else if h <? r then q + 1
    else if Z.even q then q else q + 1.

(** [N] rounded to 53 significant bits. *)
Definition round53 (N : Z) : Z :=
  round_shift N (Zdigits2 N - 53) * 2 ^ Z.max 0 (Zdigits2 N - 53).

(** The same with overflow to [+Infinity]. *)
Definition radd (N : Z) : Z := Z.min top (round53 N).

(** The record of the rounding procedure after [k] right shifts of the
    magnitude [X]: the quotient, the last bit shifted out, and whether a
    bit shifted out before it was set. *)
Definition shifted (X k : Z) (mrs : shr_record) : Prop :=
  (k = 0 /\ mrs = Build_shr_record X false false) \/
  (1 <= k /\
   shr_m mrs = X / 2 ^ k /\
   shr_r mrs = Z.testbit X (k - 1) /\
   shr_s mrs = negb (X mod 2 ^ (k - 1) =? 0)).

End Doubles.

(** ** More routes of server.js: entry submission, the invoice preview,
    the conflict check and the deletions of the administrator *)

Module Routes.
Import JSValue Store.
Local Open Scope Z_scope.

(** *** POST /api/time-entry *)

(** The fields of the request that reach the columns modelled here. *)
Record client_input : Type := {
  amountEarned : jsval;
  tipAmount : jsval;
  tipReceivedCash : jsval
}.

Record sale_input : Type := {
  commissionAmount : jsval
}.

Record entry_request : Type := {
  new_employeeId : Z;
  new_date : string;
  new_hours : jsval;
  new_clients : list client_input;     (* [] when absent *)
  new_productSales : list sale_input   (* [] when absent *)
}.

Inductive entry_response : Type :=
| EntryCreated (id : Z)   (* success: true, id *)
| EntryRejected.          (* status 400 *)

(** [client.tipReceivedCash ? 1 : 0] in server.js,
    [client.tipReceivedCash ? true : false] in the Supabase server. *)
Definition cash_flag (b : backend) (v : jsval) : jsval :=
  match b with
  | SqlJs => if truthy v then JNum (int 1) else JNum zero
  | Supabase => JBool (truthy v)
  end.

Definition client_row (b : backend) (timeEntryId : Z) (c : client_input)
  : client_entry :=
  {| client_time_entry_id := timeEntryId;
     amount_earned := or0 (amountEarned c);
     tip_amount := or0 (tipAmount c);
     tip_received_cash := cash_flag b (tipReceivedCash c) |}.

Definition sale_row (timeEntryId : Z) (s : sale_input) : product_sale :=
  {| sale_time_entry_id := timeEntryId;
     commission_amount := or0 (commissionAmount s) |}.

(** [inserted] is the answer of the store to the INSERT of the entry row:
    the id it gave the row ([lastId], [timeEntry.id]), or nothing when it
    refused the row. *)
Definition post_time_entry (b : backend) (inserted : option Z) (d : db)
           (r : entry_request) : db * entry_response :=
  match inserted with
  | Some timeEntryId =>
      let row := {| entry_id := timeEntryId;
                    entry_employee_id := new_employeeId r;
                    entry_date := new_date r;
                    hours := new_hours r |} in
      ({| employees := employees d;
          time_entries := time_entries d ++ [row];
          client_entries :=
            client_entries d ++ map (client_row b timeEntryId) (new_clients r);
          product_sales :=
            product_sales d ++ map (sale_row timeEntryId) (new_productSales r);
          invoices := invoices d |},
       EntryCreated timeEntryId)
  | None => (d, EntryRejected)
  end.

(** *** POST /api/check-conflict *)

Definition check_conflict (b : backend) (d : db) (employeeId : Z)
           (date : string) : option time_entry :=
  fetch_one b (filter (fun e => (entry_employee_id e =? employeeId)
                                && String.eqb (entry_date e) date)
                      (time_entries d)).

(** *** GET /api/invoice-preview/:employeeId: the reduction *)

Record day_detail : Type := {
  day_date : string;
  day_hours : jsval;
  day_wages : num;
  day_commissions : num;
  day_productCommissions : num;
  day_tips : num;
  day_cashTips : num;
  day_clients : list client_entry;
  day_products : list product_sale
}.

(** The row of one entry: its client entries and product sales, and the
    sums of the day over them. *)
Definition day_of (d : db) (emp : employee) (entry : time_entry)
  : day_detail :=
  let clients := clients_of d (entry_id entry) in
  let products := sales_of d (entry_id entry) in
  let dayCommissions :=
    fold_left (fun a c => add_to a (or0 (amount_earned c))) clients zero in
  let dayTips :=
    fold_left (fun a c => add_to a (or0 (tip_amount c))) clients zero in
  let dayCashTips :=
    fold_left (fun a c => if truthy (tip_received_cash c)
                          then add_to a (or0 (tip_amount c)) else a)
              clients zero in
  let dayProductCommissions :=
    fold_left (fun a p => add_to a (or0 (commission_amount p))) products
              zero in
  {| day_date := entry_date entry;
     day_hours := hours entry;
     day_wages := nmul (ToNumber (hours entry)) (ToNumber (hourly_wage emp));
     day_commissions := dayCommissions;
     day_productCommissions := dayProductCommissions;
     day_tips := dayTips;
     day_cashTips := dayCashTips;
     day_clients := clients;
     day_products := products |}.

(** Body of [for (const entry of entries)]: the sums of the day are added
    to the totals, and the row is pushed. *)
Definition preview_entry (d : db) (emp : employee)
           (acc : list day_detail * totals) (entry : time_entry)
  : list day_detail * totals :=
  let row := day_of d emp entry in
  let t := snd acc in
  (fst acc ++ [row],
   {| totalHours := add_to (totalHours t) (hours entry);
      totalCommissions := nadd (totalCommissions t) (day_commissions row);
      totalTips := nadd (totalTips t) (day_tips row);
      totalCashTips := nadd (totalCashTips t) (day_cashTips row);
      totalProductCommissions :=
        nadd (totalProductCommissions t) (day_productCommissions row) |}).

Record preview : Type := {
  preview_entries : list day_detail;
  preview_totals : totals;
  preview_totalWages : num;
  preview_totalPayable : num
}.

(** The answer for an employee that was found. *)
Definition invoice_preview (d : db) (emp : employee)
           (entries : list time_entry) : preview :=
  let r := fold_left (preview_entry d emp) entries ([], zero_totals) in
  let t := snd r in
  let totalWages := nmul (totalHours t) (ToNumber (hourly_wage emp)) in
  {| preview_entries := fst r;
     preview_totals := t;
     preview_totalWages := totalWages;
     preview_totalPayable :=
       nsub (nadd (nadd (nadd totalWages (totalCommissions t)) (totalTips t))
                  (totalProductCommissions t))
            (totalCashTips t) |}.

(** *** DELETE /api/admin/time-entries/:id *)

Definition admin_delete_time_entry (d : db) (id : Z) : db :=
  fold_left run_statement
            [DeleteProductSales id; DeleteClientEntries id; DeleteTimeEntry id]
            d.

(** *** DELETE /api/admin/employees/:id *)

(** Body of [for (const entry of timeEntries)]. *)
Definition delete_children (d : db) (entry : time_entry) : db :=
  run_statement (run_statement d (DeleteProductSales (entry_id entry)))
                (DeleteClientEntries (entry_id entry)).

Definition admin_delete_employee (d : db) (id : Z) : db :=
  let timeEntries :=
    filter (fun e => entry_employee_id e =? id) (time_entries d) in
  let d1 := fold_left delete_children timeEntries d in
  {| employees :=
       filter (fun e => negb (employee_row_id e =? id)) (employees d1);
     time_entries :=
       filter (fun e => negb (entry_employee_id e =? id)) (time_entries d1);
     client_entries := client_entries d1;
     product_sales := product_sales d1;
     invoices :=
       filter (fun i => negb (invoice_employee_id i =? id)) (invoices d1) |}.

End Routes.

(** ** The sums of the design document *)

Module SummarySpec.
Import JSValue Doubles Store.

(** Sum of a list of numbers, added from left to right starting from 0:
    what a loop [for (...) total += x] computes. *)
Definition sum_num (l : list num) : num := fold_left nadd l zero.

(** The number an amount contributes: the amount, or zero when the field
    is missing, null, zero or NaN. *)
Definition number_or_zero (v : jsval) : num := ToNumber (or0 v).

(** All client entries, and all product sales, of a list of time entries. *)
Definition all_clients (d : db) (entries : list time_entry)
  : list client_entry :=
  flat_map (fun e => clients_of d (entry_id e)) entries.

Definition all_sales (d : db) (entries : list time_entry)
  : list product_sale :=
  flat_map (fun e => sales_of d (entry_id e)) entries.

Definition received_cash (l : list client_entry) : list client_entry :=
  filter (fun c => truthy (tip_received_cash c)) l.

(** An amount that is not negative. *)
Definition nonneg_amount (v : jsval) : Prop := good (number_or_zero v).







(** The four operations that compute total payable are exact: each result
    is finite and denotes the sum, or the difference, of what its operands
    denote. *)
Definition payable_is_exact (s : summary) : Prop :=
  let t := sum_totals s in
  let x1 := nadd (totalWages s) (totalCommissions t) in
  let x2 := nadd x1 (totalTips t) in
  let x3 := nadd x2 (totalProductCommissions t) in
  exact x1 (value (totalWages s) + value (totalCommissions t)) /\
  exact x2 (value x1 + value (totalTips t)) /\
  exact x3 (value x2 + value (totalProductCommissions t)) /\
  exact (nsub x3 (totalCashTips t)) (value x3 - value (totalCashTips t)).






(** At most one invoice of the store has the given key. *)
Definition at_most_one_invoice (d : db) (employeeId : Z)
           (periodStart periodEnd : string) : Prop :=
  (List.length (filter (invoice_matches employeeId periodStart periodEnd)
                       (invoices d)) <= 1)%nat.

(** Rows for the examples. *)
Definition example_invoice : invoice :=
  {| invoice_id := 1; invoice_employee_id := 7;
     pay_period_start := "2026-02-01"; pay_period_end := "2026-02-15";
     total_hours := JNum (int 8); total_wages := JNum (int 160);
     total_commissions := JNum (int 50); total_tips := JNum (int 20);
     total_product_commissions := JNum (int 15);
     cash_tips_received := JNum (int 20); total_payable := JNum (int 225);
     email_sent := false |}.

Definition example_request : invoice_request :=
  {| req_employeeId := 7;
     req_periodStart := "2026-02-01"; req_periodEnd := "2026-02-15";
     req_totalHours := JNum (int 8); req_totalWages := JNum (int 160);
     req_totalCommissions := JNum (int 50); req_totalTips := JNum (int 20);
     req_totalCashTips := JNum (int 20);
     req_totalProductCommissions := JNum (int 15);
     req_totalPayable := JNum (int 225) |}.

Definition example_entry : time_entry :=
  {| entry_id := 3; entry_employee_id := 7; entry_date := "2026-02-10";
     hours := JNum (int 8) |}.

Definition example_db : db :=
  {| employees := [ {| employee_row_id := 7; hourly_wage := JNum (int 20) |} ];
     time_entries :=
       [ example_entry;
         {| entry_id := 4; entry_employee_id := 8;
            entry_date := "2026-02-10"; hours := JNum (int 5) |} ];
     client_entries :=
       [ {| client_time_entry_id := 3; amount_earned := JNum (int 50);
            tip_amount := JNum (int 20); tip_received_cash := JBool true |};
         {| client_time_entry_id := 4; amount_earned := JNull;
            tip_amount := JNum (int 10); tip_received_cash := JBool false |} ];
     product_sales :=
       [ {| sale_time_entry_id := 3; commission_amount := JNum (int 15) |} ];
     invoices := [ example_invoice ] |}.

Definition example_employee : employee :=
  {| employee_row_id := 7; hourly_wage := JNum (int 20) |}.


(** An employee paid 15 an hour, with one entry of 8.5 hours and one
    client entry whose tip of 0.7 was received in cash. *)
Definition tip_employee : employee :=
  {| employee_row_id := 9; hourly_wage := JNum (int 15) |}.

Definition tip_entry : time_entry :=
  {| entry_id := 1; entry_employee_id := 9; entry_date := "2026-02-10";
     hours := JNum (dec 85 1) |}.

Definition tip_db : db :=
  {| employees := [ tip_employee ];
     time_entries := [ tip_entry ];
     client_entries :=
       [ {| client_time_entry_id := 1; amount_earned := JNull;
            tip_amount := JNum (dec 7 1);
            tip_received_cash := JBool true |} ];
     product_sales := [];
     invoices := [] |}.

(** A store with two time entries, the first with one client entry
    (amount 0.1), the second with two (amounts 0.2 and 0.3). *)
Definition dimes_db : db :=
  {| employees := [ example_employee ];
     time_entries :=
       [ {| entry_id := 1; entry_employee_id := 7;
            entry_date := "2026-02-09"; hours := JNum (int 8) |};
         {| entry_id := 2; entry_employee_id := 7;
            entry_date := "2026-02-10"; hours := JNum (int 8) |} ];
     client_entries :=
       [ {| client_time_entry_id := 1; amount_earned := JNum (dec 1 1);
            tip_amount := JNull; tip_received_cash := JBool false |};
         {| client_time_entry_id := 2; amount_earned := JNum (dec 2 1);
            tip_amount := JNull; tip_received_cash := JBool false |};
         {| client_time_entry_id := 2; amount_earned := JNum (dec 3 1);
            tip_amount := JNull; tip_received_cash := JBool false |} ];
     product_sales := [];
     invoices := [] |}.

Definition empty_db : db :=
  {| employees := []; time_entries := []; client_entries := [];
     product_sales := []; invoices := [] |}.

End SummarySpec.

(** ** Invariants of the store *)

Module StoreSpec.
Import JSValue Store Routes SummarySpec.
Local Open Scope Z_scope.

(** At most one invoice per employee and period. *)
Definition unique_invoice_keys (d : db) : Prop :=
  forall employeeId periodStart periodEnd,
    at_most_one_invoice d employeeId periodStart periodEnd.

(** Every client entry and every product sale belongs to a time entry of
    the store (the foreign keys of the schema). *)
Definition no_orphans (d : db) : Prop :=
  (forall c, In c (client_entries d) ->
             exists e, In e (time_entries d) /\
                       entry_id e = client_time_entry_id c) /\
  (forall s, In s (product_sales d) ->
             exists e, In e (time_entries d) /\
                       entry_id e = sale_time_entry_id s).


(** The invoice row a request creates. *)
Definition created_invoice (id : Z) (r : invoice_request) (sent : bool)
  : invoice :=
  {| invoice_id := id;
     invoice_employee_id := req_employeeId r;
     pay_period_start := req_periodStart r;
     pay_period_end := req_periodEnd r;
     total_hours := req_totalHours r;
     total_wages := req_totalWages r;
     total_commissions := req_totalCommissions r;
     total_tips := req_totalTips r;
     total_product_commissions := req_totalProductCommissions r;
     cash_tips_received := req_totalCashTips r;
     total_payable := req_totalPayable r;
     email_sent := sent |}.

(** Is [id] the id of one of the entries? *)
Definition id_among (entries : list time_entry) (id : Z) : bool :=
  existsb (fun e => entry_id e =? id) entries.


(** A request for a period without invoice in the example store. *)
Definition other_request : invoice_request :=
  {| req_employeeId := 7;
     req_periodStart := "2026-02-16"; req_periodEnd := "2026-02-28";
     req_totalHours := JNum (int 8); req_totalWages := JNum (int 160);
     req_totalCommissions := JNum zero; req_totalTips := JNum zero;
     req_totalCashTips := JNum zero;
     req_totalProductCommissions := JNum zero;
     req_totalPayable := JNum (int 160) |}.

(** A store in which the invoice of the example is recorded twice. *)
Definition duplicated_db : db :=
  with_invoices example_db [example_invoice; example_invoice].

End StoreSpec.

(** ** Notions used to state the properties of the period calculator *)

Module Calendar.
Import JSDate.
Local Open Scope Z_scope.

(** The offset of a time zone is less than a day. *)
Definition tz_ok (tza : Z) : Prop := - msPerDay < tza < msPerDay.

(** Years the Date constructor takes as they are (0..99 are mapped to
    1900..1999) and whose days are well inside the range of time values. *)
Definition year_ok (y : Z) : Prop := 100 <= y <= 250000.

(** Time value of local midnight of day [d] of month [m] (0 = January). *)
Definition localMidnight (tza y m d : Z) : Z :=
  UTC tza (MakeDate (MakeDay y m d) (MakeTime 0 0 0 0)).

(** The two periods of month [m] of year [y]. *)
Definition periodOf (tza y m : Z) (first : bool) : Period :=
  if first
  then {| start := Some (localMidnight tza y m 1);
          end_ := Some (localMidnight tza y m 15) |}
  else {| start := Some (localMidnight tza y m 16);
          end_ := Some (localMidnight tza y m (DaysInMonth y m)) |}.

(** Periods numbered in calendar order: 24 a year, two a month. *)
Definition periodIndex (tza t : Z) : Z :=
  let lt := LocalTime tza t in
  24 * YearFromTime lt + 2 * MonthFromTime lt
  + (if DateFromTime lt <=? 15 then 0 else 1).

Definition periodOfIndex (tza k : Z) : Period :=
  periodOf tza (k / 24) (k mod 24 / 2) (k mod 2 =? 0).

Definition index_ok (k : Z) : Prop := 2400 <= k < 6000000.

(** A date-only string that names a day of the calendar. *)
Definition real_date (s : string) : Prop :=
  JSString.is_date_only s = true /\
  let '(y, m, d) := JSString.date_fields s in
  1 <= m <= 12 /\ 1 <= d <= DaysInMonth y (m - 1).

(** The date-only strings that the runtime reads as a Date: month 01 to
    12 and day 01 to 31, whatever the length of the month. *)
Definition accepted_date_only (s : string) : bool :=
  let '(_, m, d) := JSString.date_fields s in
  (1 <=? m) && (m <=? 12) && (1 <=? d) && (d <=? 31).

(** The string of eight digits written [YYYY-MM-DD]. *)
Definition date_string (y1 y2 y3 y4 m1 m2 d1 d2 : ascii) : string :=
  String y1 (String y2 (String y3 (String y4 (String "-"
  (String m1 (String m2 (String "-" (String d1 (String d2
   EmptyString))))))))).

(** [YYYY-MM-DD] for year [y], month [m] (0 = January) and day [d]. *)
Definition iso_date (y m d : Z) : string :=
  (JSString.padStart (JSString.toStr y) 4 "0" ++ "-"
   ++ JSString.padStart (JSString.toStr (m + 1)) 2 "0" ++ "-"
   ++ JSString.padStart (JSString.toStr d) 2 "0")%string.

(** The month before month [m] of year [y]. *)
Definition prev_month_year (y m : Z) : Z := if m =? 0 then y - 1 else y.
Definition prev_month (m : Z) : Z := if m =? 0 then 11 else m - 1.

(** A parser that rejects every string, and the offsets of Los Angeles
    (winter) and of Paris (winter), for the examples. *)
Definition no_parse : string -> Date := fun _ => None.
Definition tz_los_angeles : Z := -28800000.
Definition tz_paris : Z := 3600000.

End Calendar.

(** * Properties *)

Import JSDate JSString.
Local Open Scope Z_scope.

(** ** Facts about the day arithmetic *)

Lemma DaysInYear_cases y : DaysInYear y = 365 \/ DaysInYear y = 366.
Proof.
  unfold DaysInYear.
  repeat match goal with |- context [if ?b then _ else _] => destruct b end;
    auto.
Qed.

Lemma LeapOf_cases y :
  (LeapOf y = 0 /\ DaysInYear y = 365) \/ (LeapOf y = 1 /\ DaysInYear y = 366).
Proof.
  unfold LeapOf. destruct (DaysInYear_cases y) as [H | H]; rewrite H; auto.
Qed.

Lemma DayFromYear_succ y : DayFromYear (y + 1) = DayFromYear y + DaysInYear y.
Proof.
  unfold DayFromYear, DaysInYear.
  repeat match goal with
         | |- context [?a =? ?b] => destruct (Z.eqb_spec a b); cbn [negb]
         end;
    Z.div_mod_to_equations; lia.
Qed.

Lemma DayFromYear_lt y1 y2 : y1 < y2 -> DayFromYear y1 < DayFromYear y2.
Proof. unfold DayFromYear. intros H. Z.div_mod_to_equations. lia. Qed.

Lemma DayFromYear_le y1 y2 : y1 <= y2 -> DayFromYear y1 <= DayFromYear y2.
Proof.
  intros H. destruct (Z.eq_dec y1 y2) as [-> | Hne]; [lia |].
  apply Z.lt_le_incl, DayFromYear_lt. lia.
Qed.

Lemma YearFromDay_spec d :
  DayFromYear (YearFromDay d) <= d < DayFromYear (YearFromDay d + 1).
Proof.
  unfold YearFromDay.
  set (y0 := 1970 + 400 * d / 146097).
  destruct (Z.ltb_spec d (DayFromYear y0)) as [Hlt | Hge].
  - replace (y0 - 1 + 1) with y0 by lia. split; [| exact Hlt].
    clear Hlt. subst y0. unfold DayFromYear. Z.div_mod_to_equations. lia.
  - destruct (Z.leb_spec (DayFromYear (y0 + 1)) d) as [Hle | Hgt].
    + split; [exact Hle |].
      clear Hle Hge. subst y0. unfold DayFromYear.
      Z.div_mod_to_equations. lia.
    + split; assumption.
Qed.

Lemma YearFromDay_unique d y :
  DayFromYear y <= d < DayFromYear (y + 1) -> YearFromDay d = y.
Proof.
  intros [Hlo Hhi]. destruct (YearFromDay_spec d) as [Slo Shi].
  destruct (Z.lt_trichotomy (YearFromDay d) y) as [Hlt | [Heq | Hgt]].
  - assert (DayFromYear (YearFromDay d + 1) <= DayFromYear y)
      by (apply DayFromYear_le; lia). lia.
  - exact Heq.
  - assert (DayFromYear (y + 1) <= DayFromYear (YearFromDay d))
      by (apply DayFromYear_le; lia). lia.
Qed.

Lemma Day_MakeDate day time :
  0 <= time < msPerDay -> Day (MakeDate day time) = day.
Proof.
  intros H. unfold Day, MakeDate, msPerDay in *.
  Z.div_mod_to_equations. lia.
Qed.

Lemma TimeWithinDay_MakeDate day time :
  0 <= time < msPerDay -> TimeWithinDay (MakeDate day time) = time.
Proof.
  intros H. unfold TimeWithinDay, MakeDate, msPerDay in *.
  Z.div_mod_to_equations. lia.
Qed.

Lemma MakeDate_Day_TimeWithinDay t :
  MakeDate (Day t) (TimeWithinDay t) = t.
Proof.
  unfold MakeDate, Day, TimeWithinDay, msPerDay.
  Z.div_mod_to_equations. lia.
Qed.

Lemma TimeWithinDay_range t : 0 <= TimeWithinDay t < msPerDay.
Proof. unfold TimeWithinDay, msPerDay. apply Z.mod_pos_bound. lia. Qed.

Lemma MakeDay_month m y d :
  0 <= m <= 11 ->
  MakeDay y m d = DayFromYear y + MonthStart m (LeapOf y) + d - 1.
Proof.
  intros H. unfold MakeDay.
  replace (m / 12) with 0 by (Z.div_mod_to_equations; lia).
  replace (m mod 12) with m by (Z.div_mod_to_equations; lia).
  now rewrite Z.add_0_r.
Qed.

Ltac month_cases m H :=
  assert (m = 0 \/ m = 1 \/ m = 2 \/ m = 3 \/ m = 4 \/ m = 5 \/ m = 6 \/
          m = 7 \/ m = 8 \/ m = 9 \/ m = 10 \/ m = 11) as Hm_cases by lia;
  repeat (destruct Hm_cases as [-> | Hm_cases]); [ .. | subst m].

Ltac month_simpl := cbv beta iota delta [MonthStart DaysInMonth] in *.

Lemma MonthStart_next y m :
  0 <= m <= 10 ->
  MonthStart (m + 1) (LeapOf y) = MonthStart m (LeapOf y) + DaysInMonth y m.
Proof.
  intros H. month_cases m H; try lia;
    match goal with
    | |- context [MonthStart (?a + 1)] =>
        let v := eval cbv in (a + 1) in change (a + 1) with v
    end; month_simpl; lia.
Qed.

Lemma MonthStart_year_end y :
  MonthStart 11 (LeapOf y) + DaysInMonth y 11 = DaysInYear y.
Proof.
  month_simpl. destruct (LeapOf_cases y) as [[-> ->] | [-> ->]]; reflexivity.
Qed.

Lemma MonthStart_bound y m d :
  0 <= m <= 11 -> 1 <= d <= DaysInMonth y m ->
  0 <= MonthStart m (LeapOf y) + d - 1 < DaysInYear y.
Proof.
  intros Hm Hd.
  destruct (LeapOf_cases y) as [[Hl Hy] | [Hl Hy]]; rewrite Hy;
    month_cases m Hm; month_simpl; lia.
Qed.

(** Reading back the civil fields of a day built by [MakeDay]. *)
Lemma civil_of_MakeDay y m d time :
  0 <= m <= 11 -> 1 <= d <= DaysInMonth y m -> 0 <= time < msPerDay ->
  let t := MakeDate (MakeDay y m d) time in
  YearFromTime t = y /\ MonthFromTime t = m /\ DateFromTime t = d.
Proof.
  intros Hm Hd Ht t.
  assert (HD : Day t = DayFromYear y + MonthStart m (LeapOf y) + d - 1).
  { unfold t. rewrite Day_MakeDate by assumption. now apply MakeDay_month. }
  pose proof (MonthStart_bound y m d Hm Hd) as Hb.
  assert (HY : YearFromTime t = y).
  { unfold YearFromTime. apply YearFromDay_unique.
    rewrite DayFromYear_succ, HD. lia. }
  assert (HW : DayWithinYear t = MonthStart m (LeapOf y) + d - 1).
  { unfold DayWithinYear. rewrite HY, HD. lia. }
  assert (HM : MonthFromTime t = m).
  { unfold MonthFromTime, InLeapYear. rewrite HY, HW.
    destruct (LeapOf_cases y) as [[Hl _] | [Hl _]];
      month_cases m Hm; month_simpl; rewrite Hl;
      repeat match goal with
             | |- context [?a <? ?b] =>
                 destruct (Z.ltb_spec a b); try lia
             end; reflexivity. }
  split; [exact HY |]. split; [exact HM |].
  unfold DateFromTime, InLeapYear. rewrite HM, HY, HW. lia.
Qed.

(** Day 0 of the next month is the last day of this month. *)
Lemma MakeDay_last y m :
  0 <= m <= 11 -> MakeDay y (m + 1) 0 = MakeDay y m (DaysInMonth y m).
Proof.
  intros Hm. destruct (Z.eq_dec m 11) as [-> | Hne].
  - rewrite (MakeDay_month 11) by lia. unfold MakeDay.
    change (11 + 1) with 12.
    change (12 / 12) with 1. change (12 mod 12) with 0.
    rewrite DayFromYear_succ.
    pose proof (MonthStart_year_end y). month_simpl. lia.
  - rewrite !MakeDay_month by lia. rewrite MonthStart_next by lia. lia.
Qed.

(** The day after the last day of a month is the first of the next one. *)
Lemma MakeDay_overflow y m :
  0 <= m <= 11 ->
  MakeDay y m (DaysInMonth y m + 1) =
  MakeDay (if m =? 11 then y + 1 else y) (if m =? 11 then 0 else m + 1) 1.
Proof.
  intros Hm. destruct (Z.eqb_spec m 11) as [-> | Hne].
  - rewrite !MakeDay_month by lia. rewrite DayFromYear_succ.
    pose proof (MonthStart_year_end y). month_simpl. lia.
  - rewrite !MakeDay_month by lia. rewrite MonthStart_next by lia. lia.
Qed.

(** Day 0 of a month is the last day of the month before. *)
Lemma MakeDay_underflow y m :
  0 <= m <= 11 ->
  MakeDay y m 0 =
  MakeDay (if m =? 0 then y - 1 else y) (if m =? 0 then 11 else m - 1)
          (DaysInMonth (if m =? 0 then y - 1 else y)
                       (if m =? 0 then 11 else m - 1)).
Proof.
  intros Hm. destruct (Z.eqb_spec m 0) as [-> | Hne].
  - rewrite !MakeDay_month by lia.
    pose proof (DayFromYear_succ (y - 1)) as Hs.
    replace (y - 1 + 1) with y in Hs by lia.
    pose proof (MonthStart_year_end (y - 1)). month_simpl. lia.
  - rewrite !MakeDay_month by lia.
    pose proof (MonthStart_next y (m - 1)) as Hn.
    replace (m - 1 + 1) with m in Hn by lia. rewrite Hn by lia. lia.
Qed.

Lemma DaysInMonth_range y m : 28 <= DaysInMonth y m <= 31.
Proof.
  unfold DaysInMonth.
  destruct (LeapOf_cases y) as [[-> _] | [-> _]];
    repeat match goal with |- context [match ?x with _ => _ end] =>
                             destruct x end; lia.
Qed.

(** ** Facts about digits and padding *)

Lemma digit_char_value c : is_digit c = true -> digit_char (digit_value c) = c.
Proof.
  unfold is_digit, digit_char, digit_value. intros H.
  apply andb_prop in H as [H1 H2].
  apply Z.leb_le in H1. apply Z.leb_le in H2.
  replace (Z.of_N (N_of_ascii c) - 48 + 48) with (Z.of_N (N_of_ascii c))
    by lia.
  rewrite N2Z.id. apply ascii_N_embedding.
Qed.

Lemma digit_value_range c : is_digit c = true -> 0 <= digit_value c <= 9.
Proof.
  unfold is_digit, digit_value. intros H.
  apply andb_prop in H as [H1 H2].
  apply Z.leb_le in H1. apply Z.leb_le in H2. lia.
Qed.

Lemma digits_small n acc :
  forall fuel, 0 <= n < 10 ->
  digits fuel n acc = String (digit_char n) acc.
Proof.
  intros fuel H. replace (digit_char n) with (digit_char (n mod 10))
    by (f_equal; Z.div_mod_to_equations; lia).
  destruct fuel as [| fuel]; cbn [digits]; [reflexivity |].
  destruct (Z.ltb_spec n 10); [reflexivity | lia].
Qed.

Lemma digits_step fuel a b acc :
  0 < a -> 0 <= b <= 9 ->
  digits (S fuel) (10 * a + b) acc = digits fuel a (String (digit_char b) acc).
Proof.
  intros Ha Hb. cbn [digits].
  destruct (Z.ltb_spec (10 * a + b) 10); [lia |].
  replace ((10 * a + b) mod 10) with b by (Z.div_mod_to_equations; lia).
  replace ((10 * a + b) / 10) with a by (Z.div_mod_to_equations; lia).
  reflexivity.
Qed.

(** Two digits, zero padded, print back as themselves. *)
Lemma pad2_digits c1 c2 :
  is_digit c1 = true -> is_digit c2 = true ->
  padStart (toStr (10 * digit_value c1 + digit_value c2)) 2 "0" =
  String c1 (String c2 EmptyString).
Proof.
  intros H1 H2.
  pose proof (digit_value_range _ H1) as R1.
  pose proof (digit_value_range _ H2) as R2.
  pose proof (digit_char_value _ H1) as E1.
  pose proof (digit_char_value _ H2) as E2.
  unfold toStr.
  destruct (Z.ltb_spec (10 * digit_value c1 + digit_value c2) 0); [lia |].
  destruct (Z.eq_dec (digit_value c1) 0) as [Hz | Hnz].
  - rewrite Hz in *. cbn [Z.mul Z.add].
    rewrite digits_small by lia. rewrite E2.
    unfold padStart. cbn. rewrite <- E1. reflexivity.
  - assert (Hlog : 3 <= Z.log2 (10 * digit_value c1 + digit_value c2)).
    { apply Z.log2_le_pow2; lia. }
    destruct (Z.to_nat (Z.log2 (10 * digit_value c1 + digit_value c2)))
      as [| fuel] eqn:Hf; [lia |].
    rewrite digits_step by lia. rewrite digits_small by lia.
    rewrite E1, E2. reflexivity.
Qed.

(** Four digits with a non-zero leading one print back as themselves. *)
Lemma toStr_digits4 c1 c2 c3 c4 :
  is_digit c1 = true -> is_digit c2 = true ->
  is_digit c3 = true -> is_digit c4 = true ->
  1 <= digit_value c1 ->
  toStr (10 * (10 * (10 * digit_value c1 + digit_value c2)
               + digit_value c3) + digit_value c4) =
  String c1 (String c2 (String c3 (String c4 EmptyString))).
Proof.
  intros H1 H2 H3 H4 Hlead.
  pose proof (digit_value_range _ H1) as R1.
  pose proof (digit_value_range _ H2) as R2.
  pose proof (digit_value_range _ H3) as R3.
  pose proof (digit_value_range _ H4) as R4.
  unfold toStr.
  set (n := 10 * (10 * (10 * digit_value c1 + digit_value c2)
                  + digit_value c3) + digit_value c4).
  destruct (Z.ltb_spec n 0); [lia |].
  assert (Hlog : 9 <= Z.log2 n) by (apply Z.log2_le_pow2; lia).
  destruct (Z.to_nat (Z.log2 n)) as [| [| [| fuel]]] eqn:Hf; try lia.
  subst n.
  rewrite !digits_step by lia. rewrite digits_small by lia.
  now rewrite !digit_char_value by assumption.
Qed.

Lemma split_head_app sep (a b : string) :
  split_head sep a = a ->
  split_head sep (a ++ String sep b) = a.
Proof.
  induction a as [| c a IH]; cbn [split_head append]; intros H.
  - now rewrite Ascii.eqb_refl.
  - destruct (Ascii.eqb c sep); [discriminate |].
    injection H as H. now rewrite IH.
Qed.

(** ** Dates built by the constructor, and the period of a Date *)

Import Calendar.

Lemma LeapOf_range y : 0 <= LeapOf y <= 1.
Proof. destruct (LeapOf_cases y) as [[-> _] | [-> _]]; lia. Qed.

Lemma MonthStart_range m l : 0 <= l <= 1 -> 0 <= MonthStart m l <= 335.
Proof.
  intros H. unfold MonthStart.
  repeat match goal with
         | |- context [match ?x with _ => _ end] => destruct x
         end; lia.
Qed.

Lemma DayFromYear_bound y :
  -1 <= y <= 250001 -> -800000 <= DayFromYear y <= 91000000.
Proof. intros H. unfold DayFromYear. Z.div_mod_to_equations. lia. Qed.

Lemma MonthFromTime_range t : 0 <= MonthFromTime t <= 11.
Proof.
  unfold MonthFromTime.
  repeat match goal with
         | |- context [if ?b then _ else _] => destruct b
         end; lia.
Qed.

Lemma TimeClip_in_range tza y m d time :
  tz_ok tza -> -1 <= y <= 250001 -> 0 <= m <= 11 -> -40 <= d <= 70 ->
  0 <= time < msPerDay ->
  TimeClip (UTC tza (MakeDate (MakeDay y m d) time)) =
  Some (UTC tza (MakeDate (MakeDay y m d) time)).
Proof.
  intros Htz Hy Hm Hd Ht. unfold TimeClip.
  rewrite MakeDay_month by assumption.
  pose proof (DayFromYear_bound y Hy).
  pose proof (MonthStart_range m (LeapOf y) (LeapOf_range y)).
  unfold tz_ok, UTC, MakeDate, msPerDay, maxTime in *.
  destruct (Z.leb_spec
              (Z.abs ((DayFromYear y + MonthStart m (LeapOf y) + d - 1)
                      * 86400000 + time - tza)) 8640000000000000);
    [reflexivity | lia].
Qed.

Lemma newDate3_ok tza y m d :
  tz_ok tza -> year_ok y -> 0 <= m <= 11 -> -40 <= d <= 70 ->
  newDate3 tza y m d = Some (localMidnight tza y m d).
Proof.
  intros Htz Hy Hm Hd. unfold newDate3, localMidnight, year_ok in *.
  destruct (Z.leb_spec 0 y); destruct (Z.leb_spec y 99); cbn [andb]; try lia.
  apply TimeClip_in_range; try assumption; try lia.
  unfold MakeTime, msPerDay. lia.
Qed.

Lemma LocalTime_localMidnight tza y m d :
  LocalTime tza (localMidnight tza y m d) = MakeDate (MakeDay y m d) 0.
Proof. unfold LocalTime, localMidnight, UTC, MakeTime. cbn [Z.mul Z.add]. lia. Qed.

Lemma civil_localMidnight tza y m d :
  0 <= m <= 11 -> 1 <= d <= DaysInMonth y m ->
  let lt := LocalTime tza (localMidnight tza y m d) in
  YearFromTime lt = y /\ MonthFromTime lt = m /\ DateFromTime lt = d.
Proof.
  intros Hm Hd. cbv zeta. rewrite LocalTime_localMidnight.
  apply civil_of_MakeDay; try assumption. unfold msPerDay. lia.
Qed.

(** [new Date(year, month + 1, 0).getDate()] is the length of the month. *)
Lemma lastDay_is_DaysInMonth tza y m :
  tz_ok tza -> year_ok y -> 0 <= m <= 11 ->
  getDate tza (newDate3 tza y (m + 1) 0) = Some (DaysInMonth y m).
Proof.
  intros Htz Hy Hm. pose proof (DaysInMonth_range y m) as Hr.
  assert (E : newDate3 tza y (m + 1) 0 =
              Some (localMidnight tza y m (DaysInMonth y m))).
  { unfold newDate3, localMidnight, year_ok in *.
    destruct (Z.leb_spec 0 y); destruct (Z.leb_spec y 99); cbn [andb];
      try lia.
    rewrite MakeDay_last by assumption.
    apply TimeClip_in_range; try assumption; try lia.
    unfold MakeTime, msPerDay. lia. }
  rewrite E. cbn [getDate option_map]. f_equal.
  apply civil_localMidnight; [assumption | lia].
Qed.

(** The period of a valid Date, from its local civil fields. *)
Lemma getPayPeriod_of_time tza parse t :
  tz_ok tza -> year_ok (YearFromTime (LocalTime tza t)) ->
  PayPeriods.getPayPeriod tza parse (PayPeriods.ADate (Some t)) =
  Returns (periodOf tza (YearFromTime (LocalTime tza t))
                    (MonthFromTime (LocalTime tza t))
                    (DateFromTime (LocalTime tza t) <=? 15)).
Proof.
  intros Htz Hy.
  pose proof (MonthFromTime_range (LocalTime tza t)) as Hm.
  unfold PayPeriods.getPayPeriod, PayPeriods.toLocalDate, PayPeriods.newDate1.
  destruct (DateFromTime (LocalTime tza t) <=? 15); unfold periodOf.
  - rewrite !newDate3_ok by (assumption || lia). reflexivity.
  - rewrite lastDay_is_DaysInMonth by assumption.
    pose proof (DaysInMonth_range (YearFromTime (LocalTime tza t))
                                  (MonthFromTime (LocalTime tza t))).
    rewrite !newDate3_ok by (assumption || lia). reflexivity.
Qed.

Lemma periodOf_index tza y m (first : bool) :
  0 <= m <= 11 ->
  periodOfIndex tza (24 * y + 2 * m + (if first then 0 else 1)) =
  periodOf tza y m first.
Proof.
  intros Hm. unfold periodOfIndex.
  set (k := 24 * y + 2 * m + (if first then 0 else 1)).
  assert (k / 24 = y) as -> by (subst k; destruct first; Z.div_mod_to_equations; lia).
  assert (k mod 24 / 2 = m) as ->
      by (subst k; destruct first; Z.div_mod_to_equations; lia).
  assert ((k mod 2 =? 0) = first) as ->; [| reflexivity].
  subst k. destruct first.
  - apply Z.eqb_eq. Z.div_mod_to_equations. lia.
  - apply Z.eqb_neq. Z.div_mod_to_equations. lia.
Qed.

Lemma getPayPeriod_index tza parse t :
  tz_ok tza -> index_ok (periodIndex tza t) ->
  PayPeriods.getPayPeriod tza parse (PayPeriods.ADate (Some t)) =
  Returns (periodOfIndex tza (periodIndex tza t)).
Proof.
  intros Htz Hk.
  pose proof (MonthFromTime_range (LocalTime tza t)) as Hm.
  unfold periodIndex in *. cbv zeta in *.
  rewrite getPayPeriod_of_time; try assumption.
  - f_equal. symmetry.
    destruct (DateFromTime (LocalTime tza t) <=? 15) eqn:E;
      [apply (periodOf_index tza _ _ true) | apply (periodOf_index tza _ _ false)];
      assumption.
  - unfold year_ok, index_ok in *.
    destruct (DateFromTime (LocalTime tza t) <=? 15); lia.
Qed.

(** ** Date-only strings *)

Lemma is_date_only_inv s :
  is_date_only s = true ->
  exists y1 y2 y3 y4 m1 m2 d1 d2,
    s = date_string y1 y2 y3 y4 m1 m2 d1 d2 /\
    is_digit y1 = true /\ is_digit y2 = true /\
    is_digit y3 = true /\ is_digit y4 = true /\
    is_digit m1 = true /\ is_digit m2 = true /\
    is_digit d1 = true /\ is_digit d2 = true.
Proof.
  intros H.
  do 10 (destruct s as [| ? s]; [discriminate H |]).
  destruct s; [| discriminate H].
  cbn [is_date_only] in H.
  repeat match type of H with
         | (_ && _)%bool = true =>
             let H' := fresh "D" in apply andb_prop in H as [H H']
         end.
  apply Ascii.eqb_eq in D4. apply Ascii.eqb_eq in D1. subst.
  do 8 eexists. split; [reflexivity |]. repeat split; assumption.
Qed.

Lemma date_fields_date_string y1 y2 y3 y4 m1 m2 d1 d2 :
  date_fields (date_string y1 y2 y3 y4 m1 m2 d1 d2) =
  (10 * (10 * (10 * digit_value y1 + digit_value y2) + digit_value y3)
   + digit_value y4,
   10 * digit_value m1 + digit_value m2,
   10 * digit_value d1 + digit_value d2).
Proof.
  unfold date_fields, date_string. cbn [substring number_of].
  repeat f_equal; lia.
Qed.

(** A date-only string of a real day is read as local midnight of that day. *)
Lemma toLocalDate_real_date tza parse s :
  tz_ok tza -> real_date s ->
  let '(y, m, d) := date_fields s in
  0 <= y <= 9999 /\
  PayPeriods.toLocalDate tza parse (PayPeriods.AString s) =
  Some (localMidnight tza y (m - 1) d).
Proof.
  intros Htz [Hs Hreal].
  destruct (is_date_only_inv s Hs)
    as (y1 & y2 & y3 & y4 & m1 & m2 & d1 & d2 & -> & Y1 & Y2 & Y3 & Y4 & _).
  unfold PayPeriods.toLocalDate, PayPeriods.newDate_local_midnight.
  rewrite Hs. rewrite date_fields_date_string in *.
  pose proof (digit_value_range _ Y1). pose proof (digit_value_range _ Y2).
  pose proof (digit_value_range _ Y3). pose proof (digit_value_range _ Y4).
  set (y := 10 * (10 * (10 * digit_value y1 + digit_value y2)
                  + digit_value y3) + digit_value y4) in *.
  set (m := 10 * digit_value m1 + digit_value m2) in *.
  set (d := 10 * digit_value d1 + digit_value d2) in *.
  destruct Hreal as [Hm Hd].
  pose proof (DaysInMonth_range y (m - 1)).
  split; [subst y; lia |].
  destruct (Z.leb_spec 1 m); [| lia]. destruct (Z.leb_spec m 12); [| lia].
  destruct (Z.leb_spec 1 d); [| lia]. destruct (Z.leb_spec d 31); [| lia].
  cbn [andb]. unfold localMidnight.
  apply TimeClip_in_range; try assumption; try lia.
  unfold MakeTime, msPerDay. lia.
Qed.

Lemma formatDateForDB_localMidnight tza parse y m d :
  0 <= m <= 11 -> 1 <= d <= DaysInMonth y m ->
  PayPeriods.formatDateForDB tza parse
    (PayPeriods.ADate (Some (localMidnight tza y m d))) =
  Returns (toStr y ++ "-" ++ padStart (toStr (m + 1)) 2 "0"
                 ++ "-" ++ padStart (toStr d) 2 "0")%string.
Proof.
  intros Hm Hd.
  unfold PayPeriods.formatDateForDB, PayPeriods.toLocalDate,
    PayPeriods.newDate1.
  destruct (civil_localMidnight tza y m d Hm Hd) as (-> & -> & ->).
  reflexivity.
Qed.

(** From the third millennium of the calendar on, a real date-only
    string is printed back as itself, whatever the offset of local time. *)
Lemma formatDateForDB_roundtrip tza parse s :
  tz_ok tza -> real_date s ->
  1000 <= fst (fst (date_fields s)) ->
  PayPeriods.formatDateForDB tza parse (PayPeriods.AString s) = Returns s.
Proof.
  intros Htz Hreal Hy.
  pose proof (toLocalDate_real_date tza parse s Htz Hreal) as HL.
  destruct Hreal as [Hs Hreal].
  destruct (is_date_only_inv s Hs)
    as (y1 & y2 & y3 & y4 & m1 & m2 & d1 & d2 & -> &
        Y1 & Y2 & Y3 & Y4 & M1 & M2 & D1 & D2).
  rewrite date_fields_date_string in *. cbn [fst] in Hy.
  destruct HL as [_ HL]. destruct Hreal as [Hm Hd].
  pose proof (digit_value_range _ Y1). pose proof (digit_value_range _ Y2).
  pose proof (digit_value_range _ Y3). pose proof (digit_value_range _ Y4).
  unfold PayPeriods.formatDateForDB. rewrite HL.
  match goal with
  | |- context [LocalTime tza (localMidnight tza ?y ?m ?d)] =>
      destruct (civil_localMidnight tza y m d) as (-> & -> & ->);
        [lia | assumption |]
  end.
  rewrite toStr_digits4 by (assumption || lia).
  replace (10 * digit_value m1 + digit_value m2 - 1 + 1)
    with (10 * digit_value m1 + digit_value m2) by lia.
  rewrite !pad2_digits by assumption.
  reflexivity.
Qed.

(** ** Walking from period to period *)

Lemma periodIndex_localMidnight tza y m d :
  0 <= m <= 11 -> 1 <= d <= DaysInMonth y m ->
  periodIndex tza (localMidnight tza y m d) =
  24 * y + 2 * m + (if d <=? 15 then 0 else 1).
Proof.
  intros Hm Hd. unfold periodIndex. cbv zeta.
  destruct (civil_localMidnight tza y m d Hm Hd) as (-> & -> & ->).
  reflexivity.
Qed.

Lemma shiftDate_localMidnight tza y m d delta :
  tz_ok tza -> -1 <= y <= 250001 -> 0 <= m <= 11 ->
  1 <= d <= DaysInMonth y m -> -2 <= delta <= 2 ->
  PayPeriods.shiftDate tza (Some (localMidnight tza y m d)) delta =
  Some (localMidnight tza y m (d + delta)).
Proof.
  intros Htz Hy Hm Hd Hdelta. pose proof (DaysInMonth_range y m).
  unfold PayPeriods.shiftDate, getDate, setDate. cbn [option_map].
  destruct (civil_localMidnight tza y m d Hm Hd) as (-> & -> & ->).
  rewrite LocalTime_localMidnight.
  rewrite TimeWithinDay_MakeDate by (unfold msPerDay; lia).
  unfold localMidnight, MakeTime. cbn [Z.mul Z.add].
  apply TimeClip_in_range; try assumption; try lia.
  unfold msPerDay. lia.
Qed.

Lemma index_split k :
  let y := k / 24 in let m := k mod 24 / 2 in
  0 <= m <= 11 /\
  k = 24 * y + 2 * m + (if k mod 2 =? 0 then 0 else 1).
Proof.
  cbv zeta. destruct (Z.eqb_spec (k mod 2) 0); Z.div_mod_to_equations; lia.
Qed.

(** The day after the end of period [k] lies in period [k + 1]. *)
Lemma step_forward tza k :
  tz_ok tza -> index_ok k -> index_ok (k + 1) ->
  exists t',
    PayPeriods.shiftDate tza (end_ (periodOfIndex tza k)) 1 = Some t' /\
    periodIndex tza t' = k + 1.
Proof.
  intros Htz Hk Hk1. destruct (index_split k) as [Hm Hsplit].
  unfold periodOfIndex. set (y := k / 24) in *. set (m := k mod 24 / 2) in *.
  pose proof (DaysInMonth_range y m) as Hr.
  assert (Hy : 100 <= y <= 250000)
    by (unfold index_ok in *; subst y; Z.div_mod_to_equations; lia).
  revert Hsplit. destruct (k mod 2 =? 0); intros Hsplit;
    unfold periodOf; cbn [end_].
  - exists (localMidnight tza y m 16). split.
    + rewrite shiftDate_localMidnight by (assumption || lia). reflexivity.
    + rewrite periodIndex_localMidnight by (assumption || lia).
      change (if 16 <=? 15 then 0 else 1) with 1. lia.
  - exists (localMidnight tza y m (DaysInMonth y m + 1)). split.
    + rewrite shiftDate_localMidnight by (assumption || lia). reflexivity.
    + unfold localMidnight. rewrite MakeDay_overflow by assumption.
      fold (localMidnight tza (if m =? 11 then y + 1 else y)
                          (if m =? 11 then 0 else m + 1) 1).
      pose proof (DaysInMonth_range (if m =? 11 then y + 1 else y)
                                    (if m =? 11 then 0 else m + 1)).
      rewrite periodIndex_localMidnight
        by (destruct (Z.eqb_spec m 11); lia).
      change (if 1 <=? 15 then 0 else 1) with 0.
      destruct (Z.eqb_spec m 11); lia.
Qed.

(** The day before the start of period [k] lies in period [k - 1]. *)
Lemma step_backward tza k :
  tz_ok tza -> index_ok k -> index_ok (k - 1) ->
  exists t',
    PayPeriods.shiftDate tza (start (periodOfIndex tza k)) (-1) = Some t' /\
    periodIndex tza t' = k - 1.
Proof.
  intros Htz Hk Hk1. destruct (index_split k) as [Hm Hsplit].
  unfold periodOfIndex. set (y := k / 24) in *. set (m := k mod 24 / 2) in *.
  pose proof (DaysInMonth_range y m) as Hr.
  assert (Hy : 100 <= y <= 250000)
    by (unfold index_ok in *; subst y; Z.div_mod_to_equations; lia).
  revert Hsplit. destruct (k mod 2 =? 0); intros Hsplit;
    unfold periodOf; cbn [start].
  - exists (localMidnight tza y m (1 + -1)). split.
    + rewrite shiftDate_localMidnight by (assumption || lia). reflexivity.
    + change (1 + -1) with 0.
      unfold localMidnight. rewrite MakeDay_underflow by assumption.
      set (y' := if m =? 0 then y - 1 else y).
      set (m' := if m =? 0 then 11 else m - 1).
      fold (localMidnight tza y' m' (DaysInMonth y' m')).
      pose proof (DaysInMonth_range y' m').
      rewrite periodIndex_localMidnight
        by (subst y' m'; destruct (Z.eqb_spec m 0); lia).
      destruct (Z.leb_spec (DaysInMonth y' m') 15); [lia |].
      subst y' m'. destruct (Z.eqb_spec m 0); lia.
  - exists (localMidnight tza y m (16 + -1)). split.
    + rewrite shiftDate_localMidnight by (assumption || lia). reflexivity.
    + rewrite periodIndex_localMidnight by (assumption || lia).
      change (if 16 + -1 <=? 15 then 0 else 1) with 0. lia.
Qed.

(** [n] turns of the loop move the target date by [n] periods, backward
    for a negative offset and forward otherwise. *)
Lemma offset_loop_index tza parse offset :
  tz_ok tza ->
  forall (n : nat) t,
    index_ok (periodIndex tza t) ->
    index_ok (periodIndex tza t
              + (if offset <? 0 then -1 else 1) * Z.of_nat n) ->
    exists t',
      PayPeriods.offset_loop tza parse offset n (Some t) = Returns (Some t') /\
      periodIndex tza t' =
      periodIndex tza t + (if offset <? 0 then -1 else 1) * Z.of_nat n.
Proof.
  intros Htz n. induction n as [| n IH]; intros t Hk Hkn.
  - exists t. split; [reflexivity | lia].
  - cbn [PayPeriods.offset_loop].
    rewrite getPayPeriod_index by assumption. cbn [bind].
    destruct (offset <? 0).
    + destruct (step_backward tza (periodIndex tza t)) as (t1 & E1 & I1);
        try assumption; [unfold index_ok in *; lia |].
      rewrite E1.
      destruct (IH t1) as (t' & E' & I');
        [rewrite I1; unfold index_ok in *; lia ..|].
      exists t'. split; [exact E' | lia].
    + destruct (step_forward tza (periodIndex tza t)) as (t1 & E1 & I1);
        try assumption; [unfold index_ok in *; lia |].
      rewrite E1.
      destruct (IH t1) as (t' & E' & I');
        [rewrite I1; unfold index_ok in *; lia ..|].
      exists t'. split; [exact E' | lia].
Qed.

(** The period [offset] periods away from the one of the clock. *)
Lemma getPayPeriodByOffset_index tza parse now offset :
  tz_ok tza ->
  index_ok (periodIndex tza now) ->
  index_ok (periodIndex tza now + offset) ->
  PayPeriods.getPayPeriodByOffset tza parse (Some now) offset =
  Returns (periodOfIndex tza (periodIndex tza now + offset)).
Proof.
  intros Htz Hk Hko. unfold PayPeriods.getPayPeriodByOffset.
  assert (E : (if offset <? 0 then -1 else 1) * Z.of_nat (Z.to_nat (Z.abs offset))
              = offset).
  { rewrite Z2Nat.id by lia. destruct (Z.ltb_spec offset 0); lia. }
  destruct (offset_loop_index tza parse offset Htz
              (Z.to_nat (Z.abs offset)) now Hk) as (t' & E' & I').
  - now rewrite E.
  - rewrite E'. cbn [bind]. rewrite E in I'.
    rewrite getPayPeriod_index by (assumption || now rewrite I').
    now rewrite I'.
Qed.

(** ** Dates inside a period *)

Lemma localMidnight_le tza y m a b :
  0 <= m <= 11 -> a <= b -> localMidnight tza y m a <= localMidnight tza y m b.
Proof.
  intros Hm Hab. unfold localMidnight, UTC, MakeDate, msPerDay.
  rewrite !MakeDay_month by assumption. lia.
Qed.

(** A time between the midnights of two days of one month is a time of a
    day of that month between them. *)
Lemma civil_between tza y m d1 d2 t :
  0 <= m <= 11 -> 1 <= d1 -> d2 <= DaysInMonth y m ->
  localMidnight tza y m d1 <= t <= localMidnight tza y m d2 ->
  let lt := LocalTime tza t in
  YearFromTime lt = y /\ MonthFromTime lt = m /\ d1 <= DateFromTime lt <= d2.
Proof.
  intros Hm H1 H2 Ht. cbv zeta.
  unfold localMidnight, UTC, MakeTime in Ht. cbn [Z.mul Z.add] in Ht.
  set (lt := LocalTime tza t).
  assert (Hlt : MakeDate (MakeDay y m d1) 0 <= lt <= MakeDate (MakeDay y m d2) 0)
    by (subst lt; unfold LocalTime; lia).
  pose proof (MakeDate_Day_TimeWithinDay lt) as Hsplit.
  pose proof (TimeWithinDay_range lt) as Htw.
  set (d := Day lt - MakeDay y m 1 + 1).
  assert (HD : Day lt = MakeDay y m d).
  { subst d. rewrite !MakeDay_month by assumption. lia. }
  assert (Hd : d1 <= d <= d2).
  { subst d. rewrite !MakeDay_month in * by assumption.
    unfold MakeDate, msPerDay in *. lia. }
  rewrite HD in Hsplit.
  destruct (civil_of_MakeDay y m d (TimeWithinDay lt)) as (EY & EM & ED);
    try assumption; try lia.
  cbv zeta in EY, EM, ED. rewrite Hsplit in EY, EM, ED.
  rewrite EY, EM, ED. auto.
Qed.

(** A time from the start to the end of period [k] has index [k]. *)
Lemma periodIndex_inside tza k s e t :
  start (periodOfIndex tza k) = Some s ->
  end_ (periodOfIndex tza k) = Some e ->
  s <= t <= e ->
  periodIndex tza t = k.
Proof.
  intros Hs He Ht. destruct (index_split k) as [Hm Hsplit].
  unfold periodOfIndex in *.
  set (y := k / 24) in *. set (m := k mod 24 / 2) in *.
  pose proof (DaysInMonth_range y m) as Hr.
  revert Hsplit Hs He. generalize (k mod 2 =? 0). clearbody y m.
  intros half. destruct half; unfold periodOf;
    cbn [start end_]; intros Hsplit Hs He;
    injection Hs as <-; injection He as <-.
  - destruct (civil_between tza y m 1 15 t) as (EY & EM & ED);
      try assumption; try lia.
    unfold periodIndex. cbv zeta. rewrite EY, EM.
    assert (E15 : (DateFromTime (LocalTime tza t) <=? 15) = true)
      by (apply Z.leb_le; apply ED).
    rewrite E15. clear - Hsplit. lia.
  - destruct (civil_between tza y m 16 (DaysInMonth y m) t) as (EY & EM & ED);
      try assumption; try lia.
    unfold periodIndex. cbv zeta. rewrite EY, EM.
    assert (E15 : (DateFromTime (LocalTime tza t) <=? 15) = false)
      by (apply Z.leb_gt; clear - ED; lia).
    rewrite E15. clear - Hsplit. lia.
Qed.

(** ** The copies of the helpers in server.js *)

Lemma Server_getPayPeriod_agrees tza parse t :
  PayPeriods.getPayPeriod tza parse (PayPeriods.ADate (Some t)) =
  Returns (Server.getPayPeriod tza (Some t)).
Proof.
  unfold PayPeriods.getPayPeriod, Server.getPayPeriod,
    PayPeriods.toLocalDate, PayPeriods.newDate1.
  cbn [getFullYear getMonth option_map Server.le15].
  unfold getDate. cbn [option_map Server.le15 Server.newDate3n].
  destruct (DateFromTime (LocalTime tza t) <=? 15); reflexivity.
Qed.

Lemma Server_offset_loop_agrees tza parse offset :
  forall (n : nat) (d d' : Date),
    PayPeriods.offset_loop tza parse offset n d = Returns d' ->
    Server.offset_loop tza offset n d = d'.
Proof.
  induction n as [| n IH]; intros d d' H.
  - cbn in H. now injection H.
  - cbn [PayPeriods.offset_loop Server.offset_loop] in *.
    destruct d as [t |].
    + rewrite Server_getPayPeriod_agrees in H. cbn [bind] in H.
      destruct (offset <? 0); apply IH; exact H.
    + destruct (offset <? 0); discriminate H.
Qed.

Lemma Server_getPayPeriodByOffset_agrees tza parse today offset p :
  PayPeriods.getPayPeriodByOffset tza parse today offset = Returns p ->
  Server.getPayPeriodByOffset tza today offset = p.
Proof.
  unfold PayPeriods.getPayPeriodByOffset, Server.getPayPeriodByOffset.
  destruct (PayPeriods.offset_loop tza parse offset
              (Z.to_nat (Z.abs offset)) today) as [d' |] eqn:E;
    cbn [bind]; [| discriminate].
  rewrite (Server_offset_loop_agrees _ _ _ _ _ _ E).
  destruct d' as [t |]; [| discriminate].
  rewrite Server_getPayPeriod_agrees. intros H. now injection H.
Qed.

(** ** The loop is the repeated step of the design document *)

Lemma bind_assoc {A B C : Type} (c : outcome A) (f : A -> outcome B)
      (g : B -> outcome C) :
  bind (bind c f) g = bind c (fun a => bind (f a) g).
Proof. destruct c; reflexivity. Qed.

Lemma offset_loop_repeat_back tza parse offset :
  offset < 0 ->
  forall (n : nat) (d : Date),
    (targetDate <- PayPeriods.offset_loop tza parse offset n d ;;
     PayPeriods.getPayPeriod tza parse (PayPeriods.ADate targetDate)) =
    (p0 <- PayPeriods.getPayPeriod tza parse (PayPeriods.ADate d) ;;
     Navigation.repeat_step (Navigation.stepBack tza parse) n p0).
Proof.
  intros Hneg. apply Z.ltb_lt in Hneg.
  induction n as [| n IH]; intros d.
  - cbn [PayPeriods.offset_loop Navigation.repeat_step bind].
    destruct (PayPeriods.getPayPeriod tza parse (PayPeriods.ADate d));
      reflexivity.
  - cbn [PayPeriods.offset_loop Navigation.repeat_step]. rewrite Hneg.
    rewrite bind_assoc.
    destruct (PayPeriods.getPayPeriod tza parse (PayPeriods.ADate d))
      as [p |]; cbn [bind]; [| reflexivity].
    rewrite IH. reflexivity.
Qed.

Lemma offset_loop_repeat_forward tza parse offset :
  0 <= offset ->
  forall (n : nat) (d : Date),
    (targetDate <- PayPeriods.offset_loop tza parse offset n d ;;
     PayPeriods.getPayPeriod tza parse (PayPeriods.ADate targetDate)) =
    (p0 <- PayPeriods.getPayPeriod tza parse (PayPeriods.ADate d) ;;
     Navigation.repeat_step (Navigation.stepForward tza parse) n p0).
Proof.
  intros Hpos. apply Z.ltb_ge in Hpos.
  induction n as [| n IH]; intros d.
  - cbn [PayPeriods.offset_loop Navigation.repeat_step bind].
    destruct (PayPeriods.getPayPeriod tza parse (PayPeriods.ADate d));
      reflexivity.
  - cbn [PayPeriods.offset_loop Navigation.repeat_step]. rewrite Hpos.
    rewrite bind_assoc.
    destruct (PayPeriods.getPayPeriod tza parse (PayPeriods.ADate d))
      as [p |]; cbn [bind]; [| reflexivity].
    rewrite IH. reflexivity.
Qed.

Lemma getPayPeriodByOffset_refines tza parse today offset :
  PayPeriods.getPayPeriodByOffset tza parse today offset =
  Navigation.periodByOffset tza parse offset today.
Proof.
  unfold PayPeriods.getPayPeriodByOffset, Navigation.periodByOffset.
  destruct (Z.ltb_spec offset 0) as [Hneg | Hpos].
  - rewrite offset_loop_repeat_back by assumption.
    replace (Z.abs offset) with (- offset) by lia. reflexivity.
  - rewrite offset_loop_repeat_forward by assumption.
    replace (Z.abs offset) with offset by lia. reflexivity.
Qed.

(** ** Properties of the period calculator *)

Import PayPeriods.

Lemma getPayPeriod_toLocalDate tza parse date t :
  toLocalDate tza parse date = Some t ->
  getPayPeriod tza parse date = getPayPeriod tza parse (ADate (Some t)).
Proof.
  intros H. unfold getPayPeriod. rewrite H.
  cbn [toLocalDate newDate1]. reflexivity.
Qed.

Lemma real_date_fields s :
  real_date s ->
  1 <= snd (fst (date_fields s)) <= 12 /\
  1 <= snd (date_fields s)
    <= DaysInMonth (fst (fst (date_fields s))) (snd (fst (date_fields s)) - 1).
Proof.
  intros [_ H]. destruct (date_fields s) as [[y m] d]. exact H.
Qed.

Lemma toLocalDate_real tza parse s :
  tz_ok tza -> real_date s ->
  0 <= fst (fst (date_fields s)) <= 9999 /\
  toLocalDate tza parse (AString s) =
  Some (localMidnight tza (fst (fst (date_fields s)))
                      (snd (fst (date_fields s)) - 1)
                      (snd (date_fields s))).
Proof.
  intros Htz Hreal.
  pose proof (toLocalDate_real_date tza parse s Htz Hreal) as H.
  destruct (date_fields s) as [[y m] d]. exact H.
Qed.

(** The period of a real date-only string from year 100 on. *)
Lemma getPayPeriod_real_date tza parse s :
  tz_ok tza -> real_date s -> 100 <= fst (fst (date_fields s)) ->
  getPayPeriod tza parse (AString s) =
  Returns (periodOf tza (fst (fst (date_fields s)))
                    (snd (fst (date_fields s)) - 1)
                    (snd (date_fields s) <=? 15)).
Proof.
  intros Htz Hreal Hy.
  destruct (toLocalDate_real tza parse s Htz Hreal) as [Hr HL].
  destruct (real_date_fields s Hreal) as [Hm Hd].
  rewrite (getPayPeriod_toLocalDate _ _ _ _ HL).
  set (y := fst (fst (date_fields s))) in *.
  set (m := snd (fst (date_fields s)) - 1) in *.
  set (d := snd (date_fields s)) in *.
  assert (Hm' : 0 <= m <= 11) by (subst m; lia).
  destruct (civil_localMidnight tza y m d Hm' Hd) as (EY & EM & ED).
  rewrite getPayPeriod_of_time.
  - cbv zeta in EY, EM, ED. rewrite EY, EM, ED. reflexivity.
  - assumption.
  - cbv zeta in EY. rewrite EY. unfold year_ok. lia.
Qed.

(** From year 100 on the calculator is right: for every offset of local
    time and every date-only string [YYYY-MM-DD] of a real calendar day
    with year 100 or later, [getPayPeriod] returns the period from the 1st to the 15th of that
    month when the day is at most 15, and otherwise the period from the
    16th to the last day of the month, whose number is the length of the
    month (28 to 31; February has 29 days exactly in leap years).  The
    date lies between the start and the end of the period.  In particular
    the period of 2024-02-29 runs from 2024-02-16 to 2024-02-29 and the
    period of 2023-02-28 from 2023-02-16 to 2023-02-28. *)
Theorem getPayPeriod_semimonthly tza parse :
  tz_ok tza ->
  (forall s, real_date s -> 100 <= fst (fst (date_fields s)) ->
     let y := fst (fst (date_fields s)) in
     let m := snd (fst (date_fields s)) - 1 in
     let d := snd (date_fields s) in
     let last := DaysInMonth y m in
     28 <= last <= 31 /\
     (m = 1 ->
      last = if (y mod 4 =? 0) && (negb (y mod 100 =? 0) || (y mod 400 =? 0))
             then 29 else 28) /\
     toLocalDate tza parse (AString s) = Some (localMidnight tza y m d) /\
     getPayPeriod tza parse (AString s) =
       Returns (if d <=? 15
                then {| start := Some (localMidnight tza y m 1);
                        end_ := Some (localMidnight tza y m 15) |}
                else {| start := Some (localMidnight tza y m 16);
                        end_ := Some (localMidnight tza y m last) |}) /\
     (if d <=? 15
      then localMidnight tza y m 1 <= localMidnight tza y m d
           <= localMidnight tza y m 15
      else localMidnight tza y m 16 <= localMidnight tza y m d
           <= localMidnight tza y m last)) /\
  (exists p,
     getPayPeriod tza parse (AString "2024-02-29") = Returns p /\
     formatDateForDB tza parse (ADate (start p)) = Returns "2024-02-16"%string /\
     formatDateForDB tza parse (ADate (end_ p)) = Returns "2024-02-29"%string) /\
  (exists p,
     getPayPeriod tza parse (AString "2023-02-28") = Returns p /\
     formatDateForDB tza parse (ADate (start p)) = Returns "2023-02-16"%string /\
     formatDateForDB tza parse (ADate (end_ p)) = Returns "2023-02-28"%string).
Proof.
  intros Htz. split; [| split].
  - intros s Hreal Hy y m d last.
    destruct (toLocalDate_real tza parse s Htz Hreal) as [Hr HL].
    destruct (real_date_fields s Hreal) as [Hm Hd].
    fold y m d in HL, Hm, Hd, Hr. fold last in Hd.
    assert (Hm' : 0 <= m <= 11) by (subst m; lia).
    pose proof (DaysInMonth_range y m) as Hlast. fold last in Hlast.
    split; [exact Hlast |]. split.
    { intros ->. subst last. unfold DaysInMonth, LeapOf, DaysInYear.
      destruct (y mod 4 =? 0), (y mod 100 =? 0), (y mod 400 =? 0);
        reflexivity. }
    split; [exact HL |]. split.
    { rewrite getPayPeriod_real_date by assumption.
      fold y m d. unfold periodOf. destruct (d <=? 15); reflexivity. }
    destruct (Z.leb_spec d 15); split;
      apply localMidnight_le; assumption || lia.
  - assert (R : real_date "2024-02-29").
    { split; [reflexivity |]. vm_compute. repeat split; discriminate. }
    exists (periodOf tza 2024 1 false). split.
    + now rewrite getPayPeriod_real_date
        by (assumption || (vm_compute; discriminate)).
    + unfold periodOf. cbn [start end_].
      rewrite !formatDateForDB_localMidnight
        by (vm_compute; split; discriminate).
      split; reflexivity.
  - assert (R : real_date "2023-02-28").
    { split; [reflexivity |]. vm_compute. repeat split; discriminate. }
    exists (periodOf tza 2023 1 false). split.
    + now rewrite getPayPeriod_real_date
        by (assumption || (vm_compute; discriminate)).
    + unfold periodOf. cbn [start end_].
      rewrite !formatDateForDB_localMidnight
        by (vm_compute; split; discriminate).
      split; reflexivity.
Qed.

Lemma getPayPeriod_semimonthly_witness :
  tz_ok tz_los_angeles /\ real_date "2026-04-30" /\
  100 <= fst (fst (date_fields "2026-04-30")) /\
  getPayPeriod tz_los_angeles no_parse (AString "2026-04-30") =
  Returns {| start := Some (localMidnight tz_los_angeles 2026 3 16);
             end_ := Some (localMidnight tz_los_angeles 2026 3 30) |}.
Proof.
  assert (Htz : tz_ok tz_los_angeles) by (vm_compute; split; reflexivity).
  assert (R : real_date "2026-04-30").
  { split; [reflexivity |]. vm_compute. repeat split; discriminate. }
  assert (Hy : 100 <= fst (fst (date_fields "2026-04-30")))
    by (vm_compute; discriminate).
  split; [exact Htz |]. split; [exact R |]. split; [exact Hy |].
  destruct (getPayPeriod_semimonthly tz_los_angeles no_parse Htz) as [G _].
  destruct (G "2026-04-30"%string R Hy) as (_ & _ & _ & E & _).
  exact E.
Defined.

(** C2: the period that [getPayPeriod] returns for the real calendar date
    0050-03-10 does not contain the date.  The string is read as 10 March
    of year 50, but [new Date(year, month, 1)] takes the years 0 to 99 as
    1900 to 1999: the period returned runs from 1950-03-01 to 1950-03-15,
    and its start is after the date. *)
Lemma getPayPeriod_year_50 :
  real_date "0050-03-10" /\
  toLocalDate 0 no_parse (AString "0050-03-10") = Some (-60583420800000) /\
  getPayPeriod 0 no_parse (AString "0050-03-10") =
    Returns {| start := Some (-626054400000);
               end_ := Some (-624844800000) |} /\
  formatDateForDB 0 no_parse (ADate (Some (-626054400000))) =
    Returns "1950-03-01"%string /\
  ~ (-626054400000 <= -60583420800000).
Proof.
  split.
  { split; [reflexivity |]. vm_compute. repeat split; discriminate. }
  split; [vm_compute; reflexivity |].
  split; [vm_compute; reflexivity |].
  split; [vm_compute; reflexivity |].
  intros H. vm_compute in H. apply H. reflexivity.
Qed.

(** From year 1000 on the round trip holds: for every offset of local
    time and every date-only string [YYYY-MM-DD] of a real calendar day
    with year 1000 or later, [formatDateForDB] gives the string back
    unchanged: ten characters, zero
    padded, no time of day, the same calendar day. *)
Theorem formatDateForDB_date_only_round_trip tza parse s :
  tz_ok tza -> real_date s -> 1000 <= fst (fst (date_fields s)) ->
  formatDateForDB tza parse (AString s) = Returns s /\
  String.length s = 10%nat.
Proof.
  intros Htz Hreal Hy. split.
  - now apply formatDateForDB_roundtrip.
  - destruct Hreal as [Hs _].
    destruct (is_date_only_inv s Hs)
      as (y1 & y2 & y3 & y4 & m1 & m2 & d1 & d2 & -> & _).
    reflexivity.
Qed.

Lemma formatDateForDB_date_only_round_trip_witness :
  tz_ok tz_paris /\ real_date "2026-02-15" /\
  1000 <= fst (fst (date_fields "2026-02-15")) /\
  formatDateForDB tz_paris no_parse (AString "2026-02-15") =
  Returns "2026-02-15"%string.
Proof.
  assert (Htz : tz_ok tz_paris) by (vm_compute; split; reflexivity).
  assert (R : real_date "2026-02-15").
  { split; [reflexivity |]. vm_compute. repeat split; discriminate. }
  assert (Hy : 1000 <= fst (fst (date_fields "2026-02-15")))
    by (vm_compute; discriminate).
  split; [exact Htz |]. split; [exact R |]. split; [exact Hy |].
  exact (proj1 (formatDateForDB_date_only_round_trip
                  tz_paris no_parse "2026-02-15"%string Htz R Hy)).
Defined.

(** C3: parsing the real calendar date 0999-12-31 and formatting it with
    [formatDateForDB] of lib/pay-periods.js gives 999-12-31, not the string
    itself: month and day are padded with [padStart], the year is not.
    [formatDateForDB] of server.js, on the same Date, gives 0999-12-31. *)
Lemma formatDateForDB_year_999 :
  real_date "0999-12-31" /\
  formatDateForDB 0 no_parse (AString "0999-12-31") =
    Returns "999-12-31"%string /\
  formatDateForDB 0 no_parse (AString "0999-12-31") <>
    Returns "0999-12-31"%string /\
  Server.formatDateForDB (toLocalDate 0 no_parse (AString "0999-12-31")) =
    Returns "0999-12-31"%string.
Proof.
  split.
  { split; [reflexivity |]. vm_compute. repeat split; discriminate. }
  split; [vm_compute; reflexivity |].
  split; [vm_compute; discriminate |].
  vm_compute. reflexivity.
Qed.

Lemma newDate_local_midnight_accepted tza s :
  tz_ok tza -> is_date_only s = true -> accepted_date_only s = true ->
  exists t, newDate_local_midnight tza s = Some t.
Proof.
  intros Htz Hs Hacc.
  destruct (is_date_only_inv s Hs)
    as (y1 & y2 & y3 & y4 & m1 & m2 & d1 & d2 & -> & Y1 & Y2 & Y3 & Y4 & _).
  unfold newDate_local_midnight, accepted_date_only in *.
  rewrite date_fields_date_string in *.
  pose proof (digit_value_range _ Y1). pose proof (digit_value_range _ Y2).
  pose proof (digit_value_range _ Y3). pose proof (digit_value_range _ Y4).
  rewrite Hacc.
  apply andb_prop in Hacc as [Hacc D2]. apply andb_prop in Hacc as [Hacc D1].
  apply andb_prop in Hacc as [M1 M2].
  apply Z.leb_le in M1, M2, D1, D2.
  eexists. apply TimeClip_in_range; try assumption; try lia.
  unfold MakeTime, msPerDay. lia.
Qed.

Lemma toLocalDate_date_only tza parse s :
  tz_ok tza -> is_date_only s = true ->
  (toLocalDate tza parse (AString s) = None <-> accepted_date_only s = false).
Proof.
  intros Htz Hs. unfold toLocalDate. rewrite Hs.
  destruct (accepted_date_only s) eqn:Hacc.
  - destruct (newDate_local_midnight_accepted tza s Htz Hs Hacc) as [t ->].
    split; discriminate.
  - unfold newDate_local_midnight, accepted_date_only in *.
    destruct (date_fields s) as [[y m] d]. rewrite Hacc.
    split; reflexivity.
Qed.

(** C7 (amended): [getPayPeriod] and [formatDateForDB] of lib/pay-periods.js
    throw the invalid-date error exactly when their argument does not
    convert to a valid Date, and throw nothing else.  That is: for a
    date-only string [YYYY-MM-DD], when its month is not 01 to 12 or its
    day is not 01 to 31; for a Date object, when it is an Invalid Date; for
    a number, when it is NaN or beyond the range of time values; for
    another string, when the parser of the runtime rejects it.  On every
    date-only string of a real calendar day they return a result. *)
Theorem invalid_date_exactly tza parse :
  tz_ok tza ->
  (forall s, is_date_only s = true ->
     (getPayPeriod tza parse (AString s) = Throws InvalidDateError <->
      accepted_date_only s = false) /\
     (formatDateForDB tza parse (AString s) = Throws InvalidDateError <->
      accepted_date_only s = false)) /\
  (forall d,
     (getPayPeriod tza parse (ADate d) = Throws InvalidDateError <-> d = None) /\
     (formatDateForDB tza parse (ADate d) = Throws InvalidDateError <->
      d = None)) /\
  (forall n,
     (getPayPeriod tza parse (ANumber n) = Throws InvalidDateError <->
      match n with Some v => maxTime < Z.abs v | None => True end) /\
     (formatDateForDB tza parse (ANumber n) = Throws InvalidDateError <->
      match n with Some v => maxTime < Z.abs v | None => True end)) /\
  (forall s, is_date_only s = false ->
     (getPayPeriod tza parse (AString s) = Throws InvalidDateError <->
      parse s = None) /\
     (formatDateForDB tza parse (AString s) = Throws InvalidDateError <->
      parse s = None)) /\
  (forall date e,
     getPayPeriod tza parse date = Throws e \/
     formatDateForDB tza parse date = Throws e -> e = InvalidDateError) /\
  (forall s, real_date s ->
     (exists p, getPayPeriod tza parse (AString s) = Returns p) /\
     (exists str, formatDateForDB tza parse (AString s) = Returns str)).
Proof.
  intros Htz.
  assert (Valid : forall date t,
             toLocalDate tza parse date = Some t ->
             (exists p, getPayPeriod tza parse date = Returns p) /\
             (exists str, formatDateForDB tza parse date = Returns str)).
  { intros date t H. unfold getPayPeriod, formatDateForDB. rewrite H. split.
    - destruct (DateFromTime (LocalTime tza t) <=? 15); eexists; reflexivity.
    - eexists; reflexivity. }
  assert (Iff : forall date,
             (getPayPeriod tza parse date = Throws InvalidDateError <->
              toLocalDate tza parse date = None) /\
             (formatDateForDB tza parse date = Throws InvalidDateError <->
              toLocalDate tza parse date = None)).
  { intros date.
    destruct (toLocalDate tza parse date) as [t |] eqn:E.
    - destruct (Valid date t E) as [[p Hp] [str Hstr]].
      rewrite Hp, Hstr. repeat split; discriminate.
    - unfold getPayPeriod, formatDateForDB. rewrite E.
      repeat split; reflexivity. }
  split; [| split; [| split; [| split; [| split]]]].
  - intros s Hs. destruct (Iff (AString s)) as [I1 I2].
    rewrite I1, I2. split; now apply toLocalDate_date_only.
  - intros d. destruct (Iff (ADate d)) as [I1 I2]. rewrite I1, I2.
    split; reflexivity.
  - intros n. destruct (Iff (ANumber n)) as [I1 I2]. rewrite I1, I2.
    assert (E : toLocalDate tza parse (ANumber n) = None <->
                match n with Some v => maxTime < Z.abs v | None => True end).
    { destruct n as [v |]; cbn [toLocalDate newDate1].
      - unfold TimeClip. destruct (Z.leb_spec (Z.abs v) maxTime).
        + split; [discriminate | lia].
        + split; [intros _; assumption | reflexivity].
      - split; [intros _; exact I | reflexivity]. }
    split; exact E.
  - intros s Hs. destruct (Iff (AString s)) as [I1 I2]. rewrite I1, I2.
    unfold toLocalDate. rewrite Hs. split; reflexivity.
  - intros date e H.
    destruct (toLocalDate tza parse date) as [t |] eqn:E.
    + destruct (Valid date t E) as [[p Hp] [str Hstr]].
      destruct H as [H | H]; congruence.
    + unfold getPayPeriod, formatDateForDB in H. rewrite E in H.
      destruct H as [H | H]; congruence.
  - intros s Hreal.
    destruct (toLocalDate_real tza parse s Htz Hreal) as [_ HL].
    exact (Valid _ _ HL).
Qed.

Lemma invalid_date_exactly_witness :
  tz_ok tz_los_angeles /\ real_date "2024-02-29" /\
  (exists p,
     getPayPeriod tz_los_angeles no_parse (AString "2024-02-29") = Returns p) /\
  getPayPeriod tz_los_angeles no_parse (AString "2024-13-01")
  = Throws InvalidDateError.
Proof.
  assert (Htz : tz_ok tz_los_angeles) by (vm_compute; split; reflexivity).
  assert (R : real_date "2024-02-29").
  { split; [reflexivity |]. vm_compute. repeat split; discriminate. }
  split; [exact Htz |]. split; [exact R |].
  destruct (invalid_date_exactly tz_los_angeles no_parse Htz)
    as (Hdate & _ & _ & _ & _ & Hreal).
  split.
  - exact (proj1 (Hreal "2024-02-29"%string R)).
  - apply (Hdate "2024-13-01"%string); reflexivity.
Defined.

(** C7, as stated, fails on a date-only string whose day is past the end of
    its month: 2023-02-30 is not a real calendar date, and neither function
    throws.  It is read as the second of March: the period returned is the
    first half of March 2023, and the string printed is 2023-03-02. *)
Lemma february_30_is_accepted :
  ~ real_date "2023-02-30" /\
  getPayPeriod 0 no_parse (AString "2023-02-30") =
    Returns {| start := Some 1677628800000; end_ := Some 1678838400000 |} /\
  formatDateForDB 0 no_parse (ADate (Some 1677628800000)) =
    Returns "2023-03-01"%string /\
  formatDateForDB 0 no_parse (ADate (Some 1678838400000)) =
    Returns "2023-03-15"%string /\
  formatDateForDB 0 no_parse (AString "2023-02-30") =
    Returns "2023-03-02"%string.
Proof.
  split.
  { intros [_ H]. vm_compute in H. destruct H as [_ [_ H]]. now apply H. }
  repeat split; vm_compute; reflexivity.
Qed.

(** C4: [getPayPeriodByOffset], with the reading of the clock as its
    reference date, returns for offset 0 the period of the reference date;
    for a negative offset it repeats, as many times as the offset says, the
    step to the day before the start of the current period followed by the
    period of that day, and for a positive offset the step to the day after
    the end.  Each step moves exactly one period in the calendar, whatever
    the length of the month: the result is the period [offset] places from
    the one of the reference date.  The copy in server.js computes the same
    period. *)
Theorem getPayPeriodByOffset_walks tza parse :
  (forall today,
     getPayPeriodByOffset tza parse today 0 =
     getPayPeriod tza parse (ADate today)) /\
  (forall today offset, offset < 0 ->
     getPayPeriodByOffset tza parse today offset =
     (p0 <- getPayPeriod tza parse (ADate today) ;;
      Navigation.repeat_step (Navigation.stepBack tza parse)
                             (Z.to_nat (- offset)) p0)) /\
  (forall today offset, 0 < offset ->
     getPayPeriodByOffset tza parse today offset =
     (p0 <- getPayPeriod tza parse (ADate today) ;;
      Navigation.repeat_step (Navigation.stepForward tza parse)
                             (Z.to_nat offset) p0)) /\
  (tz_ok tza ->
   forall now offset,
     index_ok (periodIndex tza now) ->
     index_ok (periodIndex tza now + offset) ->
     getPayPeriodByOffset tza parse (Some now) offset =
       Returns (periodOfIndex tza (periodIndex tza now + offset)) /\
     Server.getPayPeriodByOffset tza (Some now) offset =
       periodOfIndex tza (periodIndex tza now + offset)).
Proof.
  split; [| split; [| split]].
  - intros today. unfold getPayPeriodByOffset.
    cbn [Z.abs Z.to_nat offset_loop bind]. reflexivity.
  - intros today offset H. rewrite getPayPeriodByOffset_refines.
    unfold Navigation.periodByOffset.
    destruct (Z.ltb_spec offset 0); [reflexivity | lia].
  - intros today offset H. rewrite getPayPeriodByOffset_refines.
    unfold Navigation.periodByOffset.
    destruct (Z.ltb_spec offset 0); [lia | reflexivity].
  - intros Htz now offset Hk Hko.
    pose proof (getPayPeriodByOffset_index tza parse now offset Htz Hk Hko)
      as E.
    split; [exact E |].
    exact (Server_getPayPeriodByOffset_agrees _ _ _ _ _ E).
Qed.

Lemma getPayPeriodByOffset_walks_witness :
  tz_ok tz_los_angeles /\
  index_ok (periodIndex tz_los_angeles 1770000000000) /\
  index_ok (periodIndex tz_los_angeles 1770000000000 + -3) /\
  getPayPeriodByOffset tz_los_angeles no_parse (Some 1770000000000) (-3) =
    Returns (periodOfIndex tz_los_angeles
               (periodIndex tz_los_angeles 1770000000000 + -3)).
Proof.
  assert (Htz : tz_ok tz_los_angeles) by (vm_compute; split; reflexivity).
  assert (Hk : index_ok (periodIndex tz_los_angeles 1770000000000))
    by (vm_compute; split; [discriminate | reflexivity]).
  assert (Hko : index_ok (periodIndex tz_los_angeles 1770000000000 + -3))
    by (vm_compute; split; [discriminate | reflexivity]).
  split; [exact Htz |]. split; [exact Hk |]. split; [exact Hko |].
  destruct (getPayPeriodByOffset_walks tz_los_angeles no_parse)
    as (_ & _ & _ & G).
  exact (proj1 (G Htz 1770000000000 (-3) Hk Hko)).
Defined.

(** C9: round trip of the navigation.  From a reference date whose period
    and the period [n] places away are in the range of regular dates, going
    [n] periods (forward for positive [n], backward for negative [n]) and
    then, from any date between the start and the end of the period
    reached, [n] periods the other way gives the period of the reference
    date again. *)
Theorem getPayPeriodByOffset_round_trip tza parse now n p s e ref :
  tz_ok tza ->
  index_ok (periodIndex tza now) ->
  index_ok (periodIndex tza now + n) ->
  getPayPeriodByOffset tza parse (Some now) n = Returns p ->
  start p = Some s -> end_ p = Some e -> s <= ref <= e ->
  getPayPeriodByOffset tza parse (Some ref) (- n) =
  getPayPeriod tza parse (ADate (Some now)).
Proof.
  intros Htz Hk Hkn Hp Hs He Href.
  rewrite getPayPeriodByOffset_index in Hp by assumption.
  injection Hp as <-.
  pose proof (periodIndex_inside tza _ s e ref Hs He Href) as Hi.
  rewrite getPayPeriodByOffset_index; rewrite ?Hi; try assumption.
  - rewrite getPayPeriod_index by assumption. f_equal. f_equal. lia.
  - replace (periodIndex tza now + n + - n) with (periodIndex tza now) by lia.
    assumption.
Qed.

Lemma getPayPeriodByOffset_round_trip_witness :
  tz_ok tz_los_angeles /\
  index_ok (periodIndex tz_los_angeles 1770000000000) /\
  index_ok (periodIndex tz_los_angeles 1770000000000 + 3) /\
  getPayPeriodByOffset tz_los_angeles no_parse (Some 1770000000000) 3 =
    Returns {| start := Some 1773648000000; end_ := Some 1774944000000 |} /\
  1773648000000 <= 1773648000000 <= 1774944000000 /\
  getPayPeriodByOffset tz_los_angeles no_parse (Some 1773648000000) (- (3)) =
  getPayPeriod tz_los_angeles no_parse (ADate (Some 1770000000000)).
Proof.
  assert (Htz : tz_ok tz_los_angeles) by (vm_compute; split; reflexivity).
  assert (Hk : index_ok (periodIndex tz_los_angeles 1770000000000))
    by (vm_compute; split; [discriminate | reflexivity]).
  assert (Hkn : index_ok (periodIndex tz_los_angeles 1770000000000 + 3))
    by (vm_compute; split; [discriminate | reflexivity]).
  assert (Hp : getPayPeriodByOffset tz_los_angeles no_parse
                 (Some 1770000000000) 3 =
               Returns {| start := Some 1773648000000;
                          end_ := Some 1774944000000 |})
    by (vm_compute; reflexivity).
  assert (Href : 1773648000000 <= 1773648000000 <= 1774944000000)
    by (split; discriminate).
  split; [exact Htz |]. split; [exact Hk |]. split; [exact Hkn |].
  split; [exact Hp |]. split; [exact Href |].
  exact (getPayPeriodByOffset_round_trip tz_los_angeles no_parse
           1770000000000 3 _ _ _ 1773648000000
           Htz Hk Hkn Hp eq_refl eq_refl Href).
Defined.

(** ** Doubles: which sums and products are numbers *)

Import JSValue Doubles Store SummarySpec.

(** The arithmetic on well-known values: 0.1 + 0.2 is
    0.30000000000000004 and not 0.3; 127.5 and 1e308 are doubles. *)
Lemma double_examples :
  nadd (dec 1 1) (dec 2 1) = S754_finite false 5404319552844596 (-54) /\
  dec 3 1 = S754_finite false 5404319552844595 (-54) /\
  dec 1275 1 = S754_finite false 8972014882652160 (-46) /\
  int (10 ^ 308) = S754_finite false 5010420900022432 971.
Proof. repeat split; vm_compute; reflexivity. Qed.













(** *** The number of binary digits *)
Lemma digits2_pos_bounds p :
  2 ^ (Z.pos (digits2_pos p) - 1) <= Z.pos p < 2 ^ Z.pos (digits2_pos p).
Proof.
  induction p as [p IH | p IH |]; cbn [digits2_pos].
  - rewrite Pos2Z.inj_succ.
    replace (Z.succ (Z.pos (digits2_pos p)) - 1) with (Z.succ (Z.pos (digits2_pos p) - 1)) by lia.
    rewrite !Z.pow_succ_r by lia. lia.
  - rewrite Pos2Z.inj_succ.
    replace (Z.succ (Z.pos (digits2_pos p)) - 1) with (Z.succ (Z.pos (digits2_pos p) - 1)) by lia.
    rewrite !Z.pow_succ_r by lia. lia.
  - cbn. lia.
Qed.

(** *** Right shifts of the rounding procedure *)
Lemma shr_1_spec m r s :
  0 <= m ->
  shr_1 (Build_shr_record m r s) = Build_shr_record (m / 2) (Z.odd m) (r || s).
Proof.
  intros Hm. destruct m as [| [p | p |] | p]; try lia; cbn [shr_1 Z.odd].
  - reflexivity.
  - f_equal. rewrite Pos2Z.inj_xI. Z.div_mod_to_equations. lia.
  - f_equal. rewrite Pos2Z.inj_xO. Z.div_mod_to_equations. lia.
  - reflexivity.
Qed.

Lemma mod_pow2_split X j :
  0 <= j -> X mod 2 ^ (j + 1) = X mod 2 ^ j + 2 ^ j * ((X / 2 ^ j) mod 2).
Proof.
  intros Hj. rewrite Z.pow_add_r, Z.pow_1_r by lia.
  apply Z.rem_mul_r; [| lia].
  pose proof (Z.pow_pos_nonneg 2 j). lia.
Qed.

Lemma shifted_step X k mrs :
  0 <= X -> shifted X k mrs -> shifted X (k + 1) (shr_1 mrs).
Proof.
  intros HX [[-> ->] | (Hk & Hm & Hr & Hs)]; right.
  - rewrite shr_1_spec by assumption.
    cbn [shr_m shr_r shr_s orb]. replace (0 + 1 - 1) with 0 by lia.
    rewrite Z.pow_0_r, Z.mod_1_r, Z.pow_1_r, Z.bit0_odd.
    repeat split; try reflexivity; lia.
  - destruct mrs as [m r s]. cbn [shr_m shr_r shr_s] in *.
    assert (H0 : 0 <= m).
    { subst m. apply Z.div_pos; [assumption |]. apply Z.pow_pos_nonneg; lia. }
    rewrite shr_1_spec by assumption.
    cbn [shr_m shr_r shr_s]. replace (k + 1 - 1) with k by lia.
    split; [lia |]. split; [| split].
    + subst m. rewrite Z.div_div by (try apply Z.pow_pos_nonneg; lia).
      now rewrite Z.pow_add_r, Z.pow_1_r by lia.
    + subst m. rewrite <- Z.bit0_odd, Z.div_pow2_bits by lia. f_equal; lia.
    + subst r s.
      pose proof (mod_pow2_split X (k - 1) ltac:(lia)) as E.
      replace (k - 1 + 1) with k in E by lia. rewrite E.
      rewrite <- (Z.testbit_spec' X (k - 1)) by lia.
      pose proof (Z.mod_pos_bound X (2 ^ (k - 1))
                    ltac:(apply Z.pow_pos_nonneg; lia)) as B.
      pose proof (Z.pow_pos_nonneg 2 (k - 1) ltac:(lia) ltac:(lia)) as P.
      destruct (Z.testbit X (k - 1)); cbn [Z.b2z orb].
      * symmetry. apply negb_true_iff, Z.eqb_neq. lia.
      * f_equal. f_equal. lia.
Qed.

Lemma iter_pos_shifted X p : forall k mrs,
  0 <= X -> shifted X k mrs ->
  shifted X (k + Z.pos p) (SpecFloat.iter_pos shr_1 p mrs).
Proof.
  induction p as [p IH | p IH |]; intros k mrs HX H; cbn [SpecFloat.iter_pos].
  - replace (k + Z.pos p~1) with (k + 1 + Z.pos p + Z.pos p) by lia.
    apply IH; try lia. apply IH; try lia. now apply shifted_step.
  - replace (k + Z.pos p~0) with (k + Z.pos p + Z.pos p) by lia.
    apply IH; try lia. apply IH; try lia. assumption.
  - now apply shifted_step.
Qed.

(** Shifting a magnitude right by [n] bits. *)
Lemma shr_shifted X e n :
  0 <= X ->
  shifted X (Z.max 0 n) (fst (shr (Build_shr_record X false false) e n)) /\
  snd (shr (Build_shr_record X false false) e n) = e + Z.max 0 n.
Proof.
  intros HX. unfold shr. destruct n as [| p | p]; cbn [fst snd].
  - split; [left; split; reflexivity | lia].
  - split; [| lia]. replace (Z.max 0 (Z.pos p)) with (0 + Z.pos p) by lia.
    apply iter_pos_shifted; [assumption |]. left. split; reflexivity.
  - split; [left; split; reflexivity | lia].
Qed.

Lemma round_of_shifted X n mrs :
  0 <= X -> 0 <= n -> shifted X n mrs ->
  round_nearest_even (shr_m mrs) (loc_of_shr_record mrs) = round_shift X n.
Proof.
  intros HX Hn [[-> ->] | (Hk & Hm & Hr & Hs)].
  - reflexivity.
  - unfold round_shift. destruct (Z.leb_spec n 0); [lia |].
    destruct mrs as [m r s]. cbn [shr_m shr_r shr_s] in *.
    pose proof (mod_pow2_split X (n - 1) ltac:(lia)) as E.
    replace (n - 1 + 1) with n in E by lia.
    rewrite <- (Z.testbit_spec' X (n - 1)) in E by lia.
    pose proof (Z.mod_pos_bound X (2 ^ (n - 1))
                  ltac:(apply Z.pow_pos_nonneg; lia)) as B.
    rewrite E, <- Hm. subst r s.
    destruct (Z.testbit X (n - 1)); cbn [Z.b2z];
      destruct (Z.eqb_spec (X mod 2 ^ (n - 1)) 0) as [Z0 | Z0];
      cbn [negb loc_of_shr_record round_nearest_even].
    + rewrite Z0.
      destruct (Z.ltb_spec (0 + 2 ^ (n - 1) * 1) (2 ^ (n - 1))); [lia |].
      destruct (Z.ltb_spec (2 ^ (n - 1)) (0 + 2 ^ (n - 1) * 1)); [lia |].
      reflexivity.
    + destruct (Z.ltb_spec (X mod 2 ^ (n - 1) + 2 ^ (n - 1) * 1)
                           (2 ^ (n - 1))); [lia |].
      destruct (Z.ltb_spec (2 ^ (n - 1))
                           (X mod 2 ^ (n - 1) + 2 ^ (n - 1) * 1)); [| lia].
      reflexivity.
    + rewrite Z0.
      destruct (Z.ltb_spec (0 + 2 ^ (n - 1) * 0) (2 ^ (n - 1))); [| lia].
      reflexivity.
    + destruct (Z.ltb_spec (X mod 2 ^ (n - 1) + 2 ^ (n - 1) * 0)
                           (2 ^ (n - 1))); [| lia].
      reflexivity.
Qed.

(** *** Digits of a positive number *)
Lemma Zdigits2_bounds N :
  0 < N -> 2 ^ (Zdigits2 N - 1) <= N < 2 ^ Zdigits2 N.
Proof.
  intros H. destruct N as [| p | p]; try lia. apply digits2_pos_bounds.
Qed.

Lemma Zdigits2_pos N : 0 < N -> 0 < Zdigits2 N.
Proof. intros H. destruct N; cbn; lia. Qed.

Lemma Zdigits2_unique N d :
  2 ^ (d - 1) <= N < 2 ^ d -> 0 < N -> Zdigits2 N = d.
Proof.
  intros [H1 H2] HN.
  pose proof (Zdigits2_bounds N HN) as [B1 B2].
  pose proof (Zdigits2_pos N HN) as HD.
  assert (Hd : 0 < d).
  { destruct (Z.ltb_spec 0 d); [assumption |].
    assert (2 ^ d <= 1).
    { destruct (Z.eq_dec d 0) as [-> | ]; [cbn; lia |].
      rewrite Z.pow_neg_r by lia. lia. }
    lia. }
  destruct (Z.lt_trichotomy (Zdigits2 N) d) as [L | [E | G]]; [| exact E |].
  - pose proof (Z.pow_le_mono_r 2 (Zdigits2 N) (d - 1) ltac:(lia) ltac:(lia)).
    lia.
  - pose proof (Z.pow_le_mono_r 2 d (Zdigits2 N - 1) ltac:(lia) ltac:(lia)).
    lia.
Qed.

Lemma Zdigits2_shift N k :
  0 < N -> 0 <= k -> Zdigits2 (N * 2 ^ k) = Zdigits2 N + k.
Proof.
  intros HN Hk. pose proof (Zdigits2_bounds N HN) as [B1 B2].
  pose proof (Zdigits2_pos N HN) as HD.
  pose proof (Z.pow_pos_nonneg 2 k ltac:(lia) Hk) as P.
  apply Zdigits2_unique; [| nia].
  replace (Zdigits2 N + k - 1) with (Zdigits2 N - 1 + k) by lia.
  rewrite !Z.pow_add_r by lia. nia.
Qed.

Lemma iter_xO m d : Z.pos (Pos.iter xO m d) = Z.pos m * 2 ^ Z.pos d.
Proof.
  induction d as [| d IH] using Pos.peano_ind.
  - cbn. lia.
  - rewrite Pos.iter_succ, Pos2Z.inj_xO, IH, Pos2Z.inj_succ, Z.pow_succ_r by lia.
    lia.
Qed.

(** *** What [binary_round] computes *)
Lemma fexp_eq e : fexp prec emax e = Z.max (e - 53) (-1074).
Proof. reflexivity. Qed.

Lemma shifted_m X k mrs :
  0 <= k -> shifted X k mrs -> shr_m mrs = X / 2 ^ k.
Proof.
  intros Hk [[-> ->] | (_ & H & _)]; [| exact H].
  cbn [shr_m]. now rewrite Z.pow_0_r, Z.div_1_r.
Qed.

Lemma binary_round_aux_exact sx mz ez :
  let n := Z.max 0 (fexp prec emax (Zdigits2 (Z.pos mz) + ez) - ez) in
  let m1 := round_shift (Z.pos mz) n in
  let e1 := ez + n in
  let n2 := Z.max 0 (fexp prec emax (Zdigits2 m1 + e1) - e1) in
  0 <= m1 ->
  binary_round_aux prec emax sx (Z.pos mz) ez loc_Exact =
  match m1 / 2 ^ n2 with
  | Z0 => S754_zero sx
  | Z.pos m => if e1 + n2 <=? emax - prec then S754_finite sx m (e1 + n2)
               else S754_infinity sx
  | Z.neg _ => S754_nan
  end.
Proof.
  intros n m1 e1 n2 Hm1. unfold binary_round_aux, shr_fexp.
  cbn [shr_record_of_loc].
  destruct (shr_shifted (Z.pos mz) ez
              (fexp prec emax (Zdigits2 (Z.pos mz) + ez) - ez) ltac:(lia))
    as [S1 E1].
  fold n in S1, E1.
  destruct (shr (Build_shr_record (Z.pos mz) false false) ez _)
    as [mrs' e'].
  cbn [fst snd] in S1, E1. subst e'. fold e1.
  rewrite (round_of_shifted (Z.pos mz) n mrs') by (assumption || lia).
  fold m1.
  destruct (shr_shifted m1 e1
              (fexp prec emax (Zdigits2 m1 + e1) - e1) Hm1) as [S2 E2].
  fold n2 in S2, E2.
  destruct (shr (Build_shr_record m1 false false) e1 _) as [mrs'' e''].
  cbn [fst snd] in S2, E2. subst e''.
  rewrite (shifted_m m1 n2 mrs'') by (assumption || lia).
  reflexivity.
Qed.

Lemma round_shift_bounds X n :
  1 <= n -> X / 2 ^ n <= round_shift X n <= X / 2 ^ n + 1.
Proof.
  intros Hn. unfold round_shift. destruct (Z.leb_spec n 0); [lia |].
  destruct (_ <? _); [lia |]. destruct (_ <? _); [lia |].
  destruct (Z.even _); lia.
Qed.

Lemma round_shift_exact X n :
  1 <= n -> X mod 2 ^ n = 0 -> round_shift X n = X / 2 ^ n.
Proof.
  intros Hn H. unfold round_shift. destruct (Z.leb_spec n 0); [lia |].
  rewrite H. pose proof (Z.pow_pos_nonneg 2 (n - 1) ltac:(lia) ltac:(lia)).
  destruct (Z.ltb_spec 0 (2 ^ (n - 1))); [reflexivity | lia].
Qed.

Lemma round_shift_scale X n k :
  1 <= n -> 0 <= k -> round_shift (X * 2 ^ k) (n + k) = round_shift X n.
Proof.
  intros Hn Hk. unfold round_shift.
  destruct (Z.leb_spec (n + k) 0); [lia |].
  destruct (Z.leb_spec n 0); [lia |].
  pose proof (Z.pow_pos_nonneg 2 k ltac:(lia) Hk) as Pk.
  pose proof (Z.pow_pos_nonneg 2 n ltac:(lia) ltac:(lia)) as Pn.
  pose proof (Z.pow_pos_nonneg 2 (n - 1) ltac:(lia) ltac:(lia)) as Ph.
  rewrite (Z.pow_add_r 2 n k) by lia.
  rewrite Z.div_mul_cancel_r by lia.
  rewrite Z.mul_mod_distr_r by lia.
  replace (n + k - 1) with (n - 1 + k) by lia.
  rewrite (Z.pow_add_r 2 (n - 1) k) by lia.
  assert (L1 : (X mod 2 ^ n * 2 ^ k <? 2 ^ (n - 1) * 2 ^ k) =
               (X mod 2 ^ n <? 2 ^ (n - 1))).
  { destruct (Z.ltb_spec (X mod 2 ^ n) (2 ^ (n - 1)));
      destruct (Z.ltb_spec (X mod 2 ^ n * 2 ^ k) (2 ^ (n - 1) * 2 ^ k));
      try reflexivity; nia. }
  assert (L2 : (2 ^ (n - 1) * 2 ^ k <? X mod 2 ^ n * 2 ^ k) =
               (2 ^ (n - 1) <? X mod 2 ^ n)).
  { destruct (Z.ltb_spec (2 ^ (n - 1)) (X mod 2 ^ n));
      destruct (Z.ltb_spec (2 ^ (n - 1) * 2 ^ k) (X mod 2 ^ n * 2 ^ k));
      try reflexivity; nia. }
  now rewrite L1, L2.
Qed.

Lemma round53_exact M k :
  0 < M -> Zdigits2 M <= 53 -> 0 <= k -> round53 (M * 2 ^ k) = M * 2 ^ k.
Proof.
  intros HM HD Hk. unfold round53. rewrite Zdigits2_shift by assumption.
  set (n := Zdigits2 M + k - 53).
  destruct (Z.leb_spec n 0) as [Hn | Hn].
  - unfold round_shift. destruct (Z.leb_spec n 0); [| lia].
    replace (Z.max 0 n) with 0 by lia. lia.
  - replace (Z.max 0 n) with n by lia.
    assert (Hmod : (M * 2 ^ k) mod 2 ^ n = 0).
    { replace k with (k - n + n) by lia. rewrite Z.pow_add_r by lia.
      rewrite Z.mul_assoc. apply Z.mod_mul.
      pose proof (Z.pow_pos_nonneg 2 n). lia. }
    rewrite round_shift_exact by (assumption || lia).
    pose proof (Z.pow_pos_nonneg 2 n ltac:(lia) ltac:(lia)).
    pose proof (Z.div_mod (M * 2 ^ k) (2 ^ n) ltac:(lia)). lia.
Qed.

Lemma round53_scale M k :
  0 < M -> 53 < Zdigits2 M -> 0 <= k ->
  round53 (M * 2 ^ k) =
  round_shift M (Zdigits2 M - 53) * 2 ^ (Zdigits2 M - 53 + k).
Proof.
  intros HM HD Hk. unfold round53. rewrite Zdigits2_shift by assumption.
  replace (Zdigits2 M + k - 53) with (Zdigits2 M - 53 + k) by lia.
  rewrite round_shift_scale by lia.
  now replace (Z.max 0 (Zdigits2 M - 53 + k)) with (Zdigits2 M - 53 + k) by lia.
Qed.

(** The quotient of a number of [D > 53] digits by [2^(D-53)] has 53
    digits. *)
Lemma quotient_53 M :
  0 < M -> 53 < Zdigits2 M ->
  2 ^ 52 <= M / 2 ^ (Zdigits2 M - 53) < 2 ^ 53.
Proof.
  intros HM HD. pose proof (Zdigits2_bounds M HM) as [B1 B2].
  set (n := Zdigits2 M - 53) in *.
  pose proof (Z.pow_pos_nonneg 2 n ltac:(lia) ltac:(lia)) as Pn.
  replace (Zdigits2 M - 1) with (52 + n) in B1 by lia.
  replace (Zdigits2 M) with (53 + n) in B2 by lia.
  rewrite Z.pow_add_r in B1, B2 by lia.
  split.
  - apply Z.div_le_lower_bound; lia.
  - apply Z.div_lt_upper_bound; lia.
Qed.

Lemma shl_align_spec mx ex ex' :
  snd (shl_align mx ex ex') = Z.min ex ex' /\
  Z.pos (fst (shl_align mx ex ex')) = Z.pos mx * 2 ^ (ex - Z.min ex ex').
Proof.
  unfold shl_align. destruct (ex' - ex) as [| d | d] eqn:E; cbn [fst snd].
  - replace (Z.min ex ex') with ex by lia. rewrite Z.sub_diag. cbn. lia.
  - replace (Z.min ex ex') with ex by lia. rewrite Z.sub_diag. cbn. lia.
  - replace (Z.min ex ex') with ex' by lia. split; [reflexivity |].
    rewrite iter_xO. f_equal. f_equal. lia.
Qed.

Lemma binary_round_shape sx M e :
  -1074 <= e ->
  exists m2 e2,
    Z.pos m2 * 2 ^ (e2 + 1074) = round53 (Z.pos M * 2 ^ (e + 1074)) /\
    canonical_mantissa prec emax m2 e2 = true /\
    binary_round prec emax sx M e =
      if e2 <=? 971 then S754_finite sx m2 e2 else S754_infinity sx.
Proof.
  intros He. unfold binary_round.
  set (D := Z.pos (digits2_pos M)).
  assert (HD : D = Zdigits2 (Z.pos M)) by reflexivity.
  assert (HD0 : 0 < D) by (subst D; lia).
  set (E0 := fexp prec emax (D + e)).
  assert (HE0 : E0 = Z.max (D + e - 53) (-1074)) by reflexivity.
  destruct (shl_align_spec M e E0) as [Ez Em].
  destruct (shl_align M e E0) as [mz ez]. cbn [fst snd] in Ez, Em.
  assert (Hdz : Zdigits2 (Z.pos mz) + ez = D + e).
  { rewrite Em, Zdigits2_shift by lia. rewrite <- HD. lia. }
  pose proof (binary_round_aux_exact sx mz ez) as A. cbv zeta in A.
  rewrite Hdz in A. fold E0 in A.
  destruct (Z.leb_spec D 53) as [Hsmall | Hbig].
  - (* the magnitude fits: no rounding *)
    assert (Hez : ez = E0) by lia.
    replace (Z.min e E0) with E0 in Em by lia.
    replace (Z.max 0 (E0 - ez)) with 0 in A by lia.
    replace (round_shift (Z.pos mz) 0) with (Z.pos mz) in A by reflexivity.
    rewrite Z.add_0_r in A. rewrite Hdz in A. fold E0 in A.
    replace (Z.max 0 (E0 - ez)) with 0 in A by lia.
    rewrite Z.pow_0_r, Z.div_1_r, Z.add_0_r in A.
    specialize (A ltac:(lia)).
    exists mz, ez. split; [| split].
    + rewrite Em. rewrite round53_exact by (rewrite <- ?HD; lia).
      rewrite <- Z.mul_assoc, <- Z.pow_add_r by lia. f_equal. f_equal. lia.
    + unfold canonical_mantissa.
      change (Z.pos (digits2_pos mz)) with (Zdigits2 (Z.pos mz)).
      rewrite Hdz. fold E0. apply Z.eqb_eq. lia.
    + exact A.
  - (* more than 53 digits: the last D - 53 are rounded away *)
    assert (Hez : ez = e) by lia. clear Ez. subst ez.
    replace (Z.min e E0) with e in Em by lia.
    assert (Hmz : mz = M).
    { rewrite Z.sub_diag, Z.pow_0_r, Z.mul_1_r in Em. now injection Em. }
    subst mz. clear Em.
    replace (Z.max 0 (E0 - e)) with (D - 53) in A by lia.
    set (m1 := round_shift (Z.pos M) (D - 53)) in *.
    pose proof (quotient_53 (Z.pos M) ltac:(lia) ltac:(rewrite <- HD; lia))
      as Q. rewrite <- HD in Q.
    pose proof (round_shift_bounds (Z.pos M) (D - 53) ltac:(lia)) as B.
    fold m1 in B.
    replace (e + (D - 53)) with E0 in A by lia.
    specialize (A ltac:(lia)).
    assert (R : round53 (Z.pos M * 2 ^ (e + 1074)) = m1 * 2 ^ (E0 + 1074)).
    { rewrite round53_scale by (rewrite <- ?HD; lia). rewrite <- HD.
      fold m1. f_equal. f_equal. lia. }
    destruct (Z.eq_dec m1 (2 ^ 53)) as [Htop | Hnot].
    + (* the rounded mantissa is 2^53: one more shift *)
      assert (Hd1 : Zdigits2 m1 = 54).
      { apply Zdigits2_unique; [| lia]. rewrite Htop. cbn. lia. }
      rewrite Hd1 in A.
      replace (Z.max 0 (fexp prec emax (54 + E0) - E0)) with 1 in A
        by (rewrite fexp_eq; lia).
      rewrite Htop in A. change (2 ^ 53 / 2 ^ 1) with (Z.pos (2 ^ 52)) in A.
      exists (2 ^ 52)%positive, (E0 + 1). split; [| split].
      * rewrite R, Htop. replace (E0 + 1 + 1074) with (1 + (E0 + 1074)) by lia.
        rewrite Z.pow_add_r by lia.
        change (Z.pos (2 ^ 52)) with (2 ^ 52).
        change (2 ^ 53) with (2 ^ 52 * 2 ^ 1). lia.
      * unfold canonical_mantissa. rewrite fexp_eq.
        change (Z.pos (digits2_pos (2 ^ 52))) with 53.
        apply Z.eqb_eq. lia.
      * exact A.
    + assert (Hd1 : Zdigits2 m1 = 53).
      { apply Zdigits2_unique; [| lia]. change (53 - 1) with 52. lia. }
      rewrite Hd1 in A.
      replace (Z.max 0 (fexp prec emax (53 + E0) - E0)) with 0 in A
        by (rewrite fexp_eq; lia).
      rewrite Z.pow_0_r, Z.div_1_r, Z.add_0_r in A.
      destruct m1 as [| p1 | p1] eqn:Ep; try lia.
      exists p1, E0. split; [| split].
      * now rewrite R.
      * unfold canonical_mantissa. rewrite fexp_eq.
        change (Z.pos (digits2_pos p1)) with (Zdigits2 (Z.pos p1)).
        rewrite Hd1. apply Z.eqb_eq. lia.
      * exact A.
Qed.

(** *** Rounding to 53 bits is monotone *)
Lemma Zdigits2_mono N1 N2 :
  0 < N1 -> N1 <= N2 -> Zdigits2 N1 <= Zdigits2 N2.
Proof.
  intros H1 H12.
  pose proof (Zdigits2_bounds N1 H1) as [A1 A2].
  pose proof (Zdigits2_bounds N2 ltac:(lia)) as [B1 B2].
  pose proof (Zdigits2_pos N1 H1).
  destruct (Z.le_gt_cases (Zdigits2 N1) (Zdigits2 N2)) as [L | G];
    [exact L |].
  pose proof (Z.pow_le_mono_r 2 (Zdigits2 N2) (Zdigits2 N1 - 1)
                ltac:(lia) ltac:(lia)).
  lia.
Qed.

Lemma round53_upper N : 0 < N -> round53 N <= 2 ^ Zdigits2 N.
Proof.
  intros HN. pose proof (Zdigits2_bounds N HN) as [B1 B2].
  unfold round53. destruct (Z.leb_spec (Zdigits2 N) 53) as [Hs | Hb].
  - unfold round_shift. destruct (Z.leb_spec (Zdigits2 N - 53) 0); [| lia].
    replace (Z.max 0 (Zdigits2 N - 53)) with 0 by lia. lia.
  - pose proof (quotient_53 N HN Hb) as Q.
    pose proof (round_shift_bounds N (Zdigits2 N - 53) ltac:(lia)) as B.
    replace (Z.max 0 (Zdigits2 N - 53)) with (Zdigits2 N - 53) by lia.
    set (n := Zdigits2 N - 53) in *.
    pose proof (Z.pow_pos_nonneg 2 n ltac:(lia) ltac:(lia)) as Pn.
    replace (Zdigits2 N) with (53 + n) by lia.
    rewrite Z.pow_add_r by lia. nia.
Qed.

Lemma round53_lower N : 0 < N -> 2 ^ (Zdigits2 N - 1) <= round53 N.
Proof.
  intros HN. pose proof (Zdigits2_bounds N HN) as [B1 B2].
  unfold round53. destruct (Z.leb_spec (Zdigits2 N) 53) as [Hs | Hb].
  - unfold round_shift. destruct (Z.leb_spec (Zdigits2 N - 53) 0); [| lia].
    replace (Z.max 0 (Zdigits2 N - 53)) with 0 by lia. lia.
  - pose proof (quotient_53 N HN Hb) as Q.
    pose proof (round_shift_bounds N (Zdigits2 N - 53) ltac:(lia)) as B.
    replace (Z.max 0 (Zdigits2 N - 53)) with (Zdigits2 N - 53) by lia.
    set (n := Zdigits2 N - 53) in *.
    pose proof (Z.pow_pos_nonneg 2 n ltac:(lia) ltac:(lia)) as Pn.
    replace (Zdigits2 N - 1) with (52 + n) by lia.
    rewrite Z.pow_add_r by lia. nia.
Qed.

Lemma round_shift_mono X1 X2 n :
  0 <= X1 -> X1 <= X2 -> 1 <= n -> round_shift X1 n <= round_shift X2 n.
Proof.
  intros H1 H12 Hn.
  pose proof (Z.pow_pos_nonneg 2 n ltac:(lia) ltac:(lia)) as Pn.
  assert (Hq : X1 / 2 ^ n <= X2 / 2 ^ n) by (apply Z.div_le_mono; lia).
  destruct (Z.eq_dec (X1 / 2 ^ n) (X2 / 2 ^ n)) as [E | NE].
  - pose proof (Z.div_mod X1 (2 ^ n) ltac:(lia)) as D1.
    pose proof (Z.div_mod X2 (2 ^ n) ltac:(lia)) as D2.
    assert (Hr : X1 mod 2 ^ n <= X2 mod 2 ^ n) by (rewrite E in D1; lia).
    unfold round_shift. destruct (Z.leb_spec n 0); [lia |].
    rewrite E.
    destruct (Z.ltb_spec (X1 mod 2 ^ n) (2 ^ (n - 1)));
      destruct (Z.ltb_spec (X2 mod 2 ^ n) (2 ^ (n - 1)));
      destruct (Z.ltb_spec (2 ^ (n - 1)) (X1 mod 2 ^ n));
      destruct (Z.ltb_spec (2 ^ (n - 1)) (X2 mod 2 ^ n));
      destruct (Z.even (X2 / 2 ^ n)); lia.
  - pose proof (round_shift_bounds X1 n Hn).
    pose proof (round_shift_bounds X2 n Hn). lia.
Qed.

Lemma round53_0 : round53 0 = 0.
Proof. reflexivity. Qed.

Lemma round53_mono N1 N2 :
  0 <= N1 -> N1 <= N2 -> round53 N1 <= round53 N2.
Proof.
  intros H1 H12.
  destruct (Z.eq_dec N1 0) as [-> | Hpos].
  { rewrite round53_0. destruct (Z.eq_dec N2 0) as [-> | ];
      [rewrite round53_0; lia |].
    pose proof (round53_lower N2 ltac:(lia)).
    pose proof (Z.pow_nonneg 2 (Zdigits2 N2 - 1) ltac:(lia)). lia. }
  pose proof (Zdigits2_mono N1 N2 ltac:(lia) H12) as Hd.
  destruct (Z.eq_dec (Zdigits2 N1) (Zdigits2 N2)) as [E | NE].
  - unfold round53. rewrite E.
    destruct (Z.leb_spec (Zdigits2 N2) 53) as [Hs | Hb].
    + unfold round_shift. destruct (Z.leb_spec (Zdigits2 N2 - 53) 0); [| lia].
      replace (Z.max 0 (Zdigits2 N2 - 53)) with 0 by lia. lia.
    + apply Z.mul_le_mono_nonneg_r; [apply Z.pow_nonneg; lia |].
      apply round_shift_mono; lia.
  - pose proof (round53_upper N1 ltac:(lia)).
    pose proof (round53_lower N2 ltac:(lia)).
    pose proof (Z.pow_le_mono_r 2 (Zdigits2 N1) (Zdigits2 N2 - 1)
                  ltac:(lia) ltac:(lia)).
    lia.
Qed.

Lemma canonical_bounds m e :
  canonical_mantissa prec emax m e = true ->
  -1074 <= e /\ Zdigits2 (Z.pos m) <= 53 /\
  (-1074 < e -> Zdigits2 (Z.pos m) = 53).
Proof.
  unfold canonical_mantissa. rewrite fexp_eq. intros H.
  apply Z.eqb_eq in H. change (Zdigits2 (Z.pos m)) with (Z.pos (digits2_pos m)).
  lia.
Qed.

Lemma canonical_overflow m e :
  canonical_mantissa prec emax m e = true ->
  (e <= 971 <-> Z.pos m * 2 ^ (e + 1074) < top).
Proof.
  intros H. destruct (canonical_bounds m e H) as (He & Hd & Hn).
  pose proof (Zdigits2_bounds (Z.pos m) ltac:(lia)) as [B1 B2].
  pose proof (Z.pow_pos_nonneg 2 (e + 1074) ltac:(lia) ltac:(lia)) as Pe.
  unfold top. split.
  - intros Hle.
    pose proof (Z.pow_le_mono_r 2 (Zdigits2 (Z.pos m)) 53 ltac:(lia) Hd).
    pose proof (Z.pow_le_mono_r 2 (e + 1074) 2045 ltac:(lia) ltac:(lia)).
    replace 2098 with (53 + 2045) by lia.
    rewrite (Z.pow_add_r 2 53 2045) by lia.
    pose proof (Z.pow_pos_nonneg 2 53 ltac:(lia) ltac:(lia)).
    nia.
  - intros Hlt. destruct (Z.le_gt_cases e 971) as [L | G]; [exact L |].
    rewrite (Hn ltac:(lia)) in B1. change (53 - 1) with 52 in B1.
    pose proof (Z.pow_le_mono_r 2 2046 (e + 1074) ltac:(lia) ltac:(lia)).
    replace 2098 with (52 + 2046) in Hlt by lia.
    rewrite (Z.pow_add_r 2 52 2046) in Hlt by lia.
    pose proof (Z.pow_pos_nonneg 2 2046 ltac:(lia) ltac:(lia)).
    nia.
Qed.

Lemma good_finite_inv s m e :
  good (S754_finite s m e) ->
  s = false /\ canonical_mantissa prec emax m e = true /\ e <= 971.
Proof.
  intros [Hn Hv]. cbn in Hn, Hv. unfold bounded in Hv.
  apply andb_prop in Hv as [Hc He]. apply Z.leb_le in He.
  destruct s; [discriminate |]. repeat split; assumption.
Qed.

Lemma round53_top : round53 top = top.
Proof.
  unfold top. rewrite <- (Z.mul_1_l (2 ^ 2098)).
  apply round53_exact; cbn; lia.
Qed.

(** A good double is its own rounding, and at most the top. *)
Lemma good_ord x :
  good x ->
  0 <= ord x <= top /\ round53 (ord x) = ord x /\
  (is_finite x = true -> ord x < top).
Proof.
  intros G.
  assert (Ht : 0 < top) by (unfold top; apply Z.pow_pos_nonneg; lia).
  destruct x as [s | s | | s m e].
  - cbn [ord is_finite]. split; [lia |]. split; [reflexivity | lia].
  - cbn [ord is_finite]. split; [lia |]. split; [apply round53_top |].
    discriminate.
  - destruct G as [G _]. discriminate G.
  - destruct (good_finite_inv s m e G) as (-> & Hc & He).
    destruct (canonical_bounds m e Hc) as (He' & Hd & _).
    pose proof (proj1 (canonical_overflow m e Hc) He) as Hlt.
    cbn [ord is_finite].
    pose proof (Z.pow_pos_nonneg 2 (e + 1074) ltac:(lia) ltac:(lia)).
    split; [lia |]. split; [| intros _; exact Hlt].
    apply round53_exact; lia.
Qed.

Lemma radd_mono N1 N2 : 0 <= N1 -> N1 <= N2 -> radd N1 <= radd N2.
Proof.
  intros H1 H2. unfold radd. pose proof (round53_mono N1 N2 H1 H2). lia.
Qed.

Lemma radd_good x : good x -> radd (ord x) = ord x.
Proof.
  intros G. destruct (good_ord x G) as (B & R & _). unfold radd. lia.
Qed.

Lemma radd_top N : top <= N -> radd N = top.
Proof.
  intros H. unfold radd.
  pose proof (round53_mono top N ltac:(unfold top; apply Z.pow_nonneg; lia) H).
  rewrite round53_top in *. lia.
Qed.

(** The sum of two good doubles is the exact sum, rounded. *)
Lemma nadd_good a b :
  good a -> good b ->
  good (nadd a b) /\ ord (nadd a b) = radd (ord a + ord b).
Proof.
  intros Ga Gb.
  destruct (good_ord a Ga) as (Ba & Ra & Fa).
  destruct (good_ord b Gb) as (Bb & Rb & Fb).
  destruct a as [sa | sa | | sa ma ea]; [| | destruct Ga as [G _]; discriminate G |].
  - (* a = 0 *)
    destruct b as [sb | sb | | sb mb eb];
      [| | destruct Gb as [G _]; discriminate G |].
    + assert (E : exists s, nadd (S754_zero sa) (S754_zero sb) = S754_zero s)
        by (destruct sa, sb; eexists; reflexivity).
      destruct E as [s ->]. split; [split; reflexivity |]. reflexivity.
    + change (nadd (S754_zero sa) (S754_infinity sb)) with (S754_infinity sb).
      split; [exact Gb |]. cbn [ord]. rewrite Z.add_0_l.
      symmetry. now apply radd_top.
    + change (nadd (S754_zero sa) (S754_finite sb mb eb))
        with (S754_finite sb mb eb).
      split; [exact Gb |]. cbn [ord]. rewrite Z.add_0_l.
      symmetry. exact (radd_good _ Gb).
  - (* a = +Infinity *)
    assert (Hs : sa = false) by (destruct Ga as [G _]; destruct sa; [discriminate G | reflexivity]).
    subst sa.
    assert (E : nadd (S754_infinity false) b = S754_infinity false).
    { destruct b as [sb | sb | | sb mb eb]; try reflexivity.
      - destruct Gb as [G _]. destruct sb; [discriminate G | reflexivity].
      - destruct Gb as [G _]; discriminate G. }
    rewrite E. split; [exact Ga |]. cbn [ord]. symmetry. apply radd_top. lia.
  - (* a finite *)
    destruct (good_finite_inv sa ma ea Ga) as (-> & Hca & Hea).
    destruct b as [sb | sb | | sb mb eb];
      [| | destruct Gb as [G _]; discriminate G |].
    + change (nadd (S754_finite false ma ea) (S754_zero sb))
        with (S754_finite false ma ea).
      split; [exact Ga |]. cbn [ord]. rewrite Z.add_0_r.
      symmetry. exact (radd_good _ Ga).
    + change (nadd (S754_finite false ma ea) (S754_infinity sb))
        with (S754_infinity sb).
      split; [exact Gb |]. cbn [ord]. symmetry. apply radd_top. lia.
    + destruct (good_finite_inv sb mb eb Gb) as (-> & Hcb & Heb).
      destruct (canonical_bounds ma ea Hca) as (La & _ & _).
      destruct (canonical_bounds mb eb Hcb) as (Lb & _ & _).
      unfold nadd, SFadd. cbn [cond_Zopp].
      set (ez := Z.min ea eb).
      destruct (shl_align_spec ma ea ez) as [_ Ea].
      destruct (shl_align_spec mb eb ez) as [_ Eb].
      replace (Z.min ea ez) with ez in Ea by lia.
      replace (Z.min eb ez) with ez in Eb by lia.
      rewrite Ea, Eb.
      pose proof (Z.pow_pos_nonneg 2 (ea - ez) ltac:(lia) ltac:(lia)) as Pa.
      pose proof (Z.pow_pos_nonneg 2 (eb - ez) ltac:(lia) ltac:(lia)) as Pb.
      destruct (Z.pos ma * 2 ^ (ea - ez) + Z.pos mb * 2 ^ (eb - ez))
        as [| M | M] eqn:EM; try lia.
      cbn [binary_normalize].
      destruct (binary_round_shape false M ez ltac:(lia))
        as (m2 & e2 & Hord & Hcan & ->).
      assert (HN : Z.pos M * 2 ^ (ez + 1074) =
                   ord (S754_finite false ma ea) + ord (S754_finite false mb eb)).
      { rewrite <- EM. cbn [ord].
        replace (ea + 1074) with (ea - ez + (ez + 1074)) by lia.
        replace (eb + 1074) with (eb - ez + (ez + 1074)) by lia.
        rewrite (Z.pow_add_r 2 (ea - ez) (ez + 1074)),
                (Z.pow_add_r 2 (eb - ez) (ez + 1074)) by lia.
        ring. }
      rewrite HN in Hord.
      pose proof (canonical_overflow m2 e2 Hcan) as Hov.
      unfold radd. destruct (Z.leb_spec e2 971) as [L | G].
      * split.
        -- split; [reflexivity |]. cbn. unfold bounded. rewrite Hcan.
           apply Z.leb_le in L. exact L.
        -- apply Hov in L. cbn [ord] in Hord |- *. lia.
      * split; [split; reflexivity |].
        assert (~ Z.pos m2 * 2 ^ (e2 + 1074) < top)
          by (intros C; apply Hov in C; lia).
        cbn [ord] in Hord |- *. lia.
Qed.

(** The order of good doubles is the order of their values. *)
Lemma canonical_lt m1 e1 m2 e2 :
  canonical_mantissa prec emax m1 e1 = true ->
  canonical_mantissa prec emax m2 e2 = true ->
  e1 < e2 ->
  Z.pos m1 * 2 ^ (e1 + 1074) < Z.pos m2 * 2 ^ (e2 + 1074).
Proof.
  intros H1 H2 L.
  destruct (canonical_bounds m1 e1 H1) as (L1 & D1 & _).
  destruct (canonical_bounds m2 e2 H2) as (L2 & _ & D2).
  specialize (D2 ltac:(lia)).
  pose proof (Zdigits2_bounds (Z.pos m1) ltac:(lia)) as [_ B1].
  pose proof (Zdigits2_bounds (Z.pos m2) ltac:(lia)) as [B2 _].
  rewrite D2 in B2. change (53 - 1) with 52 in B2.
  pose proof (Z.pow_le_mono_r 2 (Zdigits2 (Z.pos m1)) 53 ltac:(lia) D1) as P1.
  pose proof (Z.pow_pos_nonneg 2 (e1 + 1074) ltac:(lia) ltac:(lia)) as Q1.
  pose proof (Z.pow_pos_nonneg 2 (e2 + 1074) ltac:(lia) ltac:(lia)) as Q2.
  assert (S : 2 ^ 53 * 2 ^ (e1 + 1074) <= 2 ^ 52 * 2 ^ (e2 + 1074)).
  { rewrite <- !Z.pow_add_r by lia. apply Z.pow_le_mono_r; lia. }
  pose proof (Z.pow_pos_nonneg 2 53 ltac:(lia) ltac:(lia)).
  pose proof (Z.pow_pos_nonneg 2 52 ltac:(lia) ltac:(lia)).
  nia.
Qed.

Lemma SFleb_ord a b :
  good a -> good b -> (SFleb a b = true <-> ord a <= ord b).
Proof.
  intros Ga Gb.
  destruct (good_ord a Ga) as (Ba & _ & Fa).
  destruct (good_ord b Gb) as (Bb & _ & Fb).
  assert (Ht : 0 < top) by (unfold top; apply Z.pow_pos_nonneg; lia).
  destruct a as [sa | sa | | sa ma ea];
    [| | destruct Ga as [G _]; discriminate G |];
    (destruct b as [sb | sb | | sb mb eb];
     [| | destruct Gb as [G _]; discriminate G |]).
  - cbn. split; [lia | reflexivity].
  - destruct Gb as [G _]. destruct sb; [discriminate G |].
    cbn. split; [lia | reflexivity].
  - destruct (good_finite_inv sb mb eb Gb) as (-> & _ & _).
    cbn [SFleb SFcompare ord] in *. split; [intros _; lia | reflexivity].
  - destruct Ga as [G _]. destruct sa; [discriminate G |].
    cbn [SFleb SFcompare ord]. split; [discriminate | lia].
  - destruct Ga as [G _]. destruct sa; [discriminate G |].
    destruct Gb as [G' _]. destruct sb; [discriminate G' |].
    cbn [SFleb SFcompare ord]. split; [lia | reflexivity].
  - destruct Ga as [G _]. destruct sa; [discriminate G |].
    specialize (Fb eq_refl).
    cbn [SFleb SFcompare ord] in *. split; [discriminate | lia].
  - destruct (good_finite_inv sa ma ea Ga) as (-> & Hca & _).
    destruct (canonical_bounds ma ea Hca) as (La & _ & _).
    pose proof (Z.pow_pos_nonneg 2 (ea + 1074) ltac:(lia) ltac:(lia)).
    cbn [SFleb SFcompare ord]. split; [discriminate | lia].
  - destruct Gb as [G _]. destruct sb; [discriminate G |].
    destruct (good_finite_inv sa ma ea Ga) as (-> & _ & _).
    cbn [SFleb SFcompare ord] in *. split; [lia | reflexivity].
  - destruct (good_finite_inv sa ma ea Ga) as (-> & Hca & _).
    destruct (good_finite_inv sb mb eb Gb) as (-> & Hcb & _).
    destruct (canonical_bounds ma ea Hca) as (La & _ & _).
    pose proof (Z.pow_pos_nonneg 2 (ea + 1074) ltac:(lia) ltac:(lia)).
    cbn [SFleb SFcompare ord].
    destruct (Z.compare_spec ea eb) as [E | L | G].
    + subst eb. change (Pos.compare_cont Eq ma mb) with (Pos.compare ma mb).
      destruct (Pos.compare_spec ma mb) as [E | L | G].
      * subst. split; [lia | reflexivity].
      * split; [nia | reflexivity].
      * split; [discriminate | nia].
    + pose proof (canonical_lt ma ea mb eb Hca Hcb L).
      split; [lia | reflexivity].
    + pose proof (canonical_lt mb eb ma ea Hcb Hca ltac:(lia)).
      split; [discriminate | lia].
Qed.

(** *** A running sum over a part of the terms is at most the running
    sum over all of them *)
Lemma fold_part {A : Type} (f : A -> num) (p : A -> bool) (l : list A) :
  (forall x, In x l -> good (f x)) ->
  forall a' a, good a' -> good a -> ord a' <= ord a ->
    good (fold_left nadd (map f (filter p l)) a') /\
    good (fold_left nadd (map f l) a) /\
    ord (fold_left nadd (map f (filter p l)) a') <=
    ord (fold_left nadd (map f l) a).
Proof.
  induction l as [| x l IH]; intros Hl a' a Ga' Ga Hle; cbn [filter map fold_left].
  - auto.
  - pose proof (Hl x (or_introl eq_refl)) as Gx.
    assert (Hl' : forall y, In y l -> good (f y))
      by (intros y Hy; apply Hl; now right).
    destruct (nadd_good a (f x) Ga Gx) as [G1 O1].
    destruct (good_ord a Ga) as (Ba & _ & _).
    destruct (good_ord a' Ga') as (Ba' & _ & _).
    destruct (good_ord (f x) Gx) as (Bx & _ & _).
    destruct (p x); cbn [map fold_left].
    + destruct (nadd_good a' (f x) Ga' Gx) as [G1' O1'].
      apply IH; try assumption.
      rewrite O1, O1'. apply radd_mono; lia.
    + apply IH; try assumption.
      rewrite O1, <- (radd_good a' Ga'). apply radd_mono; lia.
Qed.

Lemma value_ord x :
  good x -> is_finite x = true ->
  (value x == inject_Z (ord x) * Qpower 2 (-1074))%Q.
Proof.
  intros G F. destruct x as [s | s | | s m e]; try discriminate F.
  - cbn [value ord]. change (inject_Z 0) with 0%Q. ring.
  - destruct (good_finite_inv s m e G) as (-> & Hc & _).
    destruct (canonical_bounds m e Hc) as (L & _ & _).
    cbn [value ord]. rewrite inject_Z_mult, Zpower_Qpower by lia.
    change (inject_Z 2) with 2%Q.
    replace e with ((e + 1074) + (-1074)) at 1 by lia.
    rewrite Qpower_plus by discriminate. ring.
Qed.

Lemma value_le a b :
  good a -> good b -> is_finite a = true -> is_finite b = true ->
  ord a <= ord b -> (value a <= value b)%Q.
Proof.
  intros Ga Gb Fa Fb H.
  rewrite (value_ord a Ga Fa), (value_ord b Gb Fb).
  apply Qmult_le_compat_r.
  - rewrite <- Zle_Qle. exact H.
  - apply Qpower_0_le. discriminate.
Qed.

Lemma nadd_finite a b :
  is_finite (nadd a b) = true -> is_finite a = true /\ is_finite b = true.
Proof.
  destruct a as [sa | sa | | sa ma ea], b as [sb | sb | | sb mb eb];
    cbn; auto; try discriminate.
  - destruct sa, sb; discriminate.
Qed.

(** ** The summary reduction *)

Import JSValue Store SummarySpec.

Lemma add_to_or0 acc v : add_to acc (or0 v) = nadd acc (number_or_zero v).
Proof. reflexivity. Qed.

(** The loop over the client entries of one time entry: each total goes on
    from where it was, adding from left to right. *)
Lemma fold_add_client l : forall acc,
  fold_left add_client l acc =
  {| totalHours := totalHours acc;
     totalCommissions :=
       fold_left nadd (map (fun c => number_or_zero (amount_earned c)) l)
                 (totalCommissions acc);
     totalTips :=
       fold_left nadd (map (fun c => number_or_zero (tip_amount c)) l)
                 (totalTips acc);
     totalCashTips :=
       fold_left nadd (map (fun c => number_or_zero (tip_amount c))
                           (received_cash l))
                 (totalCashTips acc);
     totalProductCommissions := totalProductCommissions acc |}.
Proof.
  induction l as [| c l IH]; intros acc.
  - destruct acc; reflexivity.
  - cbn [fold_left]. rewrite IH. unfold add_client at 1 2 3 4 5.
    cbn [totalHours totalCommissions totalTips totalCashTips
         totalProductCommissions map].
    unfold received_cash. cbn [filter].
    destruct (truthy (tip_received_cash c)); reflexivity.
Qed.

(** The loop over the product sales of one time entry. *)
Lemma fold_add_sale l : forall acc,
  fold_left add_sale l acc =
  {| totalHours := totalHours acc;
     totalCommissions := totalCommissions acc;
     totalTips := totalTips acc;
     totalCashTips := totalCashTips acc;
     totalProductCommissions :=
       fold_left nadd (map (fun s => number_or_zero (commission_amount s)) l)
                 (totalProductCommissions acc) |}.
Proof.
  induction l as [| s l IH]; intros acc.
  - destruct acc; reflexivity.
  - cbn [fold_left]. rewrite IH. reflexivity.
Qed.

Lemma received_cash_app l1 l2 :
  received_cash (l1 ++ l2) = received_cash l1 ++ received_cash l2.
Proof. apply filter_app. Qed.

(** The loop over the time entries. *)
Lemma fold_add_entry d entries : forall acc,
  fold_left (add_entry d) entries acc =
  {| totalHours :=
       fold_left nadd (map (fun e => ToNumber (hours e)) entries)
                 (totalHours acc);
     totalCommissions :=
       fold_left nadd (map (fun c => number_or_zero (amount_earned c))
                           (all_clients d entries))
                 (totalCommissions acc);
     totalTips :=
       fold_left nadd (map (fun c => number_or_zero (tip_amount c))
                           (all_clients d entries))
                 (totalTips acc);
     totalCashTips :=
       fold_left nadd (map (fun c => number_or_zero (tip_amount c))
                           (received_cash (all_clients d entries)))
                 (totalCashTips acc);
     totalProductCommissions :=
       fold_left nadd (map (fun s => number_or_zero (commission_amount s))
                           (all_sales d entries))
                 (totalProductCommissions acc) |}.
Proof.
  induction entries as [| e entries IH]; intros acc.
  - destruct acc; reflexivity.
  - cbn [fold_left]. rewrite IH. unfold add_entry.
    rewrite fold_add_sale, fold_add_client.
    cbn [totalHours totalCommissions totalTips totalCashTips
         totalProductCommissions].
    unfold all_clients, all_sales. cbn [flat_map map].
    rewrite received_cash_app, !map_app, !fold_left_app.
    reflexivity.
Qed.

Lemma summarize_totals_eq d emp entries :
  let s := summarize d emp entries in
  let t := sum_totals s in
  totalHours t = sum_num (map (fun e => ToNumber (hours e)) entries) /\
  totalWages s =
    nmul (totalHours t)
         (number_or_zero (match emp with
                          | Some e => hourly_wage e
                          | None => JUndefined
                          end)) /\
  totalCommissions t =
    sum_num (map (fun c => number_or_zero (amount_earned c))
                 (all_clients d entries)) /\
  totalTips t =
    sum_num (map (fun c => number_or_zero (tip_amount c))
                 (all_clients d entries)) /\
  totalCashTips t =
    sum_num (map (fun c => number_or_zero (tip_amount c))
                 (filter (fun c => truthy (tip_received_cash c))
                         (all_clients d entries))) /\
  totalProductCommissions t =
    sum_num (map (fun s => number_or_zero (commission_amount s))
                 (all_sales d entries)) /\
  totalPayable s =
    nsub (nadd (nadd (nadd (totalWages s) (totalCommissions t)) (totalTips t))
               (totalProductCommissions t))
         (totalCashTips t).
Proof.
  cbv zeta. unfold summarize.
  cbn [sum_totals totalWages totalPayable].
  rewrite fold_add_entry.
  cbn [totalHours totalCommissions totalTips totalCashTips
       totalProductCommissions zero_totals].
  repeat split; reflexivity.
Qed.

(** C1: for every store, every employee row (or none) and every list of
    time entries, the summary has (each sum added in doubles from left to
    right, in the order of the rows): total hours = the sum of the hours of
    the entries; total wages = total hours times the hourly wage of the employee
    (zero when missing); total commissions = the sum of [amount_earned] over
    all client entries of the entries; total tips = the sum of [tip_amount]
    over them; total cash tips = the sum of [tip_amount] over exactly those
    with [tip_received_cash] true; total product commissions = the sum of
    [commission_amount] over all product sales of the entries; and total
    payable = wages + commissions + tips + product commissions - cash
    tips. *)
Theorem summarize_totals d emp entries :
  let s := summarize d emp entries in
  let t := sum_totals s in
  totalHours t = sum_num (map (fun e => ToNumber (hours e)) entries) /\
  totalWages s =
    nmul (totalHours t)
         (number_or_zero (match emp with
                          | Some e => hourly_wage e
                          | None => JUndefined
                          end)) /\
  totalCommissions t =
    sum_num (map (fun c => number_or_zero (amount_earned c))
                 (all_clients d entries)) /\
  totalTips t =
    sum_num (map (fun c => number_or_zero (tip_amount c))
                 (all_clients d entries)) /\
  totalCashTips t =
    sum_num (map (fun c => number_or_zero (tip_amount c))
                 (filter (fun c => truthy (tip_received_cash c))
                         (all_clients d entries))) /\
  totalProductCommissions t =
    sum_num (map (fun s => number_or_zero (commission_amount s))
                 (all_sales d entries)) /\
  totalPayable s =
    nsub (nadd (nadd (nadd (totalWages s) (totalCommissions t)) (totalTips t))
               (totalProductCommissions t))
         (totalCashTips t).
Proof.
  cbv zeta. unfold summarize.
  cbn [sum_totals totalWages totalPayable].
  rewrite fold_add_entry.
  cbn [totalHours totalCommissions totalTips totalCashTips
       totalProductCommissions zero_totals].
  repeat split; reflexivity.
Qed.
(** *** Missing fields *)






Lemma filter_map_commute {A : Type} (f : A -> A) (p : A -> bool) (l : list A) :
  (forall x, p (f x) = p x) ->
  filter p (map f l) = map f (filter p l).
Proof.
  intros H. induction l as [| x l IH]; cbn [map filter]; [reflexivity |].
  rewrite H. destruct (p x); cbn [map]; now rewrite IH.
Qed.









(** ** Invoice submission *)

Lemma invoice_matches_iff e ps pe i :
  invoice_matches e ps pe i = true <->
  invoice_employee_id i = e /\ pay_period_start i = ps /\
  pay_period_end i = pe.
Proof.
  unfold invoice_matches. rewrite !andb_true_iff, Z.eqb_eq, !String.eqb_eq.
  tauto.
Qed.

Lemma getOne_filter_Some {A : Type} (p : A -> bool) (l : list A) :
  (exists r, getOne (filter p l) = Some r) <->
  (exists x, In x l /\ p x = true).
Proof.
  split.
  - intros [r H]. destruct (filter p l) as [| x rest] eqn:E; [discriminate |].
    exists x. apply filter_In. rewrite E. now left.
  - intros (x & Hin & Hp).
    assert (Hx : In x (filter p l)) by (apply filter_In; auto).
    destruct (filter p l) as [| y rest]; [contradiction |].
    exists y. reflexivity.
Qed.

Lemma fetch_one_filter_Some {A : Type} (b : backend) (p : A -> bool)
      (l : list A) :
  (b = Supabase -> (List.length (filter p l) <= 1)%nat) ->
  (exists r, fetch_one b (filter p l) = Some r) <->
  (exists x, In x l /\ p x = true).
Proof.
  intros Hb. destruct b; cbn [fetch_one].
  - apply getOne_filter_Some.
  - rewrite <- getOne_filter_Some. specialize (Hb eq_refl).
    destruct (filter p l) as [| x [| y rest]]; cbn in *;
      try tauto; lia.
Qed.

Lemma fetch_one_In {A : Type} (b : backend) (l : list A) r :
  fetch_one b l = Some r -> In r l.
Proof.
  destruct b, l as [| x [| y rest]]; cbn; intros H;
    try discriminate; injection H as <-; now left.
Qed.



(** ** Deletion of a time entry *)

(** C8: when the ownership check finds the entry, the route runs three
    statements in this order: delete the product sales of the entry, delete
    its client entries, delete the entry.  After the first two no child row
    of the entry is left while the table of entries is still whole, so the
    children go before the parent.  At the end no product sale, client
    entry or time entry with that id remains; the rows of other time
    entries, in their order, the invoices and the employees are as
    before. *)
Theorem delete_time_entry_cascade b d id employeeId entry :
  fetch_one b (filter (fun e => (entry_id e =? id)
                                && (entry_employee_id e =? employeeId))
                      (time_entries d)) = Some entry ->
  let stmts := fst (fst (delete_time_entry b d id employeeId)) in
  let d' := snd (fst (delete_time_entry b d id employeeId)) in
  let d2 := fold_left run_statement (firstn 2 stmts) d in
  snd (delete_time_entry b d id employeeId) = Deleted /\
  stmts = [DeleteProductSales id; DeleteClientEntries id; DeleteTimeEntry id] /\
  (sales_of d2 id = [] /\ clients_of d2 id = [] /\
   time_entries d2 = time_entries d) /\
  product_sales d' =
    filter (fun s => negb (sale_time_entry_id s =? id)) (product_sales d) /\
  client_entries d' =
    filter (fun c => negb (client_time_entry_id c =? id)) (client_entries d) /\
  time_entries d' =
    filter (fun e => negb (entry_id e =? id)) (time_entries d) /\
  (forall s, In s (product_sales d') <->
             In s (product_sales d) /\ sale_time_entry_id s <> id) /\
  (forall c, In c (client_entries d') <->
             In c (client_entries d) /\ client_time_entry_id c <> id) /\
  (forall e, In e (time_entries d') <->
             In e (time_entries d) /\ entry_id e <> id) /\
  invoices d' = invoices d /\ employees d' = employees d.
Proof.
  intros Hown. unfold delete_time_entry. rewrite Hown.
  cbn [fst snd firstn fold_left run_statement product_sales client_entries
       time_entries invoices employees].
  assert (Hnone : forall (A : Type) (key : A -> Z) (l : list A),
             filter (fun x => key x =? id)
                    (filter (fun x => negb (key x =? id)) l) = []).
  { intros A key l. induction l as [| x l IH]; cbn [filter]; [reflexivity |].
    destruct (key x =? id) eqn:E; cbn [negb filter]; [exact IH |].
    now rewrite E. }
  assert (Hin : forall (A : Type) (key : A -> Z) (l : list A) x,
             In x (filter (fun x => negb (key x =? id)) l) <->
             In x l /\ key x <> id).
  { intros A key l x. rewrite filter_In, negb_true_iff, Z.eqb_neq. tauto. }
  split; [reflexivity |]. split; [reflexivity |]. split.
  { unfold sales_of, clients_of. cbn [product_sales client_entries time_entries].
    split; [apply Hnone |]. split; [apply Hnone | reflexivity]. }
  split; [reflexivity |]. split; [reflexivity |]. split; [reflexivity |].
  split; [intros s; apply Hin |]. split; [intros c; apply Hin |].
  split; [intros e; apply Hin |]. split; reflexivity.
Qed.

Lemma delete_time_entry_cascade_witness :
  fetch_one SqlJs (filter (fun e => (entry_id e =? 3)
                                    && (entry_employee_id e =? 7))
                          (time_entries example_db)) = Some example_entry /\
  snd (delete_time_entry SqlJs example_db 3 7) = Deleted /\
  invoices (snd (fst (delete_time_entry SqlJs example_db 3 7)))
  = invoices example_db.
Proof.
  assert (H : fetch_one SqlJs
                (filter (fun e => (entry_id e =? 3)
                                  && (entry_employee_id e =? 7))
                        (time_entries example_db)) = Some example_entry)
    by reflexivity.
  split; [exact H |].
  pose proof (delete_time_entry_cascade SqlJs example_db 3 7 example_entry H)
    as G.
  cbv zeta in G. split; [apply G |].
  apply G.
Defined.

(** ** Cash tips *)

Lemma nsub_finite a b :
  is_finite (nsub a b) = true -> is_finite a = true /\ is_finite b = true.
Proof.
  destruct a as [sa | sa | | sa ma ea], b as [sb | sb | | sb mb eb];
    cbn; auto; try discriminate.
  - destruct sa, sb; discriminate.
Qed.

Lemma good_zero : good zero.
Proof. split; reflexivity. Qed.

(** Cash tips are a part of the tips. *)
Lemma cash_tips_le_tips (l : list client_entry) :
  (forall c, In c l -> nonneg_amount (tip_amount c)) ->
  let cash := sum_num (map (fun c => number_or_zero (tip_amount c))
                           (received_cash l)) in
  let tips := sum_num (map (fun c => number_or_zero (tip_amount c)) l) in
  good cash /\ good tips /\ ord cash <= ord tips.
Proof.
  intros H. cbv zeta. unfold sum_num, received_cash.
  apply (fold_part (fun c => number_or_zero (tip_amount c))
                   (fun c => truthy (tip_received_cash c)) l H);
    try apply good_zero. lia.
Qed.

(** C10 (amended): when no tip amount among the client entries of the
    entries is negative, total cash tips are at most total tips.  Total
    payable is computed in doubles as
    (((wages + commissions) + tips) + product commissions) - cash tips, and
    each operation rounds: when none of the four rounds, total payable is
    at least the sum of wages, commissions and product commissions. *)
Theorem cash_tips_never_reduce_below_base d emp entries :
  (forall c, In c (all_clients d entries) -> nonneg_amount (tip_amount c)) ->
  let s := summarize d emp entries in
  let t := sum_totals s in
  nle (totalCashTips t) (totalTips t) = true /\
  (payable_is_exact s ->
   (value (totalWages s) + value (totalCommissions t)
    + value (totalProductCommissions t) <= value (totalPayable s))%Q).
Proof.
  intros H s t.
  destruct (summarize_totals_eq d emp entries) as (_ & _ & _ & ET & EC & _ & EP).
  fold s t in ET, EC, EP.
  destruct (cash_tips_le_tips _ H) as (Gc & Gt & Hle).
  cbv zeta in Gc, Gt, Hle. unfold received_cash in Gc, Hle.
  rewrite <- EC in Gc, Hle. rewrite <- ET in Gt, Hle.
  split; [now apply SFleb_ord |].
  unfold payable_is_exact. fold t. rewrite <- EP.
  intros ([F1 V1] & [F2 V2] & [F3 V3] & [F4 V4]).
  rewrite EP in F4.
  destruct (nsub_finite _ _ F4) as [_ Fc].
  destruct (nadd_finite _ _ F2) as [_ Ft].
  pose proof (value_le _ _ Gc Gt Fc Ft Hle) as Hv.
  rewrite V4, V3, V2, V1. lra.
Qed.

Lemma cash_tips_never_reduce_below_base_witness :
  (forall c, In c (all_clients example_db [example_entry]) ->
             nonneg_amount (tip_amount c)) /\
  payable_is_exact (summarize example_db (Some example_employee)
                              [example_entry]) /\
  nle (totalCashTips (sum_totals (summarize example_db (Some example_employee)
                                            [example_entry])))
      (totalTips (sum_totals (summarize example_db (Some example_employee)
                                        [example_entry]))) = true.
Proof.
  assert (H : forall c, In c (all_clients example_db [example_entry]) ->
                        nonneg_amount (tip_amount c)).
  { intros c [<- | []]. split; reflexivity. }
  split; [exact H |]. split.
  { repeat split; vm_compute; reflexivity. }
  exact (proj1 (cash_tips_never_reduce_below_base
                  example_db (Some example_employee) [example_entry] H)).
Defined.

(** C10, as stated, fails by rounding: with wages of 127.5 (8.5 hours at
    15) and one tip of 0.7 received in cash, total payable is
    ((127.5 + 0) + 0.7 + 0) - 0.7 = 127.49999999999999, less than the
    wages, although no tip is negative and cash tips equal tips. *)
Lemma rounding_reduces_below_base :
  let s := summarize tip_db (Some tip_employee) [tip_entry] in
  let t := sum_totals s in
  (forall c, In c (all_clients tip_db [tip_entry]) ->
             nonneg_amount (tip_amount c)) /\
  totalWages s = dec 1275 1 /\
  totalCommissions t = zero /\ totalProductCommissions t = zero /\
  totalTips t = dec 7 1 /\ totalCashTips t = dec 7 1 /\
  totalPayable s = S754_finite false 8972014882652159 (-46) /\
  nlt (totalPayable s)
      (nadd (nadd (totalWages s) (totalCommissions t))
            (totalProductCommissions t)) = true.
Proof.
  cbv zeta. split.
  { intros c [<- | []]. split; reflexivity. }
  repeat split; vm_compute; reflexivity.
Qed.

(** ** Further properties of the routes *)

Import Routes StoreSpec.

Lemma invoice_matches_mark_emailed e ps pe id i :
  invoice_matches e ps pe (mark_emailed id i) = invoice_matches e ps pe i.
Proof.
  unfold mark_emailed. destruct (invoice_id i =? id); reflexivity.
Qed.

Lemma filter_length_map {A : Type} (f : A -> A) (p : A -> bool) (l : list A) :
  (forall x, p (f x) = p x) ->
  List.length (filter p (map f l)) = List.length (filter p l).
Proof.
  intros H. rewrite (filter_map_commute f p l H). apply length_map.
Qed.

Lemma fetch_one_None_empty {A : Type} (b : backend) (l : list A) :
  (b = Supabase -> (List.length l <= 1)%nat) ->
  fetch_one b l = None -> l = [].
Proof.
  intros Hb H. destruct b; cbn in H.
  - destruct l; [reflexivity | discriminate].
  - specialize (Hb eq_refl).
    destruct l as [| x [| y rest]]; cbn in *; try reflexivity;
      try discriminate; lia.
Qed.

Lemma invoice_id_below_next d i :
  In i (invoices d) -> invoice_id i < next_invoice_id d.
Proof.
  unfold next_invoice_id. induction (invoices d) as [| x l IH]; cbn [In map fold_right].
  - contradiction.
  - intros [-> | H]; [lia |]. specialize (IH H). lia.
Qed.

Lemma mark_emailed_fresh d :
  map (mark_emailed (next_invoice_id d)) (invoices d) = invoices d.
Proof.
  rewrite <- (map_id (invoices d)) at 2. apply map_ext_in.
  intros i Hi. unfold mark_emailed.
  pose proof (invoice_id_below_next d i Hi).
  destruct (Z.eqb_spec (invoice_id i) (next_invoice_id d)); [lia | reflexivity].
Qed.

(** What a submission does once the check has found no invoice and the
    store has accepted the row. *)
Lemma submit_invoice_accepted b email_ok d r :
  existing_invoice b d (req_employeeId r) (req_periodStart r)
                   (req_periodEnd r) = None ->
  submit_invoice b true email_ok d r =
  (with_invoices d
     (invoices d ++
      [created_invoice (next_invoice_id d) r
                       (totals_printable r && email_ok)]),
   if totals_printable r then Submitted (next_invoice_id d) email_ok
   else Unanswered TypeError).
Proof.
  intros H. unfold submit_invoice. rewrite H.
  destruct (totals_printable r); [| reflexivity].
  destruct email_ok; [| reflexivity].
  cbn [with_invoices invoices andb]. f_equal. unfold with_invoices.
  cbn [employees time_entries client_entries product_sales invoices].
  f_equal. rewrite map_app, mark_emailed_fresh. cbn [map]. f_equal.
  unfold mark_emailed. cbn [invoice_id]. rewrite Z.eqb_refl. reflexivity.
Qed.

(** X1: When the check finds no invoice and the store accepts the row, the
    submission route adds one invoice with the values of the request under
    an id no invoice had, and touches nothing else.  When every total of
    the request is a number it answers with the id and with whether the
    mail was sent, and the row is marked as mailed exactly when it was.
    When a total of the request is undefined, null or a boolean, the
    handler throws a TypeError while printing it: the row stays, unmarked,
    and no answer is sent. *)
Theorem submit_invoice_adds_one_invoice b email_ok d r :
  existing_invoice b d (req_employeeId r) (req_periodStart r)
                   (req_periodEnd r) = None ->
  let d' := fst (submit_invoice b true email_ok d r) in
  let id := next_invoice_id d in
  invoices d' =
    invoices d ++ [created_invoice id r (totals_printable r && email_ok)] /\
  (forall i, In i (invoices d) -> invoice_id i <> id) /\
  employees d' = employees d /\ time_entries d' = time_entries d /\
  client_entries d' = client_entries d /\ product_sales d' = product_sales d /\
  snd (submit_invoice b true email_ok d r) =
    if totals_printable r then Submitted id email_ok
    else Unanswered TypeError.
Proof.
  intros H. cbv zeta. rewrite (submit_invoice_accepted b email_ok d r H).
  cbn [fst snd with_invoices invoices employees time_entries client_entries
       product_sales].
  repeat split; try reflexivity.
  intros i Hi. pose proof (invoice_id_below_next d i Hi). lia.
Qed.

Lemma submit_invoice_adds_one_invoice_witness :
  existing_invoice SqlJs example_db (req_employeeId other_request)
                   (req_periodStart other_request)
                   (req_periodEnd other_request) = None /\
  snd (submit_invoice SqlJs true false example_db other_request)
  = Submitted 2 false.
Proof.
  assert (H : existing_invoice SqlJs example_db (req_employeeId other_request)
                (req_periodStart other_request)
                (req_periodEnd other_request) = None) by reflexivity.
  split; [exact H |].
  destruct (submit_invoice_adds_one_invoice SqlJs false example_db
              other_request H) as (_ & _ & _ & _ & _ & _ & E).
  exact E.
Defined.

Lemma submit_invoice_unique_keys b insert_ok email_ok d r :
  unique_invoice_keys d ->
  unique_invoice_keys (fst (submit_invoice b insert_ok email_ok d r)).
Proof.
  intros Hu e ps pe. unfold at_most_one_invoice.
  destruct (existing_invoice b d (req_employeeId r) (req_periodStart r)
                             (req_periodEnd r)) as [i |] eqn:E.
  - unfold submit_invoice. rewrite E. apply Hu.
  - destruct insert_ok.
    + rewrite (submit_invoice_accepted b email_ok d r E).
      cbn [fst with_invoices invoices].
      rewrite filter_app, length_app. cbn [filter].
      destruct (invoice_matches e ps pe
                  (created_invoice (next_invoice_id d) r
                                   (totals_printable r && email_ok))) eqn:M.
      * apply invoice_matches_iff in M.
        cbn [created_invoice invoice_employee_id pay_period_start
             pay_period_end] in M.
        destruct M as (<- & <- & <-).
        unfold existing_invoice in E.
        rewrite (fetch_one_None_empty b _ (fun _ => Hu _ _ _) E).
        cbn. lia.
      * cbn [List.length]. pose proof (Hu e ps pe) as H.
        unfold at_most_one_invoice in H. lia.
    + unfold submit_invoice. rewrite E. apply Hu.
Qed.



(** X3: After an accepted submission, a second submission for the same
    employee and period is answered "already submitted" and changes
    nothing. *)
Theorem submit_invoice_twice b email_ok insert_ok' email_ok' d r r' :
  unique_invoice_keys d ->
  existing_invoice b d (req_employeeId r) (req_periodStart r)
                   (req_periodEnd r) = None ->
  req_employeeId r' = req_employeeId r ->
  req_periodStart r' = req_periodStart r ->
  req_periodEnd r' = req_periodEnd r ->
  let d1 := fst (submit_invoice b true email_ok d r) in
  submit_invoice b insert_ok' email_ok' d1 r' = (d1, AlreadySubmitted).
Proof.
  intros Hu E He Hs Hp d1.
  assert (Hu1 : unique_invoice_keys d1)
    by (apply submit_invoice_unique_keys; exact Hu).
  assert (Hex : exists i,
             existing_invoice b d1 (req_employeeId r') (req_periodStart r')
                              (req_periodEnd r') = Some i).
  { unfold existing_invoice. apply fetch_one_filter_Some.
    - intros _. apply Hu1.
    - exists (created_invoice (next_invoice_id d) r
                             (totals_printable r && email_ok)). split.
      + subst d1. rewrite (submit_invoice_accepted b email_ok d r E).
        cbn [fst with_invoices invoices]. apply in_or_app. right. now left.
      + apply invoice_matches_iff. cbn. auto. }
  destruct Hex as [i Hi]. unfold submit_invoice at 1. now rewrite Hi.
Qed.

Lemma submit_invoice_twice_witness :
  unique_invoice_keys empty_db /\
  existing_invoice Supabase empty_db (req_employeeId example_request)
                   (req_periodStart example_request)
                   (req_periodEnd example_request) = None /\
  submit_invoice Supabase true true
    (fst (submit_invoice Supabase true false empty_db example_request))
    example_request =
  (fst (submit_invoice Supabase true false empty_db example_request),
   AlreadySubmitted).
Proof.
  assert (H : unique_invoice_keys empty_db).
  { intros e ps pe. unfold at_most_one_invoice. cbn. lia. }
  assert (E : existing_invoice Supabase empty_db
                (req_employeeId example_request)
                (req_periodStart example_request)
                (req_periodEnd example_request) = None) by reflexivity.
  split; [exact H |]. split; [exact E |].
  exact (submit_invoice_twice Supabase false true true empty_db
           example_request example_request H E eq_refl eq_refl eq_refl).
Defined.

(** X4: When two or more invoices already have the key of the request, the
    check of server.js finds one and answers "already submitted", while
    the check of the Supabase server, which asks for a single row, finds
    none: when the store accepts the row, that version adds another invoice
    and does not answer "already submitted" (it answers success when every
    total of the request is a number, and throws while printing them
    otherwise). *)
Theorem submit_invoice_on_duplicates email_ok d r :
  (2 <= List.length (filter (invoice_matches (req_employeeId r)
                               (req_periodStart r) (req_periodEnd r))
                            (invoices d)))%nat ->
  submit_invoice SqlJs true email_ok d r = (d, AlreadySubmitted) /\
  existing_invoice Supabase d (req_employeeId r) (req_periodStart r)
                   (req_periodEnd r) = None /\
  snd (submit_invoice Supabase true email_ok d r) =
    (if totals_printable r then Submitted (next_invoice_id d) email_ok
     else Unanswered TypeError) /\
  List.length (invoices (fst (submit_invoice Supabase true email_ok d r)))
  = S (List.length (invoices d)).
Proof.
  intros H.
  assert (ES : existing_invoice Supabase d (req_employeeId r)
                 (req_periodStart r) (req_periodEnd r) = None).
  { unfold existing_invoice.
    destruct (filter _ (invoices d)) as [| x [| y rest]]; cbn in *;
      try lia; reflexivity. }
  split; [| split; [exact ES | split]].
  - unfold submit_invoice, existing_invoice.
    destruct (filter _ (invoices d)) as [| x rest]; cbn in *;
      [lia | reflexivity].
  - now rewrite (submit_invoice_accepted Supabase email_ok d r ES).
  - rewrite (submit_invoice_accepted Supabase email_ok d r ES).
    cbn [fst with_invoices invoices]. rewrite length_app. cbn. lia.
Qed.

Lemma submit_invoice_on_duplicates_witness :
  (2 <= List.length (filter (invoice_matches (req_employeeId example_request)
                               (req_periodStart example_request)
                               (req_periodEnd example_request))
                            (invoices duplicated_db)))%nat /\
  submit_invoice SqlJs true false duplicated_db example_request
  = (duplicated_db, AlreadySubmitted) /\
  snd (submit_invoice Supabase true false duplicated_db example_request)
  = Submitted 2 false.
Proof.
  assert (H : (2 <= List.length
                      (filter (invoice_matches (req_employeeId example_request)
                                 (req_periodStart example_request)
                                 (req_periodEnd example_request))
                              (invoices duplicated_db)))%nat)
    by (vm_compute; apply le_n).
  split; [exact H |].
  destruct (submit_invoice_on_duplicates false duplicated_db
              example_request H) as (A & _ & B & _).
  split; [exact A | exact B].
Defined.

(** ** Deleting and creating time entries *)

Lemma filter_eq_after_delete {A : Type} (key : A -> Z) (id id' : Z)
      (l : list A) :
  id' <> id ->
  filter (fun x => key x =? id') (filter (fun x => negb (key x =? id)) l) =
  filter (fun x => key x =? id') l.
Proof.
  intros Hne. induction l as [| x l IH]; cbn [filter]; [reflexivity |].
  destruct (Z.eqb_spec (key x) id) as [E | E]; cbn [negb filter].
  - destruct (Z.eqb_spec (key x) id'); [lia | exact IH].
  - now rewrite IH.
Qed.

Lemma fold_left_ext_in {A B : Type} (f g : A -> B -> A) (l : list B) :
  (forall a x, In x l -> f a x = g a x) ->
  forall a, fold_left f l a = fold_left g l a.
Proof.
  induction l as [| x l IH]; intros H a; cbn [fold_left]; [reflexivity |].
  rewrite (H a x (or_introl eq_refl)). apply IH.
  intros a' y Hy. apply H. now right.
Qed.

(** The summary reads the store only through the children of its
    entries. *)
Lemma summarize_same_children d d' emp entries :
  (forall e, In e entries ->
             clients_of d' (entry_id e) = clients_of d (entry_id e) /\
             sales_of d' (entry_id e) = sales_of d (entry_id e)) ->
  summarize d' emp entries = summarize d emp entries.
Proof.
  intros H. unfold summarize.
  rewrite (fold_left_ext_in (add_entry d') (add_entry d) entries);
    [reflexivity |].
  intros a e He. unfold add_entry. destruct (H e He) as [-> ->]. reflexivity.
Qed.

(** X5: Without a time entry of that id owned by the employee, the deletion
    route answers "not authorized", runs no statement and leaves the store
    as it is. *)
Theorem delete_time_entry_not_owned b d id employeeId :
  (forall e, In e (time_entries d) ->
             entry_id e = id -> entry_employee_id e <> employeeId) ->
  delete_time_entry b d id employeeId = ([], d, NotAuthorized).
Proof.
  intros H. unfold delete_time_entry.
  assert (E : filter (fun e => (entry_id e =? id)
                               && (entry_employee_id e =? employeeId))
                     (time_entries d) = []).
  { induction (time_entries d) as [| e l IH]; cbn [filter]; [reflexivity |].
    destruct (Z.eqb_spec (entry_id e) id) as [Ei | Ei]; cbn [andb].
    - destruct (Z.eqb_spec (entry_employee_id e) employeeId) as [Ee | Ee].
      + exfalso. exact (H e (or_introl eq_refl) Ei Ee).
      + apply IH. intros e' He'. apply H. now right.
    - apply IH. intros e' He'. apply H. now right. }
  rewrite E. destruct b; reflexivity.
Qed.

Lemma delete_time_entry_not_owned_witness :
  (forall e, In e (time_entries example_db) ->
             entry_id e = 3 -> entry_employee_id e <> 8) /\
  delete_time_entry Supabase example_db 3 8 = ([], example_db, NotAuthorized).
Proof.
  assert (H : forall e, In e (time_entries example_db) ->
                        entry_id e = 3 -> entry_employee_id e <> 8).
  { intros e [<- | [<- | []]]; cbn; intros; discriminate. }
  split; [exact H |].
  exact (delete_time_entry_not_owned Supabase example_db 3 8 H).
Defined.

(** X6: Whatever the deletion route does, the summary of entries other than
    the deleted one is unchanged. *)
Theorem delete_time_entry_keeps_other_summaries b d id employeeId emp entries :
  (forall e, In e entries -> entry_id e <> id) ->
  summarize (snd (fst (delete_time_entry b d id employeeId))) emp entries =
  summarize d emp entries.
Proof.
  intros H. unfold delete_time_entry.
  destruct (fetch_one b _); cbn [fst snd]; [| reflexivity].
  apply summarize_same_children. intros e He.
  unfold clients_of, sales_of.
  cbn [fold_left run_statement client_entries product_sales].
  split; apply filter_eq_after_delete; exact (H e He).
Qed.

Lemma delete_time_entry_keeps_other_summaries_witness :
  (forall e, In e [example_entry] -> entry_id e <> 4) /\
  summarize (snd (fst (delete_time_entry SqlJs example_db 4 8)))
            (Some example_employee) [example_entry] =
  summarize example_db (Some example_employee) [example_entry].
Proof.
  assert (H : forall e, In e [example_entry] -> entry_id e <> 4).
  { intros e [<- | []]. cbn. discriminate. }
  split; [exact H |].
  exact (delete_time_entry_keeps_other_summaries SqlJs example_db 4 8
           (Some example_employee) [example_entry] H).
Defined.


Lemma filter_filter_same {A : Type} (p : A -> bool) (l : list A) :
  filter p (filter p l) = filter p l.
Proof.
  induction l as [| x l IH]; cbn [filter]; [reflexivity |].
  destruct (p x) eqn:E; cbn [filter]; rewrite ?E, IH; reflexivity.
Qed.

Lemma filter_all_true {A : Type} (p : A -> bool) (l : list A) :
  (forall x, In x l -> p x = true) -> filter p l = l.
Proof.
  intros H. induction l as [| x l IH]; cbn [filter]; [reflexivity |].
  rewrite (H x (or_introl eq_refl)). f_equal. apply IH.
  intros y Hy. apply H. now right.
Qed.

(** X7: The deletion of the administrator runs the same three statements
    without a check: it is the store the employee's route leaves when the
    check passes, deleting twice is deleting once, and deleting an id that
    no row carries changes nothing. *)
Theorem admin_delete_time_entry_properties d id :
  (forall b employeeId entry,
     fetch_one b (filter (fun e => (entry_id e =? id)
                                   && (entry_employee_id e =? employeeId))
                         (time_entries d)) = Some entry ->
     snd (fst (delete_time_entry b d id employeeId))
     = admin_delete_time_entry d id) /\
  admin_delete_time_entry (admin_delete_time_entry d id) id
  = admin_delete_time_entry d id /\
  ((forall e, In e (time_entries d) -> entry_id e <> id) ->
   (forall c, In c (client_entries d) -> client_time_entry_id c <> id) ->
   (forall s, In s (product_sales d) -> sale_time_entry_id s <> id) ->
   admin_delete_time_entry d id = d).
Proof.
  split; [| split].
  - intros b employeeId entry H. unfold delete_time_entry. rewrite H.
    reflexivity.
  - unfold admin_delete_time_entry.
    cbn [fold_left run_statement employees time_entries client_entries
         product_sales invoices].
    now rewrite !filter_filter_same.
  - intros He Hc Hs. unfold admin_delete_time_entry.
    cbn [fold_left run_statement employees time_entries client_entries
         product_sales invoices].
    rewrite !filter_all_true; [destruct d; reflexivity | | |];
      intros x Hin; apply negb_true_iff, Z.eqb_neq; auto.
Qed.

Lemma admin_delete_time_entry_properties_witness :
  fetch_one SqlJs (filter (fun e => (entry_id e =? 3)
                                    && (entry_employee_id e =? 7))
                          (time_entries example_db)) = Some example_entry /\
  snd (fst (delete_time_entry SqlJs example_db 3 7))
  = admin_delete_time_entry example_db 3.
Proof.
  assert (H : fetch_one SqlJs
                (filter (fun e => (entry_id e =? 3)
                                  && (entry_employee_id e =? 7))
                        (time_entries example_db)) = Some example_entry)
    by reflexivity.
  split; [exact H |].
  exact (proj1 (admin_delete_time_entry_properties example_db 3)
               SqlJs 7 example_entry H).
Defined.

(** ** The foreign keys are kept *)

Lemma no_orphans_delete_time_entry b d id employeeId :
  no_orphans d ->
  no_orphans (snd (fst (delete_time_entry b d id employeeId))).
Proof.
  intros [Hc Hs]. unfold delete_time_entry.
  destruct (fetch_one b _); cbn [fst snd]; [| split; assumption].
  cbn [fold_left run_statement]. unfold no_orphans.
  cbn [client_entries product_sales time_entries].
  split.
  - intros c Hin. apply filter_In in Hin as [Hin Hne].
    apply negb_true_iff, Z.eqb_neq in Hne.
    destruct (Hc c Hin) as (e & He & Eid). exists e. split; [| exact Eid].
    apply filter_In. split; [exact He |].
    apply negb_true_iff, Z.eqb_neq. congruence.
  - intros s Hin. apply filter_In in Hin as [Hin Hne].
    apply negb_true_iff, Z.eqb_neq in Hne.
    destruct (Hs s Hin) as (e & He & Eid). exists e. split; [| exact Eid].
    apply filter_In. split; [exact He |].
    apply negb_true_iff, Z.eqb_neq. congruence.
Qed.

Lemma no_orphans_post_time_entry b inserted d r :
  no_orphans d ->
  no_orphans (fst (post_time_entry b inserted d r)).
Proof.
  intros [Hc Hs]. unfold post_time_entry.
  destruct inserted as [id |]; cbn [fst]; [| split; assumption].
  unfold no_orphans. cbn [client_entries product_sales time_entries].
  split.
  - intros c Hin. apply in_app_or in Hin as [Hin | Hin].
    + destruct (Hc c Hin) as (e & He & Eid). exists e.
      split; [apply in_or_app; now left | exact Eid].
    + apply in_map_iff in Hin as (ci & <- & _).
      eexists. split; [apply in_or_app; right; now left | reflexivity].
  - intros s Hin. apply in_app_or in Hin as [Hin | Hin].
    + destruct (Hs s Hin) as (e & He & Eid). exists e.
      split; [apply in_or_app; now left | exact Eid].
    + apply in_map_iff in Hin as (si & <- & _).
      eexists. split; [apply in_or_app; right; now left | reflexivity].
Qed.

(** X8: Creating a time entry with its children and deleting a time entry
    through the employee's route both keep the foreign keys: every client
    entry and every product sale still belongs to a time entry of the
    store. *)
Theorem routes_keep_no_orphans b d :
  no_orphans d ->
  (forall inserted r, no_orphans (fst (post_time_entry b inserted d r))) /\
  (forall id employeeId,
     no_orphans (snd (fst (delete_time_entry b d id employeeId)))).
Proof.
  intros H. split.
  - intros inserted r. now apply no_orphans_post_time_entry.
  - intros id employeeId. now apply no_orphans_delete_time_entry.
Qed.

Lemma example_db_no_orphans : no_orphans example_db.
Proof.
  split.
  - intros c [<- | [<- | []]].
    + exists example_entry. split; [now left | reflexivity].
    + exists (nth 1 (time_entries example_db) example_entry).
      split; [right; now left | reflexivity].
  - intros s [<- | []].
    exists example_entry. split; [now left | reflexivity].
Qed.

Lemma routes_keep_no_orphans_witness :
  no_orphans example_db /\
  no_orphans (snd (fst (delete_time_entry SqlJs example_db 3 7))).
Proof.
  split; [exact example_db_no_orphans |].
  exact (proj2 (routes_keep_no_orphans SqlJs example_db example_db_no_orphans)
               3 7).
Defined.

(** ** A submitted entry and its summary *)







(** ** The invoice preview *)

Lemma fold_add_to {A : Type} (f : A -> jsval) (l : list A) : forall a,
  fold_left (fun a x => add_to a (f x)) l a =
  fold_left nadd (map (fun x => ToNumber (f x)) l) a.
Proof.
  induction l as [| x l IH]; intros a; cbn [fold_left map];
    [reflexivity | apply IH].
Qed.

Lemma fold_add_cash (l : list client_entry) : forall a,
  fold_left (fun a c => if truthy (tip_received_cash c)
                        then add_to a (or0 (tip_amount c)) else a) l a =
  fold_left nadd (map (fun c => number_or_zero (tip_amount c))
                      (received_cash l)) a.
Proof.
  induction l as [| c l IH]; intros a; unfold received_cash;
    cbn [fold_left filter]; [reflexivity |].
  rewrite IH. unfold received_cash.
  destruct (truthy (tip_received_cash c)); reflexivity.
Qed.

(** The sums of a row are the sums over its own client entries and
    product sales. *)
Lemma day_of_sums d emp e :
  let row := day_of d emp e in
  day_commissions row =
    sum_num (map (fun c => number_or_zero (amount_earned c)) (day_clients row)) /\
  day_tips row =
    sum_num (map (fun c => number_or_zero (tip_amount c)) (day_clients row)) /\
  day_cashTips row =
    sum_num (map (fun c => number_or_zero (tip_amount c))
                 (received_cash (day_clients row))) /\
  day_productCommissions row =
    sum_num (map (fun s => number_or_zero (commission_amount s))
                 (day_products row)).
Proof.
  cbv zeta. unfold day_of, sum_num.
  cbn [day_commissions day_tips day_cashTips day_productCommissions
       day_clients day_products].
  rewrite !(fold_add_to (fun c => or0 (amount_earned c))),
          !(fold_add_to (fun c => or0 (tip_amount c))),
          !(fold_add_to (fun p => or0 (commission_amount p))),
          fold_add_cash.
  repeat split; reflexivity.
Qed.

(** The loop of the preview: the rows pushed, and the totals, each going
    on from where it was. *)
Lemma preview_fold d emp entries : forall rows t,
  fold_left (preview_entry d emp) entries (rows, t) =
  (rows ++ map (day_of d emp) entries,
   {| totalHours :=
        fold_left nadd (map (fun e => ToNumber (hours e)) entries)
                  (totalHours t);
      totalCommissions :=
        fold_left nadd (map (fun e => day_commissions (day_of d emp e)) entries)
                  (totalCommissions t);
      totalTips :=
        fold_left nadd (map (fun e => day_tips (day_of d emp e)) entries)
                  (totalTips t);
      totalCashTips :=
        fold_left nadd (map (fun e => day_cashTips (day_of d emp e)) entries)
                  (totalCashTips t);
      totalProductCommissions :=
        fold_left nadd
                  (map (fun e => day_productCommissions (day_of d emp e))
                       entries)
                  (totalProductCommissions t) |}).
Proof.
  induction entries as [| e l IH]; intros rows t; cbn [fold_left map].
  - rewrite app_nil_r. destruct t; reflexivity.
  - unfold preview_entry at 2. cbn [fst snd]. rewrite IH.
    cbn [totalHours totalCommissions totalTips totalCashTips
         totalProductCommissions].
    rewrite <- app_assoc. reflexivity.
Qed.

(** X11: The rows of the invoice preview follow the entries in their order;
    each row carries the client entries and product sales of its time
    entry, its wages (hours times hourly wage) and the sums of the day over
    its own clients and sales, missing amounts counting as zero.  The
    totals of the preview are the sums, from left to right, of the hours of
    the entries and of the sums of the days; total wages are total hours
    times the hourly wage, and total payable is wages + commissions + tips
    + product commissions - cash tips.  Total hours are those of the
    pay-period summary of the same entries.  The other totals add the same
    amounts as the summary, but day by day instead of row by row, and
    rounding can make them differ: with amounts 0.1 on one day and 0.2 and
    0.3 on the next, the total commissions of the preview are not those of
    the summary. *)
Theorem invoice_preview_totals d emp entries :
  let p := invoice_preview d emp entries in
  let t := preview_totals p in
  let rows := preview_entries p in
  map day_date rows = map entry_date entries /\
  map day_hours rows = map hours entries /\
  map day_clients rows = map (fun e => clients_of d (entry_id e)) entries /\
  map day_products rows = map (fun e => sales_of d (entry_id e)) entries /\
  map day_wages rows =
    map (fun e => nmul (ToNumber (hours e)) (ToNumber (hourly_wage emp)))
        entries /\
  (forall row, In row rows ->
     day_commissions row =
       sum_num (map (fun c => number_or_zero (amount_earned c))
                    (day_clients row)) /\
     day_tips row =
       sum_num (map (fun c => number_or_zero (tip_amount c))
                    (day_clients row)) /\
     day_cashTips row =
       sum_num (map (fun c => number_or_zero (tip_amount c))
                    (received_cash (day_clients row))) /\
     day_productCommissions row =
       sum_num (map (fun s => number_or_zero (commission_amount s))
                    (day_products row))) /\
  totalHours t = sum_num (map (fun e => ToNumber (hours e)) entries) /\
  totalCommissions t = sum_num (map day_commissions rows) /\
  totalTips t = sum_num (map day_tips rows) /\
  totalCashTips t = sum_num (map day_cashTips rows) /\
  totalProductCommissions t = sum_num (map day_productCommissions rows) /\
  preview_totalWages p = nmul (totalHours t) (ToNumber (hourly_wage emp)) /\
  preview_totalPayable p =
    nsub (nadd (nadd (nadd (preview_totalWages p) (totalCommissions t))
                     (totalTips t))
               (totalProductCommissions t))
         (totalCashTips t) /\
  totalHours t = totalHours (sum_totals (summarize d (Some emp) entries)) /\
  totalCommissions
    (preview_totals (invoice_preview dimes_db example_employee
                                     (time_entries dimes_db))) <>
  totalCommissions
    (sum_totals (summarize dimes_db (Some example_employee)
                           (time_entries dimes_db))).
Proof.
  cbv zeta. unfold invoice_preview.
  cbn [preview_totals preview_entries preview_totalWages preview_totalPayable].
  rewrite preview_fold. cbn [fst snd app].
  cbn [totalHours totalCommissions totalTips totalCashTips
       totalProductCommissions zero_totals].
  rewrite !map_map.
  split; [reflexivity |]. split; [reflexivity |]. split; [reflexivity |].
  split; [reflexivity |]. split; [reflexivity |]. split.
  { intros row Hin. apply in_map_iff in Hin as (e & <- & _).
    apply day_of_sums. }
  repeat (split; [reflexivity |]). split.
  - destruct (summarize_totals_eq d (Some emp) entries) as [EH _].
    cbv zeta in EH. rewrite EH. reflexivity.
  - vm_compute. discriminate.
Qed.

(** ** Deleting an employee *)

Lemma filter_filter {A : Type} (p q : A -> bool) (l : list A) :
  filter p (filter q l) = filter (fun x => q x && p x) l.
Proof.
  induction l as [| x l IH]; cbn [filter]; [reflexivity |].
  destruct (q x); cbn [andb filter]; [| exact IH].
  destruct (p x); now rewrite IH.
Qed.

(** The loop over the time entries of the employee deletes the children
    of each of them and nothing else. *)
Lemma fold_delete_children (L : list time_entry) : forall d,
  let d1 := fold_left delete_children L d in
  client_entries d1 =
    filter (fun c => negb (id_among L (client_time_entry_id c)))
           (client_entries d) /\
  product_sales d1 =
    filter (fun s => negb (id_among L (sale_time_entry_id s)))
           (product_sales d) /\
  employees d1 = employees d /\ time_entries d1 = time_entries d /\
  invoices d1 = invoices d.
Proof.
  induction L as [| e L IH]; intros d; cbn [fold_left].
  - unfold id_among. cbn [existsb negb].
    rewrite !filter_all_true by reflexivity. auto.
  - destruct (IH (delete_children d e)) as (Ec & Es & Ee & Et & Ei).
    cbv zeta. rewrite Ec, Es, Ee, Et, Ei.
    unfold delete_children.
    cbn [run_statement client_entries product_sales employees time_entries
         invoices].
    rewrite !filter_filter. unfold id_among. cbn [existsb].
    repeat split; apply filter_ext; intros x;
      rewrite negb_orb; f_equal; f_equal; apply Z.eqb_sym.
Qed.

(** X12: Deleting an employee removes the employee row, the time entries and
    the invoices of the employee, and the client entries and product sales
    of those time entries; every other row stays, in its order.  Children
    that belonged to a time entry still belong to one. *)
Theorem admin_delete_employee_cascade d id :
  let d' := admin_delete_employee d id in
  let gone := filter (fun e => entry_employee_id e =? id) (time_entries d) in
  employees d' = filter (fun e => negb (employee_row_id e =? id)) (employees d) /\
  time_entries d' =
    filter (fun e => negb (entry_employee_id e =? id)) (time_entries d) /\
  invoices d' =
    filter (fun i => negb (invoice_employee_id i =? id)) (invoices d) /\
  client_entries d' =
    filter (fun c => negb (id_among gone (client_time_entry_id c)))
           (client_entries d) /\
  product_sales d' =
    filter (fun s => negb (id_among gone (sale_time_entry_id s)))
           (product_sales d) /\
  (forall e, In e (time_entries d') -> entry_employee_id e <> id) /\
  (forall i, In i (invoices d') -> invoice_employee_id i <> id) /\
  (forall e, In e (employees d') -> employee_row_id e <> id) /\
  (no_orphans d -> no_orphans d').
Proof.
  cbv zeta. unfold admin_delete_employee.
  destruct (fold_delete_children
              (filter (fun e => entry_employee_id e =? id) (time_entries d)) d)
    as (Ec & Es & Ee & Et & Ei).
  cbv zeta in Ec, Es, Ee, Et, Ei.
  cbn [employees time_entries invoices client_entries product_sales].
  rewrite Ec, Es, Ee, Et, Ei.
  assert (Hgone : forall x,
             id_among (filter (fun e => entry_employee_id e =? id)
                              (time_entries d)) x = false ->
             forall e, In e (time_entries d) -> entry_id e = x ->
                       entry_employee_id e <> id).
  { intros x Hx e He Eid Hemp. unfold id_among in Hx.
    assert (Ht : existsb (fun e0 => entry_id e0 =? x)
                   (filter (fun e0 => entry_employee_id e0 =? id)
                           (time_entries d)) = true).
    { apply existsb_exists. exists e. split.
      - apply filter_In. split; [exact He | now apply Z.eqb_eq].
      - now apply Z.eqb_eq. }
    congruence. }
  repeat split; try reflexivity.
  - intros e He. apply filter_In in He as [_ He].
    now apply negb_true_iff, Z.eqb_neq in He.
  - intros i Hi. apply filter_In in Hi as [_ Hi].
    now apply negb_true_iff, Z.eqb_neq in Hi.
  - intros e He. apply filter_In in He as [_ He].
    now apply negb_true_iff, Z.eqb_neq in He.
  - destruct H as [Hc _]. cbn [client_entries time_entries].
    intros c Hin. apply filter_In in Hin as [Hin Hk].
    apply negb_true_iff in Hk.
    destruct (Hc c Hin) as (e & He & Eid). exists e. split; [| exact Eid].
    apply filter_In. split; [exact He |].
    apply negb_true_iff, Z.eqb_neq. exact (Hgone _ Hk e He Eid).
  - destruct H as [_ Hs]. cbn [product_sales time_entries].
    intros s Hin. apply filter_In in Hin as [Hin Hk].
    apply negb_true_iff in Hk.
    destruct (Hs s Hin) as (e & He & Eid). exists e. split; [| exact Eid].
    apply filter_In. split; [exact He |].
    apply negb_true_iff, Z.eqb_neq. exact (Hgone _ Hk e He Eid).
Qed.

Lemma admin_delete_employee_cascade_witness :
  no_orphans example_db /\
  no_orphans (admin_delete_employee example_db 7).
Proof.
  split; [exact example_db_no_orphans |].
  destruct (admin_delete_employee_cascade example_db 7)
    as (_ & _ & _ & _ & _ & _ & _ & _ & G).
  exact (G example_db_no_orphans).
Defined.

(** ** The conflict check *)

(** X13: The conflict check of server.js reports a conflict exactly when the
    employee has a time entry on that date, and the entry it shows is such
    an entry; the check of the Supabase server does the same as long as the
    employee has at most one entry on the date, and reports no conflict
    when there are two or more. *)
Theorem check_conflict_finds_entry d employeeId date :
  let same := fun e => (entry_employee_id e =? employeeId)
                       && String.eqb (entry_date e) date in
  ((exists e, check_conflict SqlJs d employeeId date = Some e) <->
   (exists e, In e (time_entries d) /\ entry_employee_id e = employeeId /\
              entry_date e = date)) /\
  (forall b e, check_conflict b d employeeId date = Some e ->
     In e (time_entries d) /\ entry_employee_id e = employeeId /\
     entry_date e = date) /\
  ((List.length (filter same (time_entries d)) <= 1)%nat ->
   check_conflict Supabase d employeeId date =
   check_conflict SqlJs d employeeId date) /\
  ((2 <= List.length (filter same (time_entries d)))%nat ->
   check_conflict Supabase d employeeId date = None).
Proof.
  cbv zeta. unfold check_conflict.
  set (same := fun e => (entry_employee_id e =? employeeId)
                        && String.eqb (entry_date e) date).
  assert (Hsame : forall e, same e = true <->
                            entry_employee_id e = employeeId /\
                            entry_date e = date).
  { intros e. unfold same. now rewrite andb_true_iff, Z.eqb_eq, String.eqb_eq. }
  split; [| split; [| split]].
  - cbn [fetch_one]. rewrite getOne_filter_Some.
    split; intros (e & Hin & H); exists e; (split; [exact Hin |]);
      now apply Hsame.
  - intros b e H. apply fetch_one_In in H. apply filter_In in H as [Hin H].
    split; [exact Hin |]. now apply Hsame.
  - intros H. cbn [fetch_one].
    destruct (filter same (time_entries d)) as [| x [| y rest]]; cbn in *;
      try reflexivity; lia.
  - intros H. cbn [fetch_one].
    destruct (filter same (time_entries d)) as [| x [| y rest]]; cbn in *;
      try reflexivity; lia.
Qed.

Lemma check_conflict_finds_entry_witness :
  (List.length
     (filter (fun e => (entry_employee_id e =? 7)%Z
                       && String.eqb (entry_date e) "2026-02-10")
             (time_entries example_db)) <= 1)%nat /\
  check_conflict Supabase example_db 7 "2026-02-10" =
  check_conflict SqlJs example_db 7 "2026-02-10".
Proof.
  assert (H : (List.length
                 (filter (fun e => (entry_employee_id e =? 7)%Z
                                   && String.eqb (entry_date e) "2026-02-10")
                         (time_entries example_db)) <= 1)%nat)
    by (vm_compute; apply le_n).
  split; [exact H |].
  destruct (check_conflict_finds_entry example_db 7 "2026-02-10"%string)
    as (_ & _ & G & _).
  exact (G H).
Defined.

(** ** Further properties of the period calculator *)

Lemma DayWithinYear_range t :
  0 <= DayWithinYear t < DaysInYear (YearFromTime t).
Proof.
  unfold DayWithinYear, YearFromTime.
  pose proof (YearFromDay_spec (Day t)) as H.
  rewrite DayFromYear_succ in H. lia.
Qed.

Lemma DateFromTime_range t :
  1 <= DateFromTime t <= DaysInMonth (YearFromTime t) (MonthFromTime t).
Proof.
  pose proof (DayWithinYear_range t) as H.
  unfold DateFromTime, MonthFromTime, InLeapYear in *.
  set (dw := DayWithinYear t) in *. set (y := YearFromTime t) in *.
  clearbody dw y.
  destruct (LeapOf_cases y) as [[Hl Hy] | [Hl Hy]]; rewrite Hl, Hy in *;
    repeat match goal with
           | |- context [?a <? ?b] => destruct (Z.ltb_spec a b)
           end; month_simpl; rewrite ?Hl; lia.
Qed.

Lemma Day_civil t :
  Day t = MakeDay (YearFromTime t) (MonthFromTime t) (DateFromTime t).
Proof.
  rewrite MakeDay_month by apply MonthFromTime_range.
  unfold DateFromTime, DayWithinYear, InLeapYear. lia.
Qed.

(** A time from the midnight of day [d1] to the end of day [d2] of one
    month is a time of a day of that month between them. *)
Lemma civil_within tza y m d1 d2 t :
  0 <= m <= 11 -> 1 <= d1 -> d2 <= DaysInMonth y m ->
  localMidnight tza y m d1 <= t < localMidnight tza y m d2 + msPerDay ->
  let lt := LocalTime tza t in
  YearFromTime lt = y /\ MonthFromTime lt = m /\ d1 <= DateFromTime lt <= d2.
Proof.
  intros Hm H1 H2 Ht. cbv zeta.
  unfold localMidnight, UTC, MakeTime in Ht. cbn [Z.mul Z.add] in Ht.
  set (lt := LocalTime tza t).
  assert (Hlt : MakeDate (MakeDay y m d1) 0 <= lt
                < MakeDate (MakeDay y m d2) 0 + msPerDay)
    by (subst lt; unfold LocalTime; lia).
  pose proof (MakeDate_Day_TimeWithinDay lt) as Hsplit.
  pose proof (TimeWithinDay_range lt) as Htw.
  set (d := Day lt - MakeDay y m 1 + 1).
  assert (HD : Day lt = MakeDay y m d).
  { subst d. rewrite !MakeDay_month by assumption. lia. }
  assert (Hd : d1 <= d <= d2).
  { subst d. rewrite !MakeDay_month in * by assumption.
    unfold MakeDate, msPerDay in *. lia. }
  rewrite HD in Hsplit.
  destruct (civil_of_MakeDay y m d (TimeWithinDay lt)) as (EY & EM & ED);
    try assumption; try lia.
  cbv zeta in EY, EM, ED. rewrite Hsplit in EY, EM, ED.
  rewrite EY, EM, ED. auto.
Qed.

Lemma periodIndex_within tza k s e t :
  start (periodOfIndex tza k) = Some s ->
  end_ (periodOfIndex tza k) = Some e ->
  s <= t < e + msPerDay ->
  periodIndex tza t = k.
Proof.
  intros Hs He Ht. destruct (index_split k) as [Hm Hsplit].
  unfold periodOfIndex in *.
  set (y := k / 24) in *. set (m := k mod 24 / 2) in *.
  pose proof (DaysInMonth_range y m) as Hr.
  revert Hsplit Hs He. generalize (k mod 2 =? 0). clearbody y m.
  intros half. destruct half; unfold periodOf;
    cbn [start end_]; intros Hsplit Hs He;
    injection Hs as <-; injection He as <-.
  - destruct (civil_within tza y m 1 15 t) as (EY & EM & ED);
      try assumption; try lia.
    unfold periodIndex. cbv zeta. rewrite EY, EM.
    assert (E15 : (DateFromTime (LocalTime tza t) <=? 15) = true)
      by (apply Z.leb_le; apply ED).
    rewrite E15. clear - Hsplit. lia.
  - destruct (civil_within tza y m 16 (DaysInMonth y m) t) as (EY & EM & ED);
      try assumption; try lia.
    unfold periodIndex. cbv zeta. rewrite EY, EM.
    assert (E15 : (DateFromTime (LocalTime tza t) <=? 15) = false)
      by (apply Z.leb_gt; clear - ED; lia).
    rewrite E15. clear - Hsplit. lia.
Qed.

(** A time lies in the period of its index. *)
Lemma time_in_its_period tza t :
  exists s e,
    start (periodOfIndex tza (periodIndex tza t)) = Some s /\
    end_ (periodOfIndex tza (periodIndex tza t)) = Some e /\
    s <= t < e + msPerDay.
Proof.
  unfold periodIndex. cbv zeta.
  assert (Elt : t = LocalTime tza t - tza) by (unfold LocalTime; lia).
  set (lt := LocalTime tza t) in *. clearbody lt.
  pose proof (MonthFromTime_range lt) as Hm.
  pose proof (DateFromTime_range lt) as Hd.
  pose proof (Day_civil lt) as HD.
  pose proof (MakeDate_Day_TimeWithinDay lt) as Hsplit.
  pose proof (TimeWithinDay_range lt) as Htw.
  set (y := YearFromTime lt) in *. set (m := MonthFromTime lt) in *.
  set (d := DateFromTime lt) in *. set (tw := TimeWithinDay lt) in *.
  rewrite HD in Hsplit. rewrite MakeDay_month in Hsplit by assumption.
  clearbody y m d tw. unfold MakeDate in Hsplit.
  destruct (Z.leb_spec d 15) as [H15 | H15].
  - rewrite (periodOf_index tza y m true Hm). unfold periodOf.
    cbn [start end_]. do 2 eexists. split; [reflexivity |].
    split; [reflexivity |].
    unfold localMidnight, UTC, MakeDate, MakeTime.
    rewrite !MakeDay_month by assumption.
    unfold msPerDay in *. lia.
  - rewrite (periodOf_index tza y m false Hm). unfold periodOf.
    cbn [start end_]. do 2 eexists. split; [reflexivity |].
    split; [reflexivity |].
    unfold localMidnight, UTC, MakeDate, MakeTime.
    rewrite !MakeDay_month by assumption.
    unfold msPerDay in *. lia.
Qed.

(** X14: For a Date object whose local date lies in the years 100 to
    249999, at any time of day, [getPayPeriod] returns a period that
    contains it, from the midnight that starts the period to the end of its
    last day; and every Date in that span gets the same period. *)
Theorem getPayPeriod_same_on_whole_period tza parse now :
  tz_ok tza -> index_ok (periodIndex tza now) ->
  exists p s e,
    getPayPeriod tza parse (ADate (Some now)) = Returns p /\
    start p = Some s /\ end_ p = Some e /\
    s <= now < e + msPerDay /\
    forall t, s <= t < e + msPerDay ->
              getPayPeriod tza parse (ADate (Some t)) = Returns p.
Proof.
  intros Htz Hk.
  destruct (time_in_its_period tza now) as (s & e & Hs & He & Hin).
  exists (periodOfIndex tza (periodIndex tza now)), s, e.
  split; [now apply getPayPeriod_index |].
  split; [exact Hs |]. split; [exact He |]. split; [exact Hin |].
  intros t Ht.
  pose proof (periodIndex_within tza _ s e t Hs He Ht) as Hi.
  rewrite getPayPeriod_index by (assumption || now rewrite Hi).
  now rewrite Hi.
Qed.

Lemma getPayPeriod_same_on_whole_period_witness :
  tz_ok tz_los_angeles /\
  index_ok (periodIndex tz_los_angeles 1770000000000) /\
  getPayPeriod tz_los_angeles no_parse (ADate (Some 1770000000000)) =
  getPayPeriod tz_los_angeles no_parse (ADate (Some 1771228799999)).
Proof.
  assert (Htz : tz_ok tz_los_angeles) by (vm_compute; split; reflexivity).
  assert (Hk : index_ok (periodIndex tz_los_angeles 1770000000000))
    by (vm_compute; split; [discriminate | reflexivity]).
  split; [exact Htz |]. split; [exact Hk |].
  destruct (getPayPeriod_same_on_whole_period tz_los_angeles no_parse
              1770000000000 Htz Hk) as (p & s & e & Hp & Hs & He & _ & Hall).
  rewrite Hp. symmetry. apply Hall.
  assert (E : getPayPeriod tz_los_angeles no_parse
                (ADate (Some 1770000000000)) =
              Returns {| start := Some 1769932800000;
                         end_ := Some 1771142400000 |})
    by (vm_compute; reflexivity).
  rewrite E in Hp. injection Hp as <-. cbn in Hs, He.
  injection Hs as <-. injection He as <-.
  vm_compute. split; [discriminate | reflexivity].
Defined.

Lemma next_period_starts_after tza k :
  exists s e s' e',
    start (periodOfIndex tza k) = Some s /\
    end_ (periodOfIndex tza k) = Some e /\
    start (periodOfIndex tza (k + 1)) = Some s' /\
    end_ (periodOfIndex tza (k + 1)) = Some e' /\
    s <= e /\ s' = e + msPerDay.
Proof.
  destruct (index_split k) as [Hm Hsplit].
  set (y := k / 24) in *. set (m := k mod 24 / 2) in *.
  pose proof (DaysInMonth_range y m) as Hr.
  assert (Ek : periodOfIndex tza k = periodOf tza y m (k mod 2 =? 0))
    by reflexivity.
  rewrite Ek. clearbody y m. revert Hsplit.
  destruct (k mod 2 =? 0); intros Hsplit.
  - replace (k + 1) with (24 * y + 2 * m + (if false then 0 else 1)) by lia.
    rewrite (periodOf_index tza y m false Hm). unfold periodOf.
    cbn [start end_]. do 4 eexists. repeat (split; [reflexivity |]).
    split; [apply localMidnight_le; [assumption | lia] |].
    unfold localMidnight, UTC, MakeDate, msPerDay.
    rewrite !MakeDay_month by assumption. lia.
  - set (y' := if m =? 11 then y + 1 else y).
    set (m' := if m =? 11 then 0 else m + 1).
    assert (Hm' : 0 <= m' <= 11) by (subst m'; destruct (Z.eqb_spec m 11); lia).
    replace (k + 1) with (24 * y' + 2 * m' + (if true then 0 else 1))
      by (subst y' m'; destruct (Z.eqb_spec m 11); lia).
    rewrite (periodOf_index tza y' m' true Hm'). unfold periodOf.
    cbn [start end_]. do 4 eexists. repeat (split; [reflexivity |]).
    split; [apply localMidnight_le; [assumption | lia] |].
    unfold localMidnight, UTC, MakeDate, msPerDay. subst y' m'.
    rewrite <- MakeDay_overflow by assumption.
    rewrite !MakeDay_month by assumption. lia.
Qed.

(** X15: The periods tile the calendar: the next period starts on the day after
    the end of the current one, and the previous period ends on the day
    before its start. *)
Theorem periods_are_consecutive tza parse now :
  tz_ok tza ->
  index_ok (periodIndex tza now - 1) -> index_ok (periodIndex tza now + 1) ->
  exists p q r s e,
    getPayPeriod tza parse (ADate (Some now)) = Returns p /\
    getPayPeriodByOffset tza parse (Some now) 1 = Returns q /\
    getPayPeriodByOffset tza parse (Some now) (-1) = Returns r /\
    start p = Some s /\ end_ p = Some e /\ s <= e /\
    start q = Some (e + msPerDay) /\
    end_ r = Some (s - msPerDay).
Proof.
  intros Htz Hp Hn.
  assert (Hk : index_ok (periodIndex tza now))
    by (unfold index_ok in *; lia).
  set (k := periodIndex tza now) in *.
  destruct (next_period_starts_after tza k)
    as (s & e & s' & e' & Hs & He & Hs' & _ & Hse & Enext).
  destruct (next_period_starts_after tza (k - 1))
    as (s0 & e0 & s1 & _ & _ & He0 & Hs1 & _ & _ & Eprev).
  replace (k - 1 + 1) with k in Hs1 by lia.
  exists (periodOfIndex tza k), (periodOfIndex tza (k + 1)),
         (periodOfIndex tza (k + -1)), s, e.
  split; [now apply getPayPeriod_index |].
  split; [now apply getPayPeriodByOffset_index |].
  split; [apply getPayPeriodByOffset_index; try assumption;
          now replace (periodIndex tza now + -1) with (k - 1) by (subst k; lia) |].
  split; [exact Hs |]. split; [exact He |]. split; [exact Hse |].
  split; [now rewrite Hs', Enext |].
  replace (k + -1) with (k - 1) by lia. rewrite He0. f_equal.
  rewrite Hs in Hs1. injection Hs1 as ->. lia.
Qed.

Lemma periods_are_consecutive_witness :
  tz_ok tz_los_angeles /\
  index_ok (periodIndex tz_los_angeles 1770000000000 - 1) /\
  index_ok (periodIndex tz_los_angeles 1770000000000 + 1) /\
  exists q,
    getPayPeriodByOffset tz_los_angeles no_parse (Some 1770000000000) 1
    = Returns q.
Proof.
  assert (Htz : tz_ok tz_los_angeles) by (vm_compute; split; reflexivity).
  assert (Hp : index_ok (periodIndex tz_los_angeles 1770000000000 - 1))
    by (vm_compute; split; [discriminate | reflexivity]).
  assert (Hn : index_ok (periodIndex tz_los_angeles 1770000000000 + 1))
    by (vm_compute; split; [discriminate | reflexivity]).
  split; [exact Htz |]. split; [exact Hp |]. split; [exact Hn |].
  destruct (periods_are_consecutive tz_los_angeles no_parse 1770000000000
              Htz Hp Hn) as (p & q & r & s & e & _ & Hq & _).
  exists q. exact Hq.
Defined.

(** X16: Offsets add up: going [a] periods from the clock and then [b] periods
    from any time of the period reached is going [a + b] periods from the
    clock. *)
Theorem getPayPeriodByOffset_adds tza parse now a b p s e ref :
  tz_ok tza ->
  index_ok (periodIndex tza now) ->
  index_ok (periodIndex tza now + a) ->
  index_ok (periodIndex tza now + a + b) ->
  getPayPeriodByOffset tza parse (Some now) a = Returns p ->
  start p = Some s -> end_ p = Some e -> s <= ref < e + msPerDay ->
  getPayPeriodByOffset tza parse (Some ref) b =
  getPayPeriodByOffset tza parse (Some now) (a + b).
Proof.
  intros Htz Hk Hka Hkab Hp Hs He Href.
  rewrite getPayPeriodByOffset_index in Hp by assumption.
  injection Hp as <-.
  pose proof (periodIndex_within tza _ s e ref Hs He Href) as Hi.
  rewrite !getPayPeriodByOffset_index; rewrite ?Hi; try assumption.
  - f_equal. f_equal. lia.
  - now replace (periodIndex tza now + (a + b))
      with (periodIndex tza now + a + b) by lia.
Qed.

Lemma getPayPeriodByOffset_adds_witness :
  tz_ok tz_los_angeles /\
  index_ok (periodIndex tz_los_angeles 1770000000000) /\
  index_ok (periodIndex tz_los_angeles 1770000000000 + 3) /\
  index_ok (periodIndex tz_los_angeles 1770000000000 + 3 + -5) /\
  getPayPeriodByOffset tz_los_angeles no_parse (Some 1774000000000) (-5) =
  getPayPeriodByOffset tz_los_angeles no_parse (Some 1770000000000) (3 + -5).
Proof.
  assert (Htz : tz_ok tz_los_angeles) by (vm_compute; split; reflexivity).
  assert (Hk : index_ok (periodIndex tz_los_angeles 1770000000000))
    by (vm_compute; split; [discriminate | reflexivity]).
  assert (Hka : index_ok (periodIndex tz_los_angeles 1770000000000 + 3))
    by (vm_compute; split; [discriminate | reflexivity]).
  assert (Hkab : index_ok (periodIndex tz_los_angeles 1770000000000 + 3 + -5))
    by (vm_compute; split; [discriminate | reflexivity]).
  assert (Hp : getPayPeriodByOffset tz_los_angeles no_parse
                 (Some 1770000000000) 3 =
               Returns {| start := Some 1773648000000;
                          end_ := Some 1774944000000 |})
    by (vm_compute; reflexivity).
  assert (Href : 1773648000000 <= 1774000000000 < 1774944000000 + msPerDay)
    by (vm_compute; split; [discriminate | reflexivity]).
  split; [exact Htz |]. split; [exact Hk |]. split; [exact Hka |].
  split; [exact Hkab |].
  exact (getPayPeriodByOffset_adds tz_los_angeles no_parse 1770000000000
           3 (-5) _ _ _ 1774000000000 Htz Hk Hka Hkab Hp eq_refl eq_refl Href).
Defined.

(** ** Date-only strings and the time zone *)

Lemma tz_ok_0 : tz_ok 0.
Proof. unfold tz_ok, msPerDay. lia. Qed.

Lemma newDate_date_only_real s :
  real_date s ->
  newDate_date_only s =
  Some (MakeDate (MakeDay (fst (fst (date_fields s)))
                          (snd (fst (date_fields s)) - 1)
                          (snd (date_fields s))) 0).
Proof.
  intros Hreal.
  destruct (toLocalDate_real 0 no_parse s tz_ok_0 Hreal) as [Hy _].
  destruct (real_date_fields s Hreal) as [Hm Hd].
  unfold newDate_date_only.
  destruct (date_fields s) as [[y m] d]. cbn [fst snd] in *.
  pose proof (DaysInMonth_range y (m - 1)).
  destruct (Z.leb_spec 1 m); [| lia]. destruct (Z.leb_spec m 12); [| lia].
  destruct (Z.leb_spec 1 d); [| lia]. destruct (Z.leb_spec d 31); [| lia].
  cbn [andb].
  pose proof (TimeClip_in_range 0 y (m - 1) d (MakeTime 0 0 0 0) tz_ok_0) as H5.
  unfold UTC in H5. rewrite !Z.sub_0_r in H5. apply H5; try lia.
  unfold MakeTime, msPerDay. lia.
Qed.

(** X17: [toLocalDate] reads a date-only string as that day of the local
    calendar, for every offset of local time.  The runtime's own reading of
    the same string (midnight of universal time) is that day at and east of
    Greenwich, but the day before it west of Greenwich. *)
Theorem toLocalDate_keeps_the_day tza parse s :
  tz_ok tza -> real_date s ->
  let y := fst (fst (date_fields s)) in
  let m := snd (fst (date_fields s)) - 1 in
  let d := snd (date_fields s) in
  getFullYear tza (toLocalDate tza parse (AString s)) = Some y /\
  getMonth tza (toLocalDate tza parse (AString s)) = Some m /\
  getDate tza (toLocalDate tza parse (AString s)) = Some d /\
  (0 <= tza -> getDate tza (newDate_date_only s) = Some d) /\
  (tza < 0 ->
   getDate tza (newDate_date_only s) =
   Some (if d =? 1
         then DaysInMonth (prev_month_year y m) (prev_month m)
         else d - 1)).
Proof.
  intros Htz Hreal y m d.
  destruct (toLocalDate_real tza parse s Htz Hreal) as [Hy HL].
  destruct (real_date_fields s Hreal) as [Hm Hd].
  fold y m d in HL, Hy, Hm, Hd.
  assert (Hm' : 0 <= m <= 11) by (subst m; lia).
  destruct (civil_localMidnight tza y m d Hm' Hd) as (EY & EM & ED).
  cbv zeta in EY, EM, ED.
  rewrite HL. unfold getFullYear, getMonth, getDate. cbn [option_map].
  rewrite EY, EM, ED.
  split; [reflexivity |]. split; [reflexivity |]. split; [reflexivity |].
  rewrite (newDate_date_only_real s Hreal). fold y m d. cbn [option_map].
  unfold tz_ok, msPerDay in Htz. split.
  - intros Hpos.
    replace (LocalTime tza (MakeDate (MakeDay y m d) 0))
      with (MakeDate (MakeDay y m d) tza)
      by (unfold LocalTime, MakeDate; lia).
    f_equal. apply civil_of_MakeDay; try assumption. unfold msPerDay. lia.
  - intros Hneg.
    replace (LocalTime tza (MakeDate (MakeDay y m d) 0))
      with (MakeDate (MakeDay y m d - 1) (msPerDay + tza))
      by (unfold LocalTime, MakeDate, msPerDay; lia).
    f_equal. destruct (Z.eqb_spec d 1) as [-> | Hd1].
    + replace (MakeDay y m 1 - 1) with (MakeDay y m 0)
        by (rewrite !MakeDay_month by assumption; lia).
      rewrite MakeDay_underflow by assumption.
      fold (prev_month_year y m). fold (prev_month m).
      pose proof (DaysInMonth_range (prev_month_year y m) (prev_month m)).
      apply civil_of_MakeDay.
      * unfold prev_month. destruct (Z.eqb_spec m 0); lia.
      * lia.
      * unfold msPerDay. lia.
    + replace (MakeDay y m d - 1) with (MakeDay y m (d - 1))
        by (rewrite !MakeDay_month by assumption; lia).
      apply civil_of_MakeDay; try assumption; [lia | unfold msPerDay; lia].
Qed.

Lemma toLocalDate_keeps_the_day_witness :
  tz_ok tz_los_angeles /\ real_date "2026-02-15" /\
  getDate tz_los_angeles
          (toLocalDate tz_los_angeles no_parse (AString "2026-02-15"))
  = Some 15 /\
  getDate tz_los_angeles (newDate_date_only "2026-02-15") = Some 14.
Proof.
  assert (Htz : tz_ok tz_los_angeles) by (vm_compute; split; reflexivity).
  assert (R : real_date "2026-02-15").
  { split; [reflexivity |]. vm_compute. repeat split; discriminate. }
  split; [exact Htz |]. split; [exact R |].
  destruct (toLocalDate_keeps_the_day tz_los_angeles no_parse
              "2026-02-15"%string Htz R) as (_ & _ & E & _ & G).
  split; [exact E |].
  apply G. vm_compute. reflexivity.
Defined.

(** ** The date keys of server.js *)

Lemma digit_char_not_T k : 0 <= k <= 9 -> Ascii.eqb (digit_char k) "T" = false.
Proof.
  intros H.
  assert (k = 0 \/ k = 1 \/ k = 2 \/ k = 3 \/ k = 4 \/ k = 5 \/ k = 6 \/
          k = 7 \/ k = 8 \/ k = 9) as C by lia.
  repeat (destruct C as [-> | C]); try subst k; reflexivity.
Qed.

Lemma digits_no_T fuel : forall n acc,
  split_head "T" acc = acc ->
  split_head "T" (digits fuel n acc) = digits fuel n acc.
Proof.
  assert (Step : forall n acc, split_head "T" acc = acc ->
                 split_head "T" (String (digit_char (n mod 10)) acc)
                 = String (digit_char (n mod 10)) acc).
  { intros n acc H. cbn [split_head].
    rewrite digit_char_not_T by (pose proof (Z.mod_pos_bound n 10); lia).
    now rewrite H. }
  induction fuel as [| fuel IH]; intros n acc H; cbn [digits].
  - now apply Step.
  - destruct (n <? 10); [now apply Step |]. apply IH. now apply Step.
Qed.

Lemma toStr_no_T n : 0 <= n -> split_head "T" (toStr n) = toStr n.
Proof.
  intros H. unfold toStr. destruct (Z.ltb_spec n 0); [lia |].
  now apply digits_no_T.
Qed.

Lemma app_no_T (a b : string) :
  split_head "T" a = a -> split_head "T" b = b ->
  split_head "T" (a ++ b) = (a ++ b)%string.
Proof.
  induction a as [| c a IH]; cbn [append split_head]; intros Ha Hb.
  - exact Hb.
  - destruct (Ascii.eqb c "T"); [discriminate |].
    injection Ha as Ha. now rewrite IH.
Qed.

Lemma padStart_no_T s n :
  split_head "T" s = s ->
  split_head "T" (padStart s n "0") = padStart s n "0".
Proof.
  intros H. unfold padStart. apply app_no_T; [| exact H].
  induction (n - String.length s)%nat as [| k IH]; cbn [repeat_char split_head];
    [reflexivity |].
  change (Ascii.eqb "0" "T") with false. now rewrite IH.
Qed.

Lemma split_head_prefix (a x : string) :
  split_head "T" a = a ->
  split_head "T" (a ++ x) = (a ++ split_head "T" x)%string.
Proof.
  induction a as [| c a IH]; cbn [append split_head]; intros Ha.
  - reflexivity.
  - destruct (Ascii.eqb c "T"); [discriminate |].
    injection Ha as Ha. now rewrite IH.
Qed.

(** The key of a valid Date is its day in universal time. *)
Lemma Server_formatDateForDB_utc t :
  0 <= YearFromTime t <= 9999 ->
  Server.formatDateForDB (Some t) =
  Returns (iso_date (YearFromTime t) (MonthFromTime t) (DateFromTime t)).
Proof.
  intros Hy. unfold Server.formatDateForDB, Server.toISOString. cbn [bind].
  destruct (Z.leb_spec 0 (YearFromTime t)); [| lia].
  destruct (Z.leb_spec (YearFromTime t) 9999); [| lia]. cbn [andb].
  f_equal. unfold iso_date.
  pose proof (MonthFromTime_range t). pose proof (DateFromTime_range t).
  rewrite split_head_prefix by (apply padStart_no_T, toStr_no_T; lia).
  f_equal. cbn [append split_head]. change (Ascii.eqb "-" "T") with false.
  cbv iota. f_equal.
  rewrite split_head_prefix by (apply padStart_no_T, toStr_no_T; lia).
  f_equal. cbn [append split_head]. change (Ascii.eqb "-" "T") with false.
  cbv iota. f_equal.
  apply split_head_app. apply padStart_no_T, toStr_no_T. lia.
Qed.

Lemma Server_formatDateForDB_west tza y m d :
  tz_ok tza -> tza <= 0 -> 0 <= y <= 9999 -> 0 <= m <= 11 ->
  1 <= d <= DaysInMonth y m ->
  Server.formatDateForDB (Some (localMidnight tza y m d)) =
  Returns (iso_date y m d).
Proof.
  intros Htz Hw Hy Hm Hd. unfold tz_ok, msPerDay in Htz.
  assert (E : localMidnight tza y m d = MakeDate (MakeDay y m d) (- tza))
    by (unfold localMidnight, UTC, MakeDate, MakeTime; lia).
  destruct (civil_of_MakeDay y m d (- tza)) as (EY & EM & ED);
    try assumption; [unfold msPerDay; lia |].
  cbv zeta in EY, EM, ED. rewrite <- E in EY, EM, ED.
  rewrite Server_formatDateForDB_utc by (rewrite EY; exact Hy).
  now rewrite EY, EM, ED.
Qed.

(** X18: The key server.js makes of a Date is its day in universal time, and an
    Invalid Date makes [toISOString] throw.  For the local midnight that
    starts a day, this is that day when local time is at or behind
    universal time, and the day before when local time is ahead of it. *)
Theorem Server_formatDateForDB_is_the_utc_day tza y m d :
  tz_ok tza -> 1 <= y <= 9999 -> 0 <= m <= 11 -> 1 <= d <= DaysInMonth y m ->
  Server.formatDateForDB None = Throws RangeError /\
  (forall t, 0 <= YearFromTime t <= 9999 ->
     Server.formatDateForDB (Some t) =
     Returns (iso_date (YearFromTime t) (MonthFromTime t) (DateFromTime t))) /\
  (tza <= 0 ->
   Server.formatDateForDB (Some (localMidnight tza y m d)) =
   Returns (iso_date y m d)) /\
  (0 < tza ->
   Server.formatDateForDB (Some (localMidnight tza y m d)) =
   Returns (if d =? 1
            then iso_date (prev_month_year y m) (prev_month m)
                          (DaysInMonth (prev_month_year y m) (prev_month m))
            else iso_date y m (d - 1))).
Proof.
  intros Htz Hy Hm Hd.
  split; [reflexivity |]. split; [exact Server_formatDateForDB_utc |].
  split; [intros Hw; apply Server_formatDateForDB_west; assumption || lia |].
  intros He. unfold tz_ok, msPerDay in Htz.
  assert (E : localMidnight tza y m d =
              MakeDate (MakeDay y m d - 1) (msPerDay - tza))
    by (unfold localMidnight, UTC, MakeDate, MakeTime, msPerDay; lia).
  destruct (Z.eqb_spec d 1) as [-> | Hd1].
  - replace (MakeDay y m 1 - 1) with (MakeDay y m 0) in E
      by (rewrite !MakeDay_month by assumption; lia).
    rewrite MakeDay_underflow in E by assumption.
    fold (prev_month_year y m) in E. fold (prev_month m) in E.
    pose proof (DaysInMonth_range (prev_month_year y m) (prev_month m)).
    destruct (civil_of_MakeDay (prev_month_year y m) (prev_month m)
                (DaysInMonth (prev_month_year y m) (prev_month m))
                (msPerDay - tza)) as (EY & EM & ED).
    + unfold prev_month. destruct (Z.eqb_spec m 0); lia.
    + lia.
    + unfold msPerDay. lia.
    + cbv zeta in EY, EM, ED. rewrite <- E in EY, EM, ED.
      rewrite Server_formatDateForDB_utc.
      * now rewrite EY, EM, ED.
      * rewrite EY. unfold prev_month_year. destruct (Z.eqb_spec m 0); lia.
  - replace (MakeDay y m d - 1) with (MakeDay y m (d - 1)) in E
      by (rewrite !MakeDay_month by assumption; lia).
    destruct (civil_of_MakeDay y m (d - 1) (msPerDay - tza))
      as (EY & EM & ED); try assumption; [lia | unfold msPerDay; lia |].
    cbv zeta in EY, EM, ED. rewrite <- E in EY, EM, ED.
    rewrite Server_formatDateForDB_utc by (rewrite EY; lia).
    now rewrite EY, EM, ED.
Qed.

Lemma Server_formatDateForDB_is_the_utc_day_witness :
  tz_ok tz_paris /\ 1 <= 2026 <= 9999 /\ 0 <= 1 <= 11 /\
  1 <= 1 <= DaysInMonth 2026 1 /\
  Server.formatDateForDB (Some (localMidnight tz_paris 2026 1 1)) =
  Returns "2026-01-31"%string.
Proof.
  assert (Htz : tz_ok tz_paris) by (vm_compute; split; reflexivity).
  assert (Hy : 1 <= 2026 <= 9999) by lia.
  assert (Hm : 0 <= 1 <= 11) by lia.
  assert (Hd : 1 <= 1 <= DaysInMonth 2026 1)
    by (vm_compute; split; discriminate).
  split; [exact Htz |]. split; [exact Hy |]. split; [exact Hm |].
  split; [exact Hd |].
  destruct (Server_formatDateForDB_is_the_utc_day tz_paris 2026 1 1
              Htz Hy Hm Hd) as (_ & _ & _ & G).
  rewrite G by (vm_compute; reflexivity). reflexivity.
Defined.

(** X19: At or behind universal time (the production server, and Los Angeles),
    the date range of the pay-period route is the local period: its keys
    are the first and the last day of the period [periodOffset] places from
    the one of the clock. *)
Theorem pay_period_keys_at_or_west_of_Greenwich tza now periodOffset :
  tz_ok tza -> tza <= 0 ->
  index_ok (periodIndex tza now) ->
  index_ok (periodIndex tza now + periodOffset) ->
  (periodIndex tza now + periodOffset) / 24 <= 9999 ->
  let k := periodIndex tza now + periodOffset in
  let y := k / 24 in
  let m := k mod 24 / 2 in
  Server.period_keys tza (Some now) periodOffset =
  if k mod 2 =? 0
  then (Returns (iso_date y m 1), Returns (iso_date y m 15))
  else (Returns (iso_date y m 16), Returns (iso_date y m (DaysInMonth y m))).
Proof.
  intros Htz Hw Hk Hko Hy k y m. unfold Server.period_keys.
  rewrite (Server_getPayPeriodByOffset_agrees tza no_parse (Some now)
             periodOffset _
             (getPayPeriodByOffset_index tza no_parse now periodOffset
                Htz Hk Hko)).
  fold k. unfold periodOfIndex. fold y m.
  destruct (index_split k) as [Hm _]. fold m in Hm.
  pose proof (DaysInMonth_range y m).
  assert (Hy0 : 0 <= y <= 9999)
    by (unfold index_ok in Hko; fold k in Hko; subst y;
        split; [Z.div_mod_to_equations; lia | exact Hy]).
  destruct (k mod 2 =? 0); unfold periodOf; cbn [start end_];
    rewrite !Server_formatDateForDB_west by (assumption || lia);
    reflexivity.
Qed.

Lemma pay_period_keys_at_or_west_of_Greenwich_witness :
  tz_ok tz_los_angeles /\ tz_los_angeles <= 0 /\
  index_ok (periodIndex tz_los_angeles 1770000000000) /\
  index_ok (periodIndex tz_los_angeles 1770000000000 + -1) /\
  (periodIndex tz_los_angeles 1770000000000 + -1) / 24 <= 9999 /\
  Server.period_keys tz_los_angeles (Some 1770000000000) (-1) =
  (Returns "2026-01-16"%string, Returns "2026-01-31"%string).
Proof.
  assert (Htz : tz_ok tz_los_angeles) by (vm_compute; split; reflexivity).
  assert (Hw : tz_los_angeles <= 0) by (vm_compute; discriminate).
  assert (Hk : index_ok (periodIndex tz_los_angeles 1770000000000))
    by (vm_compute; split; [discriminate | reflexivity]).
  assert (Hko : index_ok (periodIndex tz_los_angeles 1770000000000 + -1))
    by (vm_compute; split; [discriminate | reflexivity]).
  assert (Hy : (periodIndex tz_los_angeles 1770000000000 + -1) / 24 <= 9999)
    by (vm_compute; discriminate).
  split; [exact Htz |]. split; [exact Hw |]. split; [exact Hk |].
  split; [exact Hko |]. split; [exact Hy |].
  rewrite (pay_period_keys_at_or_west_of_Greenwich tz_los_angeles
             1770000000000 (-1) Htz Hw Hk Hko Hy).
  vm_compute. reflexivity.
Defined.

(** ** The label of a period *)

(** X20: The label of the period of month [m] of year [y] is the abbreviation of
    the month, the first and the last day of the period joined by a dash,
    and the year; the label of a period of Invalid Dates is made of
    "undefined" and "NaN". *)
Theorem getPayPeriodLabel_of_period tza y m (first : bool) :
  0 <= m <= 11 ->
  getPayPeriodLabel tza (periodOf tza y m first) =
  (nth (Z.to_nat m) months "undefined" ++ " "
   ++ (if first then "1" else "16") ++ en_dash
   ++ (if first then "15" else toStr (DaysInMonth y m)) ++ ", "
   ++ toStr y)%string /\
  getPayPeriodLabel tza {| start := None; end_ := None |} =
  ("undefined NaN" ++ en_dash ++ "NaN, NaN")%string.
Proof.
  intros Hm. split; [| reflexivity].
  pose proof (DaysInMonth_range y m) as Hr.
  unfold getPayPeriodLabel, periodOf.
  destruct first; cbn [start end_ getMonth getDate getFullYear option_map].
  - destruct (civil_localMidnight tza y m 1 Hm) as (EY & EM & ED); [lia |].
    destruct (civil_localMidnight tza y m 15 Hm) as (_ & _ & ED'); [lia |].
    cbv zeta in EY, EM, ED, ED'. rewrite EY, EM, ED, ED'.
    cbn [show_month show_number].
    destruct (Z.ltb_spec m 0); [lia | reflexivity].
  - destruct (civil_localMidnight tza y m 16 Hm) as (EY & EM & ED); [lia |].
    destruct (civil_localMidnight tza y m (DaysInMonth y m) Hm)
      as (_ & _ & ED'); [lia |].
    cbv zeta in EY, EM, ED, ED'. rewrite EY, EM, ED, ED'.
    cbn [show_month show_number].
    destruct (Z.ltb_spec m 0); [lia | reflexivity].
Qed.

Lemma getPayPeriodLabel_of_period_witness :
  0 <= 1 <= 11 /\
  getPayPeriodLabel tz_los_angeles (periodOf tz_los_angeles 2026 1 false) =
  ("Feb 16" ++ en_dash ++ "28, 2026")%string.
Proof.
  assert (Hm : 0 <= 1 <= 11) by lia.
  split; [exact Hm |].
  rewrite (proj1 (getPayPeriodLabel_of_period tz_los_angeles 2026 1 false Hm)).
  vm_compute. reflexivity.
Defined.
